(** * Flow-App: the daily scheduling and calibration engine

    A shallow embedding of [src/lib/scheduling/engine.ts] and
    [src/lib/scheduling/challenge-skill.ts], in two readings:
    - a functional one, where arrays are lists and every function returns
      its result; the properties of the schedules, the scores and the
      calibration profile are proved of it;
    - one on a heap of arrays, where [sort] and [push] write in place; it
      is proved to return what the functional reading returns and to leave
      the arrays of its caller alone.

    Numbers.  A JavaScript [number] is modelled by the most specific of
    - [Z] for the integer columns of the schema (minutes, difficulty,
      priority, sort order, ratings),
    - [Q] for the finite doubles (means, medians, roundings, the hours of
      a plan): a double is written as the rational it stands for, and a
      decimal such as 4.9 for the double nearest to it,
    - [R] for the scores, which go through [Math.exp].
    Integers, their sums and a single quotient of two of them rounded to
    a decimal are computed exactly, which is what the doubles give on the
    numbers the schema holds.  Where
    a result depends on the rounding of doubles, the operations are
    rounded to the nearest double ([round53]): the slots of a day, which
    floor a product and a quotient of the hours, and the skill level and
    the ideal difficulty, which round a sum of quotients.  The scores are
    real numbers.  The one place where the engine divides by a quantity
    that can be zero is modelled with the values JavaScript produces there
    ([Infinity], [NaN]).

    The order of [scoredTasks] compares real numbers and does not compute;
    without a calibration profile the scores are rationals and it does
    ([generateDailySchedule_fallback]). *)

From Stdlib Require Import ZArith QArith Qround Qabs Qminmax Qpower Reals.
From Stdlib Require Import Bool Psatz Lia.
From Stdlib Require Import List Permutation Sorted String Ascii.
From stdpp Require Import gmap strings list pretty.

Local Open Scope Z_scope.

(** ** Numbers *)

Definition Qltb (x y : Q) : bool := negb (Qle_bool y x).

Definition Rleb (x y : R) : bool := if Rle_dec x y then true else false.

(** [Math.round]: the nearest integer, ties towards plus infinity. *)
Definition Math_round (q : Q) : Z := Qfloor (q + (1 # 2))%Q.

(** [Math.round(q * 10) / 10] *)
Definition round1 (q : Q) : Q := (inject_Z (Math_round (q * 10)) / 10)%Q.

(** [Math.round(q * 100) / 100] *)
Definition round2 (q : Q) : Q := (inject_Z (Math_round (q * 100)) / 100)%Q.

(** The values [Math.max(1, Math.floor(x / y))] can take. *)
Inductive jsnum : Type :=
  | Finite (z : Z)
  | Infinity
  | NaN.

(** [i < n] *)
Definition js_lt (i : Z) (n : jsnum) : bool :=
  match n with
  | Finite z => i <? z
  | Infinity => true
  | NaN => false
  end.

(** [i === n - 1] *)
Definition js_is_pred (i : Z) (n : jsnum) : bool :=
  match n with
  | Finite z => i =? z - 1
  | Infinity => false
  | NaN => false
  end.

(** ** Doubles

    A JavaScript number is an IEEE 754 double.  A finite double is
    written as the rational it stands for; signed zeros are not told
    apart (no operation of the engine tells them apart). *)

(** The integer nearest to [q], the even one on a tie. *)
Definition round_half_even (q : Q) : Z :=
  let f := Qfloor q in
  match (q - inject_Z f ?= 1 # 2)%Q with
  | Lt => f
  | Gt => f + 1
  | Eq => if Z.even f then f else f + 1
  end.

(** [floor (log2 q)] for [0 < q]. *)
Definition ilog2 (q : Q) : Z :=
  let k := Z.log2 (Qnum q) - Z.log2 (Z.pos (Qden q)) in
  if Qle_bool (2 ^ k) q then k else k - 1.

(** The double nearest to [q], for [0 < q]: 53 bits, exponents from
    -1074 on, no upper limit. *)
Definition round53_pos (q : Q) : Q :=
  let e := Z.max (-1074) (ilog2 q - 52) in
  (inject_Z (round_half_even (q / 2 ^ e)) * 2 ^ e)%Q.

(** The double nearest to [q], were there no largest double. *)
Definition round53 (q : Q) : Q :=
  match (q ?= 0)%Q with
  | Eq => 0%Q
  | Gt => round53_pos q
  | Lt => (- round53_pos (- q))%Q
  end.

(** [Number.MAX_VALUE] *)
Definition MAX_VALUE : Q := (inject_Z (2 ^ 53 - 1) * 2 ^ 971)%Q.

(** A number: a finite double, an infinity or [NaN]. *)
Inductive number : Type :=
  | Num (q : Q)
  | Inf (negative : bool)
  | NotANumber.

(** The number that a rational rounds to: the nearest double, or an
    infinity beyond the largest one. *)
Definition to_number (q : Q) : number :=
  let r := round53 q in
  if Qle_bool (Qabs r) MAX_VALUE then Num r else Inf (Qltb r 0).

(** [x * y] *)
Definition mul (x y : number) : number :=
  match x, y with
  | NotANumber, _ | _, NotANumber => NotANumber
  | Num a, Num b => to_number (a * b)
  | Inf s, Num b | Num b, Inf s =>
      if Qeq_bool b 0 then NotANumber else Inf (xorb s (Qltb b 0))
  | Inf s, Inf t => Inf (xorb s t)
  end.

(** [x - y] *)
Definition sub (x y : number) : number :=
  match x, y with
  | NotANumber, _ | _, NotANumber => NotANumber
  | Num a, Num b => to_number (a - b)
  | Inf s, Num _ => Inf s
  | Num _, Inf t => Inf (negb t)
  | Inf s, Inf t => if Bool.eqb s t then NotANumber else Inf s
  end.

(** [x / y]; a divisor 0 is the positive zero (here it is always a sum
    of integers). *)
Definition div (x y : number) : number :=
  match x, y with
  | NotANumber, _ | _, NotANumber => NotANumber
  | Num a, Num b =>
      if Qeq_bool b 0 then
        if Qeq_bool a 0 then NotANumber else Inf (Qltb a 0)
      else to_number (a / b)
  | Num _, Inf _ => Num 0
  | Inf s, Num b => Inf (xorb s (Qltb b 0))
  | Inf _, Inf _ => NotANumber
  end.

(** [Math.floor(x)] *)
Definition Math_floor (x : number) : number :=
  match x with
  | Num q => Num (inject_Z (Qfloor q))
  | _ => x
  end.

(** [Math.max(1, x)] for an [x] without a fraction. *)
Definition Math_max_1 (x : number) : jsnum :=
  match x with
  | Num q => Finite (Z.max 1 (Qfloor q))
  | Inf false => Infinity
  | Inf true => Finite 1
  | NotANumber => NaN
  end.

(** [Math.round(x * 10) / 10] on a double [x]: the product is rounded to
    a double, and the tenth that results is written as a decimal. *)
Definition round1_double (x : Q) : Q :=
  (inject_Z (Math_round (round53 (x * 10))) / 10)%Q.

(** ** Arrays

    [Array.prototype.sort] is stable.  For a comparator that is a total
    preorder the result is the stable insertion sort; [le a b] stands for
    [comparator(a, b) <= 0]. *)

Section ArraySort.
Context {A : Type} (le : A -> A -> bool).

Fixpoint sort_insert (x : A) (l : list A) : list A :=
  match l with
  | [] => [x]
  | y :: l' => if le x y then x :: y :: l' else y :: sort_insert x l'
  end.

Fixpoint array_sort (l : list A) : list A :=
  match l with
  | [] => []
  | x :: l' => sort_insert x (array_sort l')
  end.
End ArraySort.

(** [reduce((sum, x) => sum + f(x), 0)] *)
Definition sum_by {A : Type} (f : A -> Z) (l : list A) : Z :=
  fold_left (fun sum x => sum + f x) l 0.

(** ** Data model (src/lib/db/schema.ts, engine.ts) *)

Inductive task_status : Type :=
  | pending
  | scheduled
  | in_progress
  | completed
  | skipped.

Module Task.
Record t : Type := mk {
  id : string;
  milestoneId : option string;
  projectId : string;
  title : string;
  description : option string;
  estimatedMinutes : Z;
  actualMinutes : option Z;
  difficulty : Z;
  priority : Z;
  status : task_status;
  aiGenerated : bool;
  sortOrder : Z;
  createdAt : Z
}.
End Task.

Inductive block_type : Type :=
  | deep_work
  | shallow_work
  | break
  | buffer.

Module ScheduledTask.
Record t : Type := mk {
  task : Task.t;
  sortOrder : Z
}.
End ScheduledTask.

Module ScheduledBlock.
Record t : Type := mk {
  blockNumber : Z;
  startTime : string;
  endTime : string;
  blockType : block_type;
  tasks : list ScheduledTask.t;
  totalMinutes : Z
}.
End ScheduledBlock.

Module CalibrationProfile.
Record t : Type := mk {
  skillLevel : Q;
  idealDifficulty : Q;
  confidence : Q;
  dataPoints : Z;
  energyByDay : gmap Z Q;
  avgTasksPerDay : Q;
  avgHoursPerDay : Q;
  currentStreak : Z
}.
End CalibrationProfile.

Module ScheduleConfig.
Record t : Type := mk {
  startTime : string;
  hoursRequested : Q;
  blockDurationMinutes : Z;
  breakDurationMinutes : Z;
  calibration : option CalibrationProfile.t
}.
End ScheduleConfig.

Inductive difficulty_rating : Type :=
  | too_easy
  | just_right
  | too_hard.

Module FeedbackWithDifficulty.
Record t : Type := mk {
  difficultyRating : option difficulty_rating;
  taskDifficulty : Z;
  flowRating : option Z;
  completedAt : Z
}.
End FeedbackWithDifficulty.

Module DailyPlanSummary.
Record t : Type := mk {
  date : string;
  hoursRequested : option Z;
  energyRating : option Z;
  eodReviewCompleted : bool
}.
End DailyPlanSummary.

(** The element type of [scoredTasks]: [{ task, score }]. *)
Module Scored.
Record t : Type := mk {
  task : Task.t;
  score : R
}.
End Scored.

(** ** challenge-skill.ts: calculateChallengeSkillScore *)

Definition calculateChallengeSkillScore
    (taskDifficulty : R) (profile : CalibrationProfile.t) : R :=
  let delta :=
    Rabs (taskDifficulty - Q2R (CalibrationProfile.idealDifficulty profile)) in
  let sigma := 2%R in
  let score := exp (- (delta * delta) / (2 * sigma * sigma)) in
  let defaultScore := Rmax 0 (1 - Rabs (taskDifficulty - 5) * 0.15) in
  (score * Q2R (CalibrationProfile.confidence profile)
   + defaultScore * (1 - Q2R (CalibrationProfile.confidence profile)))%R.

(** ** engine.ts: calculateTaskScore *)

Definition calculateTaskScore
    (task : Task.t) (calibration : option CalibrationProfile.t) : R :=
  let priorityScore := (IZR (Task.priority task) / 5)%R in
  let urgencyScore := 0.5%R in
  let fallback :=
    let idealDifficulty := 5%R in
    let difficultyDelta :=
      Rabs (IZR (Task.difficulty task) - idealDifficulty) in
    Rmax 0 (1 - difficultyDelta * 0.15) in
  let challengeScore :=
    match calibration with
    | Some c =>
        if Qltb 0 (CalibrationProfile.confidence c)
        then calculateChallengeSkillScore (IZR (Task.difficulty task)) c
        else fallback
    | None => fallback
    end in
  (priorityScore * 0.3
   + urgencyScore * 0.4
   + challengeScore * 0.2
   + (1 - IZR (Task.sortOrder task) * 0.01) * 0.1)%R.

(** ** engine.ts: time helpers (minutes since midnight) *)

Definition is_digit (c : ascii) : bool :=
  let n := nat_of_ascii c in (48 <=? n)%nat && (n <=? 57)%nat.

Fixpoint digits_value (acc : Z) (s : string) : option Z :=
  match s with
  | EmptyString => Some acc
  | String c s' =>
      if is_digit c
      then digits_value (10 * acc + Z.of_nat (nat_of_ascii c) - 48) s'
      else None
  end.

(** [Number(s)] on the strings the callers build: the empty string is 0, a
    run of decimal digits is its value.  Every other string is taken to be
    [NaN] ([None]); signs, blanks, fractions and exponents are not
    modelled. *)
Definition Number (s : string) : option Z := digits_value 0 s.

(** [s.split(":")] *)
Fixpoint split_colon (cur : string) (s : string) : list string :=
  match s with
  | EmptyString => [cur]
  | String c s' =>
      if Ascii.eqb c ":"%char
      then cur :: split_colon EmptyString s'
      else split_colon (cur ++ String c EmptyString)%string s'
  end.

(** [parseTime]; [None] is [NaN]. *)
Definition parseTime (timeStr : string) : option Z :=
  match List.map Number (split_colon EmptyString timeStr) with
  | Some hours :: Some minutes :: _ => Some (hours * 60 + minutes)
  | _ => None
  end.

(** [n.toString().padStart(2, "0")] for an integer [n]. *)
Definition pad2 (n : Z) : string :=
  let s := pretty n in
  if (String.length s <? 2)%nat then ("0" ++ s)%string else s.

Definition formatTime (minutes : option Z) : string :=
  match minutes with
  | Some minutes =>
      let h := Z.rem (minutes / 60) 24 in
      let m := Z.rem minutes 60 in
      (pad2 h ++ ":" ++ pad2 m)%string
  | None => "NaN:NaN"%string
  end.

(** ** engine.ts: generateDailySchedule *)

(** [t.status === "pending" || t.status === "scheduled"] *)
Definition is_active (t : Task.t) : bool :=
  match Task.status t with
  | pending | scheduled => true
  | _ => false
  end.

(** [(a, b) => b.score - a.score], as [comparator(a, b) <= 0]. *)
Definition by_score_desc (a b : Scored.t) : bool :=
  Rleb (Scored.score b - Scored.score a) 0.

(** [(a, b) => a.task.difficulty - b.task.difficulty], as
    [comparator(a, b) <= 0]. *)
Definition by_difficulty (a b : Scored.t) : bool :=
  Task.difficulty (Scored.task a) - Task.difficulty (Scored.task b) <=? 0.

(** Lines 65-71: filter, score and sort. *)
Definition scoredTasks
    (pendingTasks : list Task.t) (calibration : option CalibrationProfile.t)
    : list Scored.t :=
  array_sort by_score_desc
    (List.map (fun task => Scored.mk task (calculateTaskScore task calibration))
       (List.filter is_active pendingTasks)).

(** Lines 96-104: the greedy selection over [candidateTasks], from index
    [j] on, with the selection and the fill so far.  Returns
    [(selectedForBlock, blockMinutesFilled)]. *)
Fixpoint select_tasks (blockDurationMinutes : Z)
    (candidateTasks : list Scored.t)
    (selectedForBlock : list Scored.t) (blockMinutesFilled : Z)
    : list Scored.t * Z :=
  match candidateTasks with
  | [] => (selectedForBlock, blockMinutesFilled)
  | candidate :: rest =>
      let est := Task.estimatedMinutes (Scored.task candidate) in
      if blockMinutesFilled + est <=? blockDurationMinutes then
        let selectedForBlock' := selectedForBlock ++ [candidate] in
        let blockMinutesFilled' := blockMinutesFilled + est in
        if Qle_bool (inject_Z blockDurationMinutes * 0.8)
                    (inject_Z blockMinutesFilled')
        then (selectedForBlock', blockMinutesFilled')
        else select_tasks blockDurationMinutes rest
               selectedForBlock' blockMinutesFilled'
      else select_tasks blockDurationMinutes rest
             selectedForBlock blockMinutesFilled
  end.

(** Lines 107-108: drop from the pool the tasks whose id was selected. *)
Definition remove_selected
    (selectedForBlock remainingTasks : list Scored.t) : list Scored.t :=
  let selectedIds : gset string :=
    list_to_set (List.map (fun s => Task.id (Scored.task s)) selectedForBlock) in
  List.filter
    (fun t => negb (bool_decide (Task.id (Scored.task t) ∈ selectedIds)))
    remainingTasks.

(** Lines 114-119: [forEach((st, idx) => blockTasks.push(...))]. *)
Definition to_blockTasks (selectedForBlock : list Scored.t)
    : list ScheduledTask.t :=
  imap (fun idx st => ScheduledTask.mk (Scored.task st) (Z.of_nat idx))
    selectedForBlock.

(** [currentTime += minutes] on a cursor that may be [NaN]. *)
Definition advance (currentTime : option Z) (minutes : Z) : option Z :=
  option_map (fun t => t + minutes) currentTime.

(** Lines 78-138: the loop over the blocks, from iteration [i] on.  The
    loop has no bound when [effectiveBlocks] is [Infinity]; [fuel] bounds
    the number of iterations and [None] means it ran out. *)
Fixpoint schedule_loop (fuel : nat)
    (blockDurationMinutes breakDurationMinutes : Z) (effectiveBlocks : jsnum)
    (i : Z) (remainingTasks : list Scored.t) (currentTime : option Z)
    (blocks : list ScheduledBlock.t) : option (list ScheduledBlock.t) :=
  if js_lt i effectiveBlocks && (0 <? Z.of_nat (length remainingTasks)) then
    match fuel with
    | O => None
    | S fuel' =>
        let isLastBlock := js_is_pred i effectiveBlocks in
        let blockType := if isLastBlock then shallow_work else deep_work in
        let candidateTasks :=
          if isLastBlock
          then array_sort by_difficulty remainingTasks
          else remainingTasks in
        let '(selectedForBlock, blockMinutesFilled) :=
          select_tasks blockDurationMinutes candidateTasks [] 0 in
        let remainingTasks' := remove_selected selectedForBlock remainingTasks in
        let selectedForBlock' := array_sort by_difficulty selectedForBlock in
        let blockTasks := to_blockTasks selectedForBlock' in
        if (Z.of_nat (length blockTasks) =? 0) then
          schedule_loop fuel' blockDurationMinutes breakDurationMinutes
            effectiveBlocks (i + 1) remainingTasks' currentTime blocks
        else
          let startTimeStr := formatTime currentTime in
          let currentTime1 := advance currentTime blockDurationMinutes in
          let endTimeStr := formatTime currentTime1 in
          let block :=
            ScheduledBlock.mk (i + 1) startTimeStr endTimeStr blockType
              blockTasks blockMinutesFilled in
          let currentTime2 := advance currentTime1 breakDurationMinutes in
          schedule_loop fuel' blockDurationMinutes breakDurationMinutes
            effectiveBlocks (i + 1) remainingTasks' currentTime2
            (blocks ++ [block])
    end
  else Some blocks.

(** Lines 55-62, in doubles.  [hoursRequested] is the number as it is
    written; the engine holds the double nearest to it.
    ([numBlocks], line 57, is never read.) *)
Definition effectiveBlocks (config : ScheduleConfig.t) : jsnum :=
  let totalMinutes :=
    mul (to_number (ScheduleConfig.hoursRequested config)) (to_number 60) in
  let blockWithBreak :=
    ScheduleConfig.blockDurationMinutes config
    + ScheduleConfig.breakDurationMinutes config in
  let bufferMinutes := Math_floor (mul totalMinutes (to_number 0.1)) in
  let effectiveMinutes := sub totalMinutes bufferMinutes in
  Math_max_1
    (Math_floor (div effectiveMinutes (to_number (inject_Z blockWithBreak)))).

Definition generateDailySchedule (fuel : nat)
    (pendingTasks : list Task.t) (config : ScheduleConfig.t)
    : option (list ScheduledBlock.t) :=
  if (Z.of_nat (length pendingTasks) =? 0) then Some []
  else
    schedule_loop fuel
      (ScheduleConfig.blockDurationMinutes config)
      (ScheduleConfig.breakDurationMinutes config)
      (effectiveBlocks config) 0
      (scoredTasks pendingTasks (ScheduleConfig.calibration config))
      (parseTime (ScheduleConfig.startTime config)) [].

(** ** engine.ts: autoDecideBlockDuration, resolveBlockDuration *)

(** What the engine takes from its host: [new Date(s).getDay()] and
    [new Date(s).getTime()] of a stored date (the [date] column holds valid
    dates; the weekday is that of the host's time zone), and
    [new Date().getDay()]. *)
Class Host : Type := {
  Date_getDay : string -> Z;
  Date_getTime : string -> Z;
  today_getDay : Z
}.

(** Truthiness of a [number | null]: neither [null] nor [0]. *)
Definition truthy (x : option Z) : bool :=
  match x with
  | Some n => negb (n =? 0)
  | None => false
  end.

(** [x / n] for a sum [x] and a length [n]. *)
Definition mean_of (sum : Z) (len : nat) : Q :=
  (inject_Z sum / inject_Z (Z.of_nat len))%Q.

Section WithHost.
Context `{Host}.

Definition autoDecideBlockDuration
    (calibration : option CalibrationProfile.t) (pendingTasks : list Task.t)
    : Z :=
  match calibration with
  | None => 120
  | Some calibration =>
      let confidence := CalibrationProfile.confidence calibration in
      if Qeq_bool confidence 0 then 120
      else if Qltb confidence 0.3 then 90
      else
        let avgHours := CalibrationProfile.avgHoursPerDay calibration in
        if Qltb confidence 0.7 then
          if Qltb 0 avgHours && Qltb avgHours 3 then 60
          else if Qle_bool 3 avgHours && Qle_bool avgHours 5 then 90
          else 120
        else
          let activeTasks := List.filter is_active pendingTasks in
          let avgEstimate :=
            mean_of (sum_by Task.estimatedMinutes activeTasks)
              (length activeTasks) in
          if (0 <? Z.of_nat (length activeTasks)) && Qltb avgEstimate 25
          then 60
          else if (0 <? Z.of_nat (length activeTasks)) && Qltb avgEstimate 50
          then 90
          else
            let today := today_getDay in
            let todayEnergy :=
              CalibrationProfile.energyByDay calibration !! today in
            match todayEnergy with
            | Some e =>
                if negb (Qeq_bool e 0) && Qle_bool e 2 then 60
                else if negb (Qeq_bool e 0) && Qle_bool e 3 then 90
                else if Qltb 0 avgHours && Qltb avgHours 4 then 90
                else 120
            | None =>
                if Qltb 0 avgHours && Qltb avgHours 4 then 90 else 120
            end
  end.

Definition resolveBlockDuration (mode : string) (customDuration : Z)
    (calibration : option CalibrationProfile.t) (pendingTasks : list Task.t)
    : Z :=
  if String.eqb mode "60" then 60
  else if String.eqb mode "90" then 90
  else if String.eqb mode "120" then 120
  else if String.eqb mode "custom" then customDuration
  else if String.eqb mode "auto"
  then autoDecideBlockDuration calibration pendingTasks
  else if customDuration =? 0 then 120 else customDuration.

(** ** challenge-skill.ts: computeCalibrationProfile *)

Definition has_rating (r : difficulty_rating)
    (f : FeedbackWithDifficulty.t) : bool :=
  match FeedbackWithDifficulty.difficultyRating f, r with
  | Some too_easy, too_easy
  | Some just_right, just_right
  | Some too_hard, too_hard => true
  | _, _ => false
  end.

(** Lines 354-359: the median of the sorted difficulties.  An index out
    of range reads [undefined]; it does not happen for a non-empty
    array, and [0] stands for it. *)
Definition median_difficulty (justRightTasks : list FeedbackWithDifficulty.t)
    : Q :=
  let difficulties :=
    array_sort (fun a b => a - b <=? 0)
      (List.map FeedbackWithDifficulty.taskDifficulty justRightTasks) in
  let mid := Nat.div (length difficulties) 2 in
  let at_index (i : nat) : Z := nth i difficulties 0 in
  if (Nat.modulo (length difficulties) 2 =? 0)%nat
  then ((inject_Z (at_index (mid - 1)%nat) + inject_Z (at_index mid)) / 2)%Q
  else inject_Z (at_index mid).

(** Lines 345-374: the skill level before it is rounded to a tenth.  The
    median is exact (a sum of two integers and its half are doubles); the
    means, their sum and its half are rounded to doubles. *)
Definition raw_skillLevel (feedbackEntries : list FeedbackWithDifficulty.t)
    : Q :=
  let justRightTasks := List.filter (has_rating just_right) feedbackEntries in
  let tooEasyTasks := List.filter (has_rating too_easy) feedbackEntries in
  let tooHardTasks := List.filter (has_rating too_hard) feedbackEntries in
  let skillLevel :=
    if (0 <? Z.of_nat (length justRightTasks)) then
      median_difficulty justRightTasks
    else
      let easyAvg :=
        if (0 <? Z.of_nat (length tooEasyTasks))
        then round53
               (mean_of
                  (sum_by FeedbackWithDifficulty.taskDifficulty tooEasyTasks)
                  (length tooEasyTasks))
        else 3%Q in
      let hardAvg :=
        if (0 <? Z.of_nat (length tooHardTasks))
        then round53
               (mean_of
                  (sum_by FeedbackWithDifficulty.taskDifficulty tooHardTasks)
                  (length tooHardTasks))
        else 7%Q in
      round53 (round53 (easyAvg + hardAvg) / 2) in
  Qmax 1 (Qmin 10 skillLevel).

(** Lines 383-393: the running totals per weekday, [(total, count)]. *)
Definition add_energy (energyByDay : gmap Z (Z * Z))
    (plan : DailyPlanSummary.t) : gmap Z (Z * Z) :=
  match DailyPlanSummary.energyRating plan with
  | Some energyRating =>
      if negb (energyRating =? 0)
         && negb (String.eqb (DailyPlanSummary.date plan) "")
      then
        let dayOfWeek := Date_getDay (DailyPlanSummary.date plan) in
        let '(total, count) := default (0, 0) (energyByDay !! dayOfWeek) in
        <[dayOfWeek := (total + energyRating, count + 1)]> energyByDay
      else energyByDay
  | None => energyByDay
  end.

(** Lines 395-398. *)
Definition energy_average (data : Z * Z) : Q :=
  round1 (inject_Z (fst data) / inject_Z (snd data)).

(** [(a, b) => new Date(b.date).getTime() - new Date(a.date).getTime()],
    as [comparator(a, b) <= 0]. *)
Definition by_date_desc (a b : DailyPlanSummary.t) : bool :=
  Date_getTime (DailyPlanSummary.date b)
  - Date_getTime (DailyPlanSummary.date a) <=? 0.

(** Lines 415-424: the walk over [sortedPlans] from index [i] on, where
    [prev] is [sortedPlans[i - 1]]. *)
Fixpoint streak_walk (prev : DailyPlanSummary.t)
    (rest : list DailyPlanSummary.t) (currentStreak : Z) : Z :=
  match rest with
  | [] => currentStreak
  | curr :: rest' =>
      let prevDate := Date_getTime (DailyPlanSummary.date prev) in
      let currDate := Date_getTime (DailyPlanSummary.date curr) in
      let diffDays :=
        (inject_Z (prevDate - currDate)
         / inject_Z (1000 * 60 * 60 * 24))%Q in
      if Qle_bool diffDays 1.5
      then streak_walk curr rest' (currentStreak + 1)
      else currentStreak
  end.

Definition computeCalibrationProfile
    (feedbackEntries : list FeedbackWithDifficulty.t)
    (dailyPlanData : list DailyPlanSummary.t) : CalibrationProfile.t :=
  if (Z.of_nat (length feedbackEntries) <? 3) then
    CalibrationProfile.mk 5 5.2 0 (Z.of_nat (length feedbackEntries))
      ∅ 0 0 0
  else
    let skillLevel := raw_skillLevel feedbackEntries in
    let idealDifficulty := Qmin 10 (round53 (skillLevel * round53 1.04)) in
    let confidence :=
      Qmin 1 (inject_Z (Z.of_nat (length feedbackEntries)) / 33) in
    let energyByDay := fold_left add_energy dailyPlanData ∅ in
    let energyByDayAvg := energy_average <$> energyByDay in
    let daysWithPlans :=
      List.filter (fun p => truthy (DailyPlanSummary.hoursRequested p))
        dailyPlanData in
    let avgHoursPerDay :=
      if (0 <? Z.of_nat (length daysWithPlans))
      then mean_of
             (sum_by (fun p => default 0 (DailyPlanSummary.hoursRequested p))
                daysWithPlans)
             (length daysWithPlans)
      else 0%Q in
    let sortedPlans :=
      array_sort by_date_desc
        (List.filter DailyPlanSummary.eodReviewCompleted dailyPlanData) in
    let currentStreak :=
      match sortedPlans with
      | [] => 0
      | first :: rest => streak_walk first rest 1
      end in
    CalibrationProfile.mk
      (round1_double skillLevel)
      (round1_double idealDifficulty)
      (round2 confidence)
      (Z.of_nat (length feedbackEntries))
      energyByDayAvg
      0
      (round1 avgHoursPerDay)
      currentStreak.
End WithHost.

(** * Arrays as heap objects

    The functional model above reads every array as a value.  The engine
    sorts and grows arrays in place, so that reading says nothing about the
    arrays it was handed.  Here the arrays live in a heap and the two entry
    points are transcribed statement by statement: [filter], [map] and the
    spread [[...a]] allocate, [sort] and [push] write to the array they are
    called on.  The source assigns to no property of a task, a feedback
    entry or a plan summary; these are values. *)

Abbreviation loc := positive.

(** The blocks of the heap model: [tasks] is a reference to the
    [blockTasks] array. *)
Module HeapBlock.
Record t : Type := mk {
  blockNumber : Z;
  startTime : string;
  endTime : string;
  blockType : block_type;
  tasks : loc;
  totalMinutes : Z
}.
End HeapBlock.

Inductive value : Type :=
  | VTask (t : Task.t)
  | VScored (s : Scored.t)
  | VScheduledTask (st : ScheduledTask.t)
  | VBlock (b : HeapBlock.t)
  | VFeedback (f : FeedbackWithDifficulty.t)
  | VPlan (p : DailyPlanSummary.t)
  | VString (s : string)
  | VNumber (z : Z).

Abbreviation heap := (gmap loc (list value)).

(** The types of array elements. *)
Class Elem (A : Type) : Type := {
  inj : A -> value;
  proj : value -> option A;
  proj_inj : forall a, proj (inj a) = Some a
}.

#[global, refine] Instance Elem_Task : Elem Task.t :=
  {| inj := VTask; proj := fun v => match v with VTask t => Some t | _ => None end |}.
Proof. reflexivity. Defined.

#[global, refine] Instance Elem_Scored : Elem Scored.t :=
  {| inj := VScored; proj := fun v => match v with VScored t => Some t | _ => None end |}.
Proof. reflexivity. Defined.

#[global, refine] Instance Elem_ScheduledTask : Elem ScheduledTask.t :=
  {| inj := VScheduledTask;
     proj := fun v => match v with VScheduledTask t => Some t | _ => None end |}.
Proof. reflexivity. Defined.

#[global, refine] Instance Elem_Block : Elem HeapBlock.t :=
  {| inj := VBlock; proj := fun v => match v with VBlock t => Some t | _ => None end |}.
Proof. reflexivity. Defined.

#[global, refine] Instance Elem_Feedback : Elem FeedbackWithDifficulty.t :=
  {| inj := VFeedback;
     proj := fun v => match v with VFeedback t => Some t | _ => None end |}.
Proof. reflexivity. Defined.

#[global, refine] Instance Elem_Plan : Elem DailyPlanSummary.t :=
  {| inj := VPlan; proj := fun v => match v with VPlan t => Some t | _ => None end |}.
Proof. reflexivity. Defined.

#[global, refine] Instance Elem_string : Elem string :=
  {| inj := VString; proj := fun v => match v with VString t => Some t | _ => None end |}.
Proof. reflexivity. Defined.

#[global, refine] Instance Elem_Z : Elem Z :=
  {| inj := VNumber; proj := fun v => match v with VNumber t => Some t | _ => None end |}.
Proof. reflexivity. Defined.

(** Heap computations: [None] is a run that goes wrong (a dangling
    reference, an element of another type, no fuel left). *)
Definition M (A : Type) : Type := heap -> option (A * heap).

Definition ret {A : Type} (a : A) : M A := fun h => Some (a, h).

Definition bind {A B : Type} (m : M A) (k : A -> M B) : M B :=
  fun h =>
    match m h with
    | Some (a, h') => k a h'
    | None => None
    end.

Definition fail {A : Type} : M A := fun _ => None.

Notation "'let*' x ':=' m 'in' k" := (bind m (fun x => k))
  (at level 10, x name, m at level 100, k at level 200, only parsing).

Notation "m ';;' k" := (bind m (fun _ => k))
  (at level 100, k at level 200, right associativity, only parsing).

(** A new array. *)
Definition alloc {A : Type} `{Elem A} (xs : list A) : M loc :=
  fun h =>
    let l := fresh (dom h) in
    Some (l, <[l := inj <$> xs]> h).

(** The elements of the array at [l]. *)
Definition load {A : Type} `{Elem A} (l : loc) : M (list A) :=
  fun h =>
    match h !! l with
    | Some vs =>
        match mapM proj vs with
        | Some xs => Some (xs, h)
        | None => None
        end
    | None => None
    end.

(** The array at [l] gets the elements [xs]. *)
Definition store {A : Type} `{Elem A} (l : loc) (xs : list A) : M unit :=
  fun h =>
    match h !! l with
    | Some _ => Some (tt, <[l := inj <$> xs]> h)
    | None => None
    end.

(** [a.filter(p)] *)
Definition Array_filter {A : Type} `{Elem A} (a : loc) (p : A -> bool)
    : M loc :=
  let* xs := load a in alloc (List.filter p xs).

(** [a.map(f)] *)
Definition Array_map {A B : Type} `{Elem A} `{Elem B} (a : loc) (f : A -> B)
    : M loc :=
  let* xs := load (A := A) a in alloc (List.map f xs).

(** [a.sort(comparator)]: in place; the result is [a] itself. *)
Definition Array_sort {A : Type} `{Elem A} (a : loc) (le : A -> A -> bool)
    : M loc :=
  let* xs := load a in
  store a (array_sort le xs);;
  ret a.

(** [[...a]] *)
Definition Array_spread {A : Type} `{Elem A} (a : loc) : M loc :=
  let* xs := load (A := A) a in alloc xs.

(** [a.push(x)] *)
Definition Array_push {A : Type} `{Elem A} (a : loc) (x : A) : M unit :=
  let* xs := load a in store a (xs ++ [x]).

(** [a.length] *)
Definition Array_length {A : Type} `{Elem A} (a : loc) : M Z :=
  let* xs := load (A := A) a in ret (Z.of_nat (length xs)).

(** [a[j]]; [None] is [undefined]. *)
Definition Array_get {A : Type} `{Elem A} (a : loc) (j : Z) : M (option A) :=
  let* xs := load a in
  ret (if j <? 0 then None else xs !! Z.to_nat j).

(** [a.reduce((sum, x) => sum + f(x), 0)] *)
Definition Array_sum {A : Type} `{Elem A} (a : loc) (f : A -> Z) : M Z :=
  let* xs := load a in ret (sum_by f xs).

(** Lines 96-104 of engine.ts, from index [j] on. *)
Fixpoint select_loop (fuel : nat) (blockDurationMinutes : Z)
    (candidateTasks selectedForBlock : loc) (j : Z) (blockMinutesFilled : Z)
    : M Z :=
  let* len := Array_length (A := Scored.t) candidateTasks in
  if j <? len then
    match fuel with
    | O => fail
    | S fuel' =>
        let* c := Array_get candidateTasks j in
        match c with
        | None => fail
        | Some candidate =>
            let est := Task.estimatedMinutes (Scored.task candidate) in
            if blockMinutesFilled + est <=? blockDurationMinutes then
              Array_push selectedForBlock candidate;;
              let blockMinutesFilled' := blockMinutesFilled + est in
              if Qle_bool (inject_Z blockDurationMinutes * 0.8)
                          (inject_Z blockMinutesFilled')
              then ret blockMinutesFilled'
              else select_loop fuel' blockDurationMinutes candidateTasks
                     selectedForBlock (j + 1) blockMinutesFilled'
            else select_loop fuel' blockDurationMinutes candidateTasks
                   selectedForBlock (j + 1) blockMinutesFilled
        end
    end
  else ret blockMinutesFilled.

(** Lines 114-119: [selectedForBlock.forEach((st, idx) => ...)]. *)
Fixpoint push_blockTasks (blockTasks : loc) (idx : Z)
    (selected : list Scored.t) : M unit :=
  match selected with
  | [] => ret tt
  | st :: rest =>
      Array_push blockTasks (ScheduledTask.mk (Scored.task st) idx);;
      push_blockTasks blockTasks (idx + 1) rest
  end.

(** Lines 78-138 of engine.ts, from iteration [i] on. *)
Fixpoint block_loop (fuel : nat)
    (blockDurationMinutes breakDurationMinutes : Z) (effectiveBlocks : jsnum)
    (i : Z) (remainingTasks : loc) (currentTime : option Z) (blocks : loc)
    : M unit :=
  let* len := Array_length (A := Scored.t) remainingTasks in
  if js_lt i effectiveBlocks && (0 <? len) then
    match fuel with
    | O => fail
    | S fuel' =>
        let isLastBlock := js_is_pred i effectiveBlocks in
        let blockType := if isLastBlock then shallow_work else deep_work in
        let* blockTasks := alloc (A := ScheduledTask.t) [] in
        let* candidateTasks :=
          if isLastBlock then
            let* copy := Array_spread (A := Scored.t) remainingTasks in
            Array_sort copy by_difficulty
          else ret remainingTasks in
        let* selectedForBlock := alloc (A := Scored.t) [] in
        let* candidates := Array_length (A := Scored.t) candidateTasks in
        let* blockMinutesFilled :=
          select_loop (Z.to_nat candidates) blockDurationMinutes
            candidateTasks selectedForBlock 0 0 in
        let* ids :=
          Array_map selectedForBlock (fun s => Task.id (Scored.task s)) in
        let* ids := load (A := string) ids in
        let selectedIds : gset string := list_to_set ids in
        let* remainingTasks' :=
          Array_filter remainingTasks
            (fun t => negb (bool_decide
                              (Task.id (Scored.task t) ∈ selectedIds))) in
        Array_sort selectedForBlock by_difficulty;;
        let* selected := load (A := Scored.t) selectedForBlock in
        push_blockTasks blockTasks 0 selected;;
        let* n := Array_length (A := ScheduledTask.t) blockTasks in
        if n =? 0 then
          block_loop fuel' blockDurationMinutes breakDurationMinutes
            effectiveBlocks (i + 1) remainingTasks' currentTime blocks
        else
          let startTimeStr := formatTime currentTime in
          let currentTime1 := advance currentTime blockDurationMinutes in
          let endTimeStr := formatTime currentTime1 in
          Array_push blocks
            (HeapBlock.mk (i + 1) startTimeStr endTimeStr blockType
               blockTasks blockMinutesFilled);;
          let currentTime2 := advance currentTime1 breakDurationMinutes in
          block_loop fuel' blockDurationMinutes breakDurationMinutes
            effectiveBlocks (i + 1) remainingTasks' currentTime2 blocks
    end
  else ret tt.

(** [generateDailySchedule] on a heap: [pendingTasks] is a reference to
    the caller's array, the result a reference to the array of blocks. *)
Definition generateDailySchedule_heap (fuel : nat)
    (pendingTasks : loc) (config : ScheduleConfig.t) : M loc :=
  let calibration := ScheduleConfig.calibration config in
  let* len := Array_length (A := Task.t) pendingTasks in
  if len =? 0 then alloc (A := HeapBlock.t) []
  else
    let* filtered := Array_filter pendingTasks is_active in
    let* mapped :=
      Array_map filtered
        (fun task => Scored.mk task (calculateTaskScore task calibration)) in
    let* scoredTasks := Array_sort mapped by_score_desc in
    let* blocks := alloc (A := HeapBlock.t) [] in
    let* remainingTasks := Array_spread (A := Scored.t) scoredTasks in
    let currentTime := parseTime (ScheduleConfig.startTime config) in
    block_loop fuel
      (ScheduleConfig.blockDurationMinutes config)
      (ScheduleConfig.breakDurationMinutes config)
      (effectiveBlocks config) 0 remainingTasks currentTime blocks;;
    ret blocks.

(** What a reference to an array of blocks denotes. *)
Definition read_block (h : heap) (b : HeapBlock.t)
    : option ScheduledBlock.t :=
  match h !! HeapBlock.tasks b with
  | Some vs =>
      match mapM proj vs with
      | Some tasks =>
          Some (ScheduledBlock.mk (HeapBlock.blockNumber b)
                  (HeapBlock.startTime b) (HeapBlock.endTime b)
                  (HeapBlock.blockType b) tasks (HeapBlock.totalMinutes b))
      | None => None
      end
  | None => None
  end.

Definition read_blocks (h : heap) (blocks : loc)
    : option (list ScheduledBlock.t) :=
  match h !! blocks with
  | Some vs =>
      match mapM proj vs with
      | Some bs => mapM (read_block h) bs
      | None => None
      end
  | None => None
  end.

Section HeapCalibration.
Context `{Host}.

(** Lines 354-359 of challenge-skill.ts. *)
Definition median_heap (justRightTasks : loc) : M Q :=
  let* mapped :=
    Array_map justRightTasks FeedbackWithDifficulty.taskDifficulty in
  let* difficulties := Array_sort mapped (fun a b : Z => a - b <=? 0) in
  let* n := Array_length (A := Z) difficulties in
  let mid := n / 2 in
  if Z.rem n 2 =? 0 then
    let* lo := Array_get (A := Z) difficulties (mid - 1) in
    let* hi := Array_get (A := Z) difficulties mid in
    ret ((inject_Z (default 0%Z lo) + inject_Z (default 0%Z hi)) / 2)%Q
  else
    let* x := Array_get (A := Z) difficulties mid in
    ret (inject_Z (default 0 x)).

(** Lines 362-369: the mean difficulty of a group, or [d]. *)
Definition mean_heap (group : loc) (d : Q) : M Q :=
  let* n := Array_length (A := FeedbackWithDifficulty.t) group in
  if 0 <? n then
    let* sum := Array_sum group FeedbackWithDifficulty.taskDifficulty in
    ret (round53 (inject_Z sum / inject_Z n))
  else ret d.

(** [computeCalibrationProfile] on a heap: both arguments are references
    to the caller's arrays.  The [for ... of] loop and the streak loop
    only read; they are run on the elements loaded from the heap. *)
Definition computeCalibrationProfile_heap
    (feedbackEntries dailyPlanData : loc) : M CalibrationProfile.t :=
  let* len := Array_length (A := FeedbackWithDifficulty.t) feedbackEntries in
  if len <? 3 then
    ret (CalibrationProfile.mk 5 5.2 0 len ∅ 0 0 0)
  else
    let* justRightTasks :=
      Array_filter feedbackEntries (has_rating just_right) in
    let* tooEasyTasks := Array_filter feedbackEntries (has_rating too_easy) in
    let* tooHardTasks := Array_filter feedbackEntries (has_rating too_hard) in
    let* justRight :=
      Array_length (A := FeedbackWithDifficulty.t) justRightTasks in
    let* skillLevel :=
      if 0 <? justRight then median_heap justRightTasks
      else
        let* easyAvg := mean_heap tooEasyTasks 3 in
        let* hardAvg := mean_heap tooHardTasks 7 in
        ret (round53 (round53 (easyAvg + hardAvg) / 2)) in
    let skillLevel := Qmax 1 (Qmin 10 skillLevel) in
    let idealDifficulty := Qmin 10 (round53 (skillLevel * round53 1.04)) in
    let confidence := Qmin 1 (inject_Z len / 33) in
    let* plans := load (A := DailyPlanSummary.t) dailyPlanData in
    let energyByDay := fold_left add_energy plans ∅ in
    let energyByDayAvg := energy_average <$> energyByDay in
    let* daysWithPlans :=
      Array_filter dailyPlanData
        (fun p => truthy (DailyPlanSummary.hoursRequested p)) in
    let* days := Array_length (A := DailyPlanSummary.t) daysWithPlans in
    let* avgHoursPerDay :=
      if 0 <? days then
        let* sum :=
          Array_sum daysWithPlans
            (fun p => default 0 (DailyPlanSummary.hoursRequested p)) in
        ret (inject_Z sum / inject_Z days)%Q
      else ret 0%Q in
    let* copy := Array_spread (A := DailyPlanSummary.t) dailyPlanData in
    let* completed :=
      Array_filter copy DailyPlanSummary.eodReviewCompleted in
    let* sortedPlans := Array_sort completed by_date_desc in
    let* sorted := load (A := DailyPlanSummary.t) sortedPlans in
    let currentStreak :=
      match sorted with
      | [] => 0
      | first :: rest => streak_walk first rest 1
      end in
    ret (CalibrationProfile.mk
           (round1_double skillLevel)
           (round1_double idealDifficulty)
           (round2 confidence)
           len
           energyByDayAvg
           0
           (round1 avgHoursPerDay)
           currentStreak).
End HeapCalibration.

(** * Specifications

    The properties in the words of the specification. *)

(** ** Schedules *)

Definition est (s : Scored.t) : Z := Task.estimatedMinutes (Scored.task s).

(** [P] holds of every schedule the generator returns for these inputs,
    and it does return one (with fuel enough for the block count) whenever
    a block and its break do not add up to zero minutes. *)
Definition every_schedule (P : list ScheduledBlock.t -> Prop)
    (pendingTasks : list Task.t) (config : ScheduleConfig.t) : Prop :=
  (ScheduleConfig.blockDurationMinutes config
   + ScheduleConfig.breakDurationMinutes config <> 0 ->
   exists fuel blocks,
     generateDailySchedule fuel pendingTasks config = Some blocks)
  /\ (forall fuel blocks,
        generateDailySchedule fuel pendingTasks config = Some blocks ->
        P blocks).

(** The tasks of a block carry the positions 0, 1, ..., n-1, and a task
    with a smaller position is no harder than one with a larger. *)
Definition lower_the_hurdle (b : ScheduledBlock.t) : Prop :=
  List.map ScheduledTask.sortOrder (ScheduledBlock.tasks b)
  = List.map Z.of_nat (seq 0 (length (ScheduledBlock.tasks b)))
  /\ forall x y,
       In x (ScheduledBlock.tasks b) -> In y (ScheduledBlock.tasks b) ->
       ScheduledTask.sortOrder x <= ScheduledTask.sortOrder y ->
       Task.difficulty (ScheduledTask.task x)
       <= Task.difficulty (ScheduledTask.task y).

(** The sum of the estimated minutes of the tasks assigned to a block. *)
Definition assigned_minutes (b : ScheduledBlock.t) : Z :=
  sum_by (fun st => Task.estimatedMinutes (ScheduledTask.task st))
    (ScheduledBlock.tasks b).

(** The block was filled up to the 80% mark and no further: in the order
    in which its tasks were selected, the fill was below 80% of the block
    after every task but the last. *)
Definition stops_at_80_percent (bd : Z) (b : ScheduledBlock.t) : Prop :=
  exists order : list Task.t,
    Permutation order (List.map ScheduledTask.task (ScheduledBlock.tasks b))
    /\ forall pre suf,
         order = pre ++ suf -> pre <> [] -> suf <> [] ->
         (inject_Z (sum_by Task.estimatedMinutes pre) < inject_Z bd * 0.8)%Q.

(** The type of every emitted block is decided by its number alone:
    [shallow_work] for the block in the last slot of the day, [deep_work]
    for the others.  So every block before the last emitted one is
    [deep_work], and the last emitted one is [shallow_work] exactly when
    the loop got as far as the last slot. *)
Definition block_types (eb : jsnum) (blocks : list ScheduledBlock.t) : Prop :=
  forall pre last,
    blocks = pre ++ [last] ->
    Forall (fun b => ScheduledBlock.blockType b = deep_work) pre
    /\ (eb = Finite (ScheduledBlock.blockNumber last) ->
        ScheduledBlock.blockType last = shallow_work)
    /\ (eb <> Finite (ScheduledBlock.blockNumber last) ->
        ScheduledBlock.blockType last = deep_work).

(** The sentence of the spec on block types: whenever blocks are emitted
    and more than one block fits, the last emitted block is
    [shallow_work] and the others are [deep_work]. *)
Definition last_emitted_is_shallow (fuel : nat)
    (pendingTasks : list Task.t) (config : ScheduleConfig.t) : Prop :=
  forall blocks pre last n,
    generateDailySchedule fuel pendingTasks config = Some blocks ->
    effectiveBlocks config = Finite n -> 1 < n ->
    blocks = pre ++ [last] ->
    ScheduledBlock.blockType last = shallow_work
    /\ Forall (fun b => ScheduledBlock.blockType b = deep_work) pre.

(** The tasks of the block are tasks of [pool]. *)
Definition from_input (pool : list Task.t) (b : ScheduledBlock.t) : Prop :=
  Forall (fun st => In (ScheduledTask.task st) pool) (ScheduledBlock.tasks b).

(** What every emitted block is: the sorted, numbered selection of one
    greedy pass over some ordering of the pool. *)
Definition emitted_ok (bd : Z) (eb : jsnum) (b : ScheduledBlock.t) : Prop :=
  exists cands sel,
    select_tasks bd cands [] 0 = (sel, ScheduledBlock.totalMinutes b)
    /\ sel <> []
    /\ ScheduledBlock.tasks b = to_blockTasks (array_sort by_difficulty sel)
    /\ ScheduledBlock.blockType b =
         (if js_is_pred (ScheduledBlock.blockNumber b - 1) eb
          then shallow_work else deep_work)
    /\ js_lt (ScheduledBlock.blockNumber b - 1) eb = true.

(** [start + 1, start + 2, ...] *)
Definition numbers_from (start : Z) (n : nat) : list Z :=
  List.map (fun k => start + 1 + Z.of_nat k) (seq 0 n).

(** ** Scores *)

Local Open Scope R_scope.

(** The default score, the one that knows nothing of the user. *)
Definition default_challenge (d : R) : R := Rmax 0 (1 - Rabs (d - 5) * 0.15).

(** The Gaussian of the spec: exp(-D^2 / (2 * 2^2)). *)
Definition gaussian (delta : R) : R := exp (- delta ^ 2 / (2 * 2 ^ 2)).

(** The score as the spec writes it, for a given challenge score. *)
Definition score_formula (task : Task.t) (challengeScore : R) : R :=
  IZR (Task.priority task) / 5 * 0.3
  + 0.5 * 0.4
  + challengeScore * 0.2
  + (1 - IZR (Task.sortOrder task) * 0.01) * 0.1.

Local Close Scope R_scope.

(** The score of a task without a profile, as a rational. *)
Definition fallback_score (task : Task.t) : Q :=
  (inject_Z (Task.priority task) / 5 * 0.3
   + 0.5 * 0.4
   + Qmax 0 (1 - Qabs (inject_Z (Task.difficulty task) - 5) * 0.15) * 0.2
   + (1 - inject_Z (Task.sortOrder task) * 0.01) * 0.1)%Q.

(** [(a, b) => b.score - a.score] on the rational scores. *)
Definition by_fallback_desc (a b : Task.t) : bool :=
  Qle_bool (fallback_score b - fallback_score a) 0.

(** ** The skill level *)

#[global] Instance difficulty_rating_eq_dec : EqDecision difficulty_rating.
Proof. solve_decision. Defined.






(** [r] is [x] rounded to one decimal place: the nearest tenth, the upper
    one on a tie. *)
Definition rounded_to_tenth (x r : Q) : Prop :=
  (exists k : Z, r == inject_Z k / 10)%Q
  /\ (x - (1 # 20) < r)%Q /\ (r <= x + (1 # 20))%Q.



(** ** Runs on the heap *)

(** [m] runs from [h] without going wrong, to a result and a heap that
    satisfy [Q]. *)
Definition wp {A : Type} (m : M A) (h : heap) (Q : A -> heap -> Prop) : Prop :=
  exists a h', m h = Some (a, h') /\ Q a h'.

(** ** Concrete inputs *)

(** A task literal with the fields the engine reads. *)
Definition a_task (id : string) (estimatedMinutes difficulty priority : Z)
    (status : task_status) (sortOrder : Z) : Task.t :=
  Task.mk id None "p"%string id None estimatedMinutes None difficulty priority
    status false sortOrder 0.

Definition a_config (hours : Q) (blockDuration breakDuration : Z)
    : ScheduleConfig.t :=
  ScheduleConfig.mk "09:00"%string hours blockDuration breakDuration None.

Definition a_feedback (r : option difficulty_rating) (d : Z)
    : FeedbackWithDifficulty.t :=
  FeedbackWithDifficulty.mk r d None 0.

Definition a_plan (date : string) (hours energy : option Z) (eod : bool)
    : DailyPlanSummary.t :=
  DailyPlanSummary.mk date hours energy eod.

Definition a_profile (idealDifficulty confidence : Q) : CalibrationProfile.t :=
  CalibrationProfile.mk 5 idealDifficulty confidence 17 ∅ 0 0 0.

(** A host that reads a date as a count of days, in UTC. *)
Definition day_count_host : Host := {|
  Date_getDay := fun s => (default 0 (Number s) + 4) mod 7;
  Date_getTime := fun s => default 0 (Number s) * 86400000;
  today_getDay := 1
|}.

(** Five active tasks and a completed one, for a day of eight hours;
    task "e" fits no block. *)
Definition five_tasks : list Task.t :=
  [ a_task "a" 60 5 3 pending 0;
    a_task "b" 60 7 3 scheduled 1;
    a_task "c" 60 2 5 pending 2;
    a_task "d" 120 9 1 pending 3;
    a_task "e" 200 3 5 pending 4;
    a_task "f" 15 1 5 completed 5 ].

Definition five_tasks_blocks : list ScheduledBlock.t :=
  [ ScheduledBlock.mk 1 "09:00" "11:00" deep_work
      [ ScheduledTask.mk (a_task "c" 60 2 5 pending 2) 0;
        ScheduledTask.mk (a_task "a" 60 5 3 pending 0) 1 ] 120;
    ScheduledBlock.mk 2 "11:15" "13:15" deep_work
      [ ScheduledTask.mk (a_task "b" 60 7 3 scheduled 1) 0 ] 60;
    ScheduledBlock.mk 3 "13:30" "15:30" shallow_work
      [ ScheduledTask.mk (a_task "d" 120 9 1 pending 3) 0 ] 120 ].

(** Twelve tasks of an hour each. *)
Definition twelve_tasks : list Task.t :=
  List.map (fun i : nat => a_task (pretty i) 60 5 3 pending (Z.of_nat i))
    (seq 0 12).

(** The scenario of the spec: ten just-right entries. *)
Definition ten_entries : list FeedbackWithDifficulty.t :=
  List.map (a_feedback (Some just_right)) [3; 4; 4; 5; 5; 5; 6; 6; 7; 8].


(** A heap that holds the five tasks at 1, three feedback entries at 2
    and two daily plans at 3. *)
Definition a_heap : heap :=
  <[1%positive := inj <$> five_tasks]>
    (<[2%positive := inj <$> [a_feedback (Some just_right) 4;
                              a_feedback (Some too_easy) 2;
                              a_feedback (Some just_right) 6]]>
       (<[3%positive := inj <$> [a_plan "19700" (Some 6) (Some 4) true;
                                 a_plan "19701" (Some 4) None true]]> ∅)).

(** * Runs of the block loop *)

(** [emits bd br eb i rem t new]: what the loop of lines 78-138 pushes
    onto [blocks] from iteration [i] on, with the pool [rem] and the
    cursor [t], when it returns. *)
Inductive emits (bd br : Z) (eb : jsnum)
    : Z -> list Scored.t -> option Z -> list ScheduledBlock.t -> Prop :=
  | emits_done (i : Z) (rem : list Scored.t) (t : option Z) :
      js_lt i eb && (0 <? Z.of_nat (length rem)) = false ->
      emits bd br eb i rem t []
  | emits_none (i : Z) (rem : list Scored.t) (t : option Z) :
      js_lt i eb && (0 <? Z.of_nat (length rem)) = true ->
      Forall (fun c => bd < est c) rem ->
      emits bd br eb i rem t []
  | emits_block (i : Z) (rem : list Scored.t) (t : option Z)
      (sel : list Scored.t) (filled : Z) (new : list ScheduledBlock.t) :
      js_lt i eb && (0 <? Z.of_nat (length rem)) = true ->
      select_tasks bd
        (if js_is_pred i eb then array_sort by_difficulty rem else rem) [] 0
      = (sel, filled) ->
      sel <> [] ->
      emits bd br eb (i + 1) (remove_selected sel rem)
        (advance (advance t bd) br) new ->
      emits bd br eb i rem t
        (ScheduledBlock.mk (i + 1) (formatTime t) (formatTime (advance t bd))
           (if js_is_pred i eb then shallow_work else deep_work)
           (to_blockTasks (array_sort by_difficulty sel)) filled
         :: new).

(** The tasks of a schedule, block after block. *)
Definition scheduled_tasks (blocks : list ScheduledBlock.t) : list Task.t :=
  concat (List.map (fun b => List.map ScheduledTask.task
                                (ScheduledBlock.tasks b)) blocks).

(** The [k]-th block of the schedule (from 0) starts [k] slots of a
    block and a break after [start], the minute the day starts at, and
    lasts one block. *)
Definition on_the_clock (start : Z) (config : ScheduleConfig.t)
    (blocks : list ScheduledBlock.t) : Prop :=
  let bd := ScheduleConfig.blockDurationMinutes config in
  let br := ScheduleConfig.breakDurationMinutes config in
  forall (k : nat) (b : ScheduledBlock.t),
    blocks !! k = Some b ->
    ScheduledBlock.startTime b
    = formatTime (Some (start + Z.of_nat k * (bd + br)))
    /\ ScheduledBlock.endTime b
       = formatTime (Some (start + Z.of_nat k * (bd + br) + bd)).

(** The active tasks of the input (line 65). *)
Definition active_tasks (pendingTasks : list Task.t) : list Task.t :=
  List.filter is_active pendingTasks.

(** The task fits a block of [bd] minutes when alone in it. *)
Definition fits (bd : Z) (task : Task.t) : Prop :=
  Task.estimatedMinutes task <= bd.

(** Every deep-work block holds a task that scores at least as high as
    any active task that fits a block and whose id the blocks before it
    do not hold. *)
Definition best_first (pendingTasks : list Task.t) (config : ScheduleConfig.t)
    (blocks : list ScheduledBlock.t) : Prop :=
  let score := fun task =>
    calculateTaskScore task (ScheduleConfig.calibration config) in
  forall (k : nat) (b : ScheduledBlock.t) (x : Task.t),
    blocks !! k = Some b ->
    ScheduledBlock.blockType b = deep_work ->
    In x (active_tasks pendingTasks) ->
    fits (ScheduleConfig.blockDurationMinutes config) x ->
    ~ In (Task.id x) (List.map Task.id (scheduled_tasks (take k blocks))) ->
    exists y : Task.t,
      In y (List.map ScheduledTask.task (ScheduledBlock.tasks b))
      /\ (score x <= score y)%R.

(** The shallow-work block holds a task that is at most as difficult as
    any active task that fits a block and whose id the blocks before it
    do not hold. *)
Definition easiest_last (pendingTasks : list Task.t)
    (config : ScheduleConfig.t) (blocks : list ScheduledBlock.t) : Prop :=
  forall (k : nat) (b : ScheduledBlock.t) (x : Task.t),
    blocks !! k = Some b ->
    ScheduledBlock.blockType b = shallow_work ->
    In x (active_tasks pendingTasks) ->
    fits (ScheduleConfig.blockDurationMinutes config) x ->
    ~ In (Task.id x) (List.map Task.id (scheduled_tasks (take k blocks))) ->
    exists y : Task.t,
      In y (List.map ScheduledTask.task (ScheduledBlock.tasks b))
      /\ Task.difficulty y <= Task.difficulty x.

(** A block below 80% of its length leaves no active task behind that
    fits into the rest of it: the id of such a task is in the block or in
    an earlier one. *)
Definition filled_up (pendingTasks : list Task.t)
    (config : ScheduleConfig.t) (blocks : list ScheduledBlock.t) : Prop :=
  let bd := ScheduleConfig.blockDurationMinutes config in
  forall (k : nat) (b : ScheduledBlock.t) (x : Task.t),
    blocks !! k = Some b ->
    (inject_Z (ScheduledBlock.totalMinutes b) < inject_Z bd * 0.8)%Q ->
    In x (active_tasks pendingTasks) ->
    ScheduledBlock.totalMinutes b + Task.estimatedMinutes x <= bd ->
    In (Task.id x)
      (List.map Task.id (scheduled_tasks (take (S k) blocks))).

(** Four tasks that each fit a block of two hours. *)
Definition four_tasks : list Task.t := take 4 five_tasks.

(** The presets of the block length. *)
Definition is_preset (minutes : Z) : Prop :=
  minutes = 60 \/ minutes = 90 \/ minutes = 120.

Section CalibrationSpecs.
Context `{Host}.

(** The plans that count for the energy of weekday [day]: those with a
    rating, a date, and that weekday. *)
Definition rated_on (day : Z) (dailyPlanData : list DailyPlanSummary.t)
    : list DailyPlanSummary.t :=
  List.filter
    (fun plan =>
       truthy (DailyPlanSummary.energyRating plan)
       && negb (String.eqb (DailyPlanSummary.date plan) "")
       && (Date_getDay (DailyPlanSummary.date plan) =? day))
    dailyPlanData.

(** The mean rating of a group of plans, to one decimal. *)
Definition mean_energy (group : list DailyPlanSummary.t) : Q :=
  round1
    (inject_Z
       (sum_by (fun plan => default 0 (DailyPlanSummary.energyRating plan))
          group)
     / inject_Z (Z.of_nat (length group))).

(** The plans that carry a number of hours. *)
Definition with_hours (dailyPlanData : list DailyPlanSummary.t)
    : list DailyPlanSummary.t :=
  List.filter (fun plan => truthy (DailyPlanSummary.hoursRequested plan))
    dailyPlanData.

(** The plans with a completed review. *)
Definition reviewed (dailyPlanData : list DailyPlanSummary.t)
    : list DailyPlanSummary.t :=
  List.filter DailyPlanSummary.eodReviewCompleted dailyPlanData.

End CalibrationSpecs.

(** * The callers of the engine

    The tools of the bot (generate_plan, start_block, eod_review in
    executeToolCall) and the plan route.  What the data base returns is
    an argument; its writes are taken to succeed. *)

(** [{ error: message }] or a result. *)
Inductive tool_result (A : Type) : Type :=
  | error (message : string)
  | success (a : A).
Arguments error {A} message.
Arguments success {A} a.

Module PlanTask.
Record t : Type := mk {
  number : Z;
  title : string;
  estimatedMinutes : Z;
  difficulty : Z;
  id : string
}.
End PlanTask.

Module PlanBlock.
Record t : Type := mk {
  blockNumber : Z;
  startTime : string;
  endTime : string;
  blockType : block_type;
  tasks : list PlanTask.t
}.
End PlanBlock.

Module GeneratedPlan.
Record t : Type := mk {
  _plan : list ScheduledBlock.t;
  totalBlocks : Z;
  totalTasks : Z;
  blockDurationUsed : Z
}.
End GeneratedPlan.

Module EodReview.
Record t : Type := mk {
  completedTasks : Z;
  totalTasks : Z;
  streak : Z
}.
End EodReview.

(** [x || d] on a number that may be missing. *)
Definition or_default (x : option Z) (d : Z) : Z :=
  if truthy x then default d x else d.

(** [block.tasks.map((t, i) => ({ number: i + 1, ... }))] *)
Definition numbered_tasks (tasks : list ScheduledTask.t) : list PlanTask.t :=
  imap (fun i t =>
          let task := ScheduledTask.task t in
          PlanTask.mk (Z.of_nat i + 1) (Task.title task)
            (Task.estimatedMinutes task) (Task.difficulty task)
            (Task.id task))
    tasks.

(** executeToolCall, case "start_block", for a whole block number.  An
    array is truthy also when empty; the last error stands for an index
    that reads [undefined], which the bounds test excludes. *)
Definition start_block (currentPlan : option (list ScheduledBlock.t))
    (blockNum : Z) : tool_result PlanBlock.t :=
  match currentPlan with
  | None => error "No plan loaded. Generate a plan first."
  | Some currentPlan =>
      let blockIdx := blockNum - 1 in
      if (blockIdx <? 0) || (Z.of_nat (length currentPlan) <=? blockIdx) then
        error ("Invalid block number. Plan has "
               ++ pretty (Z.of_nat (length currentPlan)) ++ " blocks.")
      else
        match currentPlan !! Z.to_nat blockIdx with
        | Some block =>
            success
              (PlanBlock.mk (ScheduledBlock.blockNumber block)
                 (ScheduledBlock.startTime block)
                 (ScheduledBlock.endTime block)
                 (ScheduledBlock.blockType block)
                 (numbered_tasks (ScheduledBlock.tasks block)))
        | None => error "Failed to execute start_block"
        end
  end.

Section Callers.
Context `{Host}.

(** executeToolCall, case "generate_plan", and the plan route: the
    profile counts only
    with a positive confidence; [None] for [history] is a query that
    throws, which the [catch] swallows. *)
Definition load_calibration
    (history : option (list FeedbackWithDifficulty.t
                       * list DailyPlanSummary.t))
    : option CalibrationProfile.t :=
  match history with
  | Some (feedback, plans) =>
      let profile := computeCalibrationProfile feedback plans in
      if Qltb 0 (CalibrationProfile.confidence profile)
      then Some profile else None
  | None => None
  end.

(** executeToolCall, case "generate_plan", from the tasks, the settings of
    the user ([settings?.breakDuration]) and of the projects (the mode and
    the custom length), the history and the start time read off the clock.
    [None] is a loop out of fuel. *)
Definition generate_plan (fuel : nat) (pending : list Task.t) (hours : Q)
    (breakDuration : option Z)
    (blockDurationMode : string) (customBlockDuration : Z)
    (history : option (list FeedbackWithDifficulty.t
                       * list DailyPlanSummary.t))
    (startTime : string) : option (tool_result GeneratedPlan.t) :=
  if (Z.of_nat (length pending) =? 0) then
    Some (error "No pending tasks. Add tasks first.")
  else
    let breakDuration := or_default breakDuration 15 in
    let calibration := load_calibration history in
    let blockDuration :=
      resolveBlockDuration blockDurationMode customBlockDuration
        calibration pending in
    match generateDailySchedule fuel pending
            (ScheduleConfig.mk startTime hours blockDuration breakDuration
               calibration) with
    | Some blocks =>
        Some (success
          (GeneratedPlan.mk blocks
             (Z.of_nat (length blocks))
             (sum_by (fun b => Z.of_nat (length (ScheduledBlock.tasks b)))
                blocks)
             blockDuration))
    | None => None
    end.

(** executeToolCall, case "eod_review": the counts over the plan of the
    session and the streak of the profile. *)
Definition eod_review (currentPlan : option (list ScheduledBlock.t))
    (history : option (list FeedbackWithDifficulty.t
                       * list DailyPlanSummary.t)) : EodReview.t :=
  let counts :=
    match currentPlan with
    | Some currentPlan =>
        let totalCount :=
          fold_left
            (fun totalCount block =>
               totalCount + Z.of_nat (length (ScheduledBlock.tasks block)))
            currentPlan 0 in
        let remainingTasks :=
          sum_by (fun b => Z.of_nat (length (ScheduledBlock.tasks b)))
            currentPlan in
        (if remainingTasks <? totalCount
         then totalCount - remainingTasks else 0,
         totalCount)
    | None => (0, 0)
    end in
  let streak :=
    match history with
    | Some (feedback, plans) =>
        CalibrationProfile.currentStreak
          (computeCalibrationProfile feedback plans)
    | None => 0
    end in
  EodReview.mk (fst counts) (snd counts) streak.

End Callers.

(** The plan route, POST: the hours of the day from the body of the
    request.  A missing or empty [wrapUpBy] is falsy, as are missing hours
    and 0 hours; [None] is [NaN]. *)
Definition hoursRequested_of (startTime : string) (wrapUpBy : option string)
    (hours : option Q) : option Q :=
  let from_hours :=
    match hours with
    | Some hours => if Qeq_bool hours 0 then 6%Q else hours
    | None => 6%Q
    end in
  match wrapUpBy with
  | Some wrapUpBy =>
      if String.eqb wrapUpBy "" then Some from_hours
      else
        match parseTime startTime, parseTime wrapUpBy with
        | Some startMinutes, Some endMinutes =>
            let totalMinutes :=
              if startMinutes <? endMinutes
              then endMinutes - startMinutes
              else (24 * 60 - startMinutes) + endMinutes in
            Some (Qmax 1 (inject_Z totalMinutes / 60))
        | _, _ => None
        end
  | None => Some from_hours
  end.

(** Two reviewed plans, one with an energy rating. *)
Definition two_plans : list DailyPlanSummary.t :=
  [ a_plan "19700" (Some 6) (Some 4) true;
    a_plan "19701" (Some 4) None true ].

(** The plan pages: [formatTimeLabel].  [None] is the
    [TypeError] of [m.toString()] when the text has no colon; a part that
    is not a number prints as 12 for the hour and as NaN for the
    minutes. *)
Definition formatTimeLabel (time : string) : option string :=
  match List.map Number (split_colon EmptyString time) with
  | h :: m :: _ =>
      let ampm : string :=
        match h with
        | Some h => if 12 <=? h then "PM" else "AM"
        | None => "AM"
        end in
      let h12 : string :=
        match h with
        | Some h => if Z.rem h 12 =? 0 then "12" else pretty (Z.rem h 12)
        | None => "12"
        end in
      let minutes : string :=
        match m with
        | Some m => pad2 m
        | None => "NaN"
        end in
      Some (h12 ++ ":" ++ minutes ++ " " ++ ampm)%string
  | _ => None
  end.

(** The label of [h] hours and [m] minutes on the 12-hour clock. *)
Definition clock_label (h m : Z) : string :=
  let h12 := if h mod 12 =? 0 then 12 else h mod 12 in
  let ampm : string := if h <? 12 then "AM" else "PM" in
  (pretty h12 ++ ":" ++ pad2 m ++ " " ++ ampm)%string.

(** * Properties *)

(** ** Doubles *)

Lemma pow2_pos (e : Z) : (0 < 2 ^ e)%Q.
Proof. now apply Qpower_0_lt. Qed.

Lemma pow2_plus (a b : Z) : (2 ^ (a + b) == 2 ^ a * 2 ^ b)%Q.
Proof. now apply Qpower_plus. Qed.

Lemma pow2_le (a b : Z) : a <= b -> (2 ^ a <= 2 ^ b)%Q.
Proof. intros Hab. now apply Qpower_le_compat_l. Qed.

Lemma pow2_succ (a : Z) : (2 ^ (a + 1) == 2 * 2 ^ a)%Q.
Proof. rewrite pow2_plus. change (2 ^ 1)%Q with 2%Q. ring. Qed.

Lemma pow2_inject_Z (a : Z) : 0 <= a -> (inject_Z (2 ^ a) == 2 ^ a)%Q.
Proof. intros Ha. now rewrite Zpower_Qpower. Qed.

(** *** Rounding to an integer *)

Lemma round_half_even_near (q : Q) :
  (q - (1 # 2) <= inject_Z (round_half_even q) <= q + (1 # 2))%Q.
Proof.
  unfold round_half_even. cbv zeta.
  pose proof (Qfloor_le q) as Hlo. pose proof (Qlt_floor q) as Hhi.
  rewrite inject_Z_plus in Hhi. change (inject_Z 1) with 1%Q in Hhi.
  destruct (Qcompare_spec (q - inject_Z (Qfloor q)) (1 # 2)) as [E|E|E].
  - destruct (Z.even _); rewrite ?inject_Z_plus;
      change (inject_Z 1) with 1%Q; lra.
  - lra.
  - rewrite inject_Z_plus. change (inject_Z 1) with 1%Q. lra.
Qed.

Lemma round_half_even_mono (p q : Q) :
  (p <= q)%Q -> round_half_even p <= round_half_even q.
Proof.
  intros Hpq.
  pose proof (Qfloor_resp_le _ _ Hpq) as Hf.
  destruct (Z.eq_dec (Qfloor p) (Qfloor q)) as [E|E].
  - unfold round_half_even. cbv zeta. rewrite E.
    destruct (Qcompare_spec (p - inject_Z (Qfloor q)) (1 # 2)) as [Ep|Ep|Ep];
      destruct (Qcompare_spec (q - inject_Z (Qfloor q)) (1 # 2)) as [Eq|Eq|Eq];
      try destruct (Z.even _); try lia; lra.
  - assert (Hp : round_half_even p <= Qfloor p + 1).
    { unfold round_half_even. cbv zeta.
      destruct (_ ?= _)%Q; try destruct (Z.even _); lia. }
    assert (Hq : Qfloor q <= round_half_even q).
    { unfold round_half_even. cbv zeta.
      destruct (_ ?= _)%Q; try destruct (Z.even _); lia. }
    lia.
Qed.

Lemma round_half_even_inject_Z (n : Z) : round_half_even (inject_Z n) = n.
Proof.
  unfold round_half_even. cbv zeta. rewrite Qfloor_Z.
  destruct (Qcompare_spec (inject_Z n - inject_Z n) (1 # 2)) as [E|E|E];
    [lra | reflexivity | lra].
Qed.

Lemma round_half_even_comp (p q : Q) :
  (p == q)%Q -> round_half_even p = round_half_even q.
Proof.
  intros E. apply Z.le_antisymm; apply round_half_even_mono; lra.
Qed.

(** *** The exponent *)

Lemma ilog2_spec (q : Q) :
  (0 < q)%Q -> (2 ^ ilog2 q <= q < 2 ^ (ilog2 q + 1))%Q.
Proof.
  intros Hq. unfold ilog2. cbv zeta.
  destruct q as [n d]. simpl Qnum. simpl Qden.
  assert (Hn : 0 < n) by (unfold Qlt in Hq; simpl in Hq; lia).
  pose proof (Z.log2_spec n Hn) as [Hn1 Hn2].
  pose proof (Z.log2_spec (Z.pos d) eq_refl) as [Hd1 Hd2].
  pose proof (Z.log2_nonneg n) as Ha. pose proof (Z.log2_nonneg (Z.pos d)) as Hb.
  set (a := Z.log2 n) in *. set (b := Z.log2 (Z.pos d)) in *.
  unfold Z.succ in Hn2, Hd2.
  rewrite Zle_Qle, pow2_inject_Z in Hn1, Hd1 by lia.
  rewrite Zlt_Qlt, pow2_inject_Z, pow2_succ in Hn2, Hd2 by lia.
  assert (Hnd : (n # d == inject_Z n / inject_Z (Z.pos d))%Q)
    by (now rewrite Qmake_Qdiv).
  assert (Hdpos : (0 < inject_Z (Z.pos d))%Q)
    by (change 0%Q with (inject_Z 0); now rewrite <- Zlt_Qlt).
  assert (Hk : (2 ^ a == 2 ^ (a - b) * 2 ^ b)%Q).
  { rewrite <- pow2_plus. now replace (a - b + b) with a by lia. }
  pose proof (pow2_pos (a - b)) as Hkpos. pose proof (pow2_pos b) as Hbpos.
  set (x := inject_Z n) in *. set (y := inject_Z (Z.pos d)) in *.
  set (P := (2 ^ (a - b))%Q) in *. set (B := (2 ^ b)%Q) in *.
  set (A := (2 ^ a)%Q) in *.
  assert (Hup : (n # d < 2 * P)%Q).
  { rewrite Hnd. apply Qlt_shift_div_r; [assumption|]. nra. }
  assert (Hdown : (P < 2 * (n # d))%Q).
  { rewrite Hnd. 
    assert (P * y < 2 * x)%Q by nra.
    assert (E : (2 * (x / y) == 2 * x / y)%Q) by (field; lra).
    rewrite E. apply Qlt_shift_div_l; assumption. }
  destruct (Qle_bool P (n # d)) eqn:E.
  - apply Qle_bool_iff in E. split; [exact E|].
    fold P. rewrite pow2_succ. fold P. exact Hup.
  - assert (Hlt : (n # d < P)%Q).
    { apply Qnot_le_lt. intros Hle. apply Qle_bool_iff in Hle. congruence. }
    replace (a - b - 1 + 1) with (a - b) by lia. fold P.
    split; [|exact Hlt].
    assert (E2 : (P == 2 * 2 ^ (a - b - 1))%Q).
    { unfold P. rewrite <- pow2_succ. now replace (a - b - 1 + 1) with (a - b) by lia. }
    lra.
Qed.

Lemma ilog2_unique (q : Q) (k : Z) :
  (2 ^ k <= q < 2 ^ (k + 1))%Q -> ilog2 q = k.
Proof.
  intros [Hlo Hhi].
  assert (Hq : (0 < q)%Q) by (pose proof (pow2_pos k); lra).
  destruct (ilog2_spec q Hq) as [Hlo' Hhi'].
  destruct (Z.lt_trichotomy (ilog2 q) k) as [Hlt|[Heq|Hgt]]; [|exact Heq|].
  - pose proof (pow2_le (ilog2 q + 1) k ltac:(lia)). lra.
  - pose proof (pow2_le (k + 1) (ilog2 q) ltac:(lia)). lra.
Qed.

Lemma ilog2_mono (p q : Q) :
  (0 < p)%Q -> (p <= q)%Q -> ilog2 p <= ilog2 q.
Proof.
  intros Hp Hpq.
  destruct (ilog2_spec p Hp) as [Hlo _].
  destruct (ilog2_spec q ltac:(lra)) as [_ Hhi].
  destruct (Z_le_gt_dec (ilog2 p) (ilog2 q)) as [Hle|Hgt]; [exact Hle|].
  pose proof (pow2_le (ilog2 q + 1) (ilog2 p) ltac:(lia)). lra.
Qed.

(** *** Rounding to a double *)

Lemma round53_pos_nonneg (q : Q) : (0 < q)%Q -> (0 <= round53_pos q)%Q.
Proof.
  intros Hq. unfold round53_pos. cbv zeta.
  set (e := Z.max _ _). pose proof (pow2_pos e) as He.
  assert (H0 : 0 <= round_half_even (q / 2 ^ e)).
  { rewrite <- (round_half_even_inject_Z 0).
    apply round_half_even_mono. change (inject_Z 0) with 0%Q.
    apply Qle_shift_div_l; [assumption | lra]. }
  rewrite Zle_Qle in H0. change (inject_Z 0) with 0%Q in H0. nra.
Qed.

Lemma round53_pos_mono (p q : Q) :
  (0 < p)%Q -> (p <= q)%Q -> (round53_pos p <= round53_pos q)%Q.
Proof.
  intros Hp Hpq.
  pose proof (ilog2_mono p q Hp Hpq) as Hlog.
  destruct (ilog2_spec p Hp) as [_ Hphi].
  destruct (ilog2_spec q ltac:(lra)) as [Hqlo _].
  unfold round53_pos. cbv zeta.
  set (ep := Z.max (-1074) (ilog2 p - 52)).
  set (eq := Z.max (-1074) (ilog2 q - 52)).
  pose proof (pow2_pos ep) as Hep. pose proof (pow2_pos eq) as Heq.
  destruct (Z.eq_dec ep eq) as [E|E].
  - rewrite E.
    assert (Hm : round_half_even (p / 2 ^ eq) <= round_half_even (q / 2 ^ eq)).
    { apply round_half_even_mono.
      apply Qmult_le_compat_r; [exact Hpq|].
      apply Qlt_le_weak, Qinv_lt_0_compat, Heq. }
    rewrite Zle_Qle in Hm. nra.
  - assert (Hlt : ep + 1 <= eq) by lia.
    assert (Hunclipped : eq = ilog2 q - 52) by lia.
    (* the rounded [p] stays below the next power of two *)
    assert (Hp53 : round_half_even (p / 2 ^ ep) <= 2 ^ 53).
    { rewrite <- (round_half_even_inject_Z (2 ^ 53)).
      apply round_half_even_mono.
      apply Qle_shift_div_r; [assumption|].
      rewrite pow2_inject_Z by lia. rewrite <- pow2_plus.
      pose proof (pow2_le (ilog2 p + 1) (53 + ep) ltac:(lia)). lra. }
    assert (Hq52 : 2 ^ 52 <= round_half_even (q / 2 ^ eq)).
    { rewrite <- (round_half_even_inject_Z (2 ^ 52)).
      apply round_half_even_mono.
      apply Qle_shift_div_l; [assumption|].
      rewrite pow2_inject_Z by lia. rewrite <- pow2_plus.
      replace (52 + eq) with (ilog2 q) by lia. exact Hqlo. }
    rewrite Zle_Qle, pow2_inject_Z in Hp53, Hq52 by lia.
    pose proof (pow2_le (53 + ep) (52 + eq) ltac:(lia)) as Hpow.
    rewrite !pow2_plus in Hpow.
    pose proof (pow2_pos 52). pose proof (pow2_pos 53).
    nra.
Qed.

Lemma round53_mono (p q : Q) : (p <= q)%Q -> (round53 p <= round53 q)%Q.
Proof.
  intros Hpq. unfold round53.
  destruct (Qcompare_spec p 0) as [Ep|Ep|Ep];
    destruct (Qcompare_spec q 0) as [Eq|Eq|Eq]; try lra.
  - now apply round53_pos_nonneg.
  - pose proof (round53_pos_nonneg (- p) ltac:(lra)). lra.
  - pose proof (round53_pos_mono (- q) (- p) ltac:(lra) ltac:(lra)). lra.
  - pose proof (round53_pos_nonneg (- p) ltac:(lra)).
    pose proof (round53_pos_nonneg q ltac:(lra)). lra.
  - now apply round53_pos_mono.
Qed.


(** The relative error of a rounding is at most 2^-53 (no underflow from
    1 on). *)
Lemma round53_near (q : Q) :
  (1 <= q)%Q -> (Qabs (round53 q - q) <= q / 2 ^ 53)%Q.
Proof.
  intros Hq. unfold round53.
  destruct (Qcompare_spec q 0) as [E|E|E]; try lra.
  unfold round53_pos. cbv zeta.
  destruct (ilog2_spec q E) as [Hlo _].
  assert (Hl : 0 <= ilog2 q).
  { destruct (Z_le_gt_dec 0 (ilog2 q)) as [H|H]; [exact H|].
    destruct (ilog2_spec q E) as [_ Hhi].
    pose proof (pow2_le (ilog2 q + 1) 0 ltac:(lia)) as H1.
    change (2 ^ 0)%Q with 1%Q in H1. lra. }
  replace (Z.max (-1074) (ilog2 q - 52)) with (ilog2 q - 52) by lia.
  set (e := ilog2 q - 52).
  pose proof (pow2_pos e) as He.
  pose proof (round_half_even_near (q / 2 ^ e)) as [Hn1 Hn2].
  assert (Hqe : (q / 2 ^ e * 2 ^ e == q)%Q) by (field; lra).
  assert (Hpow : (2 ^ ilog2 q == 2 ^ e * 2 ^ 52)%Q).
  { rewrite <- pow2_plus. unfold e.
    now replace (ilog2 q - 52 + 52) with (ilog2 q) by lia. }
  assert (H53 : (2 ^ 53 == 2 * 2 ^ 52)%Q) by reflexivity.
  assert (Hbound : (2 ^ e / 2 <= q / 2 ^ 53)%Q).
  { apply Qle_shift_div_l; [apply pow2_pos|].
    rewrite H53.
    setoid_replace (2 ^ e / 2 * (2 * 2 ^ 52))%Q with (2 ^ e * 2 ^ 52)%Q
      using relation Qeq by field.
    now rewrite <- Hpow. }
  apply Qabs_Qle_condition.
  clear Hpow H53 Hlo.
  remember (q / 2 ^ 53)%Q as bound eqn:Eb.
  remember (q / 2 ^ e)%Q as x eqn:Ex.
  remember (inject_Z (round_half_even x)) as m eqn:Em.
  remember (2 ^ e)%Q as u eqn:Eu.
  clear Eb Ex Em Eu.
  assert (Hhalf : ((1 # 2) * u <= bound)%Q).
  { setoid_replace ((1 # 2) * u)%Q with (u / 2)%Q using relation Qeq
      by field.
    exact Hbound. }
  clear Hbound.
  assert (Hup : ((m - x) * u <= (1 # 2) * u)%Q)
    by (apply Qmult_le_compat_r; lra).
  assert (Hdown : ((- (1 # 2)) * u <= (m - x) * u)%Q)
    by (apply Qmult_le_compat_r; lra).
  assert (Hdiff : (m * u - q == (m - x) * u)%Q) by (rewrite <- Hqe; ring).
  rewrite Hdiff. clear Hqe Hdiff Hn1 Hn2.
  generalize dependent ((m - x) * u)%Q. intros d Hup Hdown.
  split; lra.
Qed.

(** *** Numbers *)

Lemma round53_MAX_VALUE :
  (round53 MAX_VALUE == MAX_VALUE)%Q /\ (round53 (- MAX_VALUE) == - MAX_VALUE)%Q.
Proof. split; apply Qeq_bool_eq; vm_compute; reflexivity. Qed.

(** A rational within the range of the doubles rounds to a double. *)
Lemma to_number_Num (q : Q) :
  (Qabs q <= MAX_VALUE)%Q ->
  to_number q = Num (round53 q) /\ (Qabs (round53 q) <= MAX_VALUE)%Q.
Proof.
  intros Hq. apply Qabs_Qle_condition in Hq as [Hlo Hhi].
  destruct round53_MAX_VALUE as [Emax Emin].
  assert (Hr : (Qabs (round53 q) <= MAX_VALUE)%Q).
  { apply Qabs_Qle_condition. split.
    - rewrite <- Emin. now apply round53_mono.
    - rewrite <- Emax. now apply round53_mono. }
  split; [|exact Hr]. unfold to_number. cbv zeta.
  apply Qle_bool_iff in Hr. now rewrite Hr.
Qed.

Lemma to_number_inv (q r : Q) :
  to_number q = Num r -> (Qabs r <= MAX_VALUE)%Q.
Proof.
  unfold to_number. cbv zeta.
  destruct (Qle_bool _ _) eqn:E; [|discriminate].
  intros [= <-]. now apply Qle_bool_iff.
Qed.

Lemma round53_1 : (round53 1 == 1)%Q /\ (round53 (- (1)) == - (1))%Q.
Proof. split; apply Qeq_bool_eq; vm_compute; reflexivity. Qed.

(** An integer other than 0 rounds to 1 at least, in absolute value. *)
Lemma to_number_inject_Z (n : Z) :
  n <> 0 ->
  (exists s, to_number (inject_Z n) = Inf s)
  \/ exists r, to_number (inject_Z n) = Num r /\ (1 <= Qabs r)%Q.
Proof.
  intros Hn. unfold to_number. cbv zeta.
  destruct (Qle_bool _ _); [right|left; eauto].
  eexists. split; [reflexivity|].
  destruct round53_1 as [E1 E1'].
  destruct (Z_lt_le_dec n 0) as [Hneg|Hpos].
  - assert (H : (inject_Z n <= - (1))%Q).
    { change (- (1))%Q with (inject_Z (-1)). rewrite <- Zle_Qle. lia. }
    apply round53_mono in H. rewrite E1' in H.
    rewrite Qabs_neg by lra. lra.
  - assert (H : (1 <= inject_Z n)%Q).
    { change 1%Q with (inject_Z 1). rewrite <- Zle_Qle. lia. }
    apply round53_mono in H. rewrite E1 in H.
    rewrite Qabs_pos by lra. lra.
Qed.

(** *** The slots of a day *)

Lemma to_number_60 : exists c, to_number 60 = Num c /\ (c == 60)%Q.
Proof. eexists. split; [vm_compute; reflexivity | reflexivity]. Qed.

(** The double 0.1 *)
Lemma to_number_tenth :
  exists c, to_number 0.1 = Num c /\ (0 < c)%Q /\ (c <= 1)%Q.
Proof.
  eexists. split; [vm_compute; reflexivity|].
  split; reflexivity || (intros E; discriminate E).
Qed.

Lemma MAX_VALUE_integer :
  exists m : Z, (MAX_VALUE == inject_Z m)%Q /\ 0 < m.
Proof.
  exists ((2 ^ 53 - 1) * 2 ^ 971). split; [|reflexivity].
  unfold MAX_VALUE. rewrite inject_Z_mult, (pow2_inject_Z 971) by lia.
  reflexivity.
Qed.

Lemma Qabs_div_le (e r : Q) :
  (1 <= Qabs r)%Q -> (Qabs (e / r) <= Qabs e)%Q.
Proof.
  intros Hr. unfold Qdiv. rewrite Qabs_Qmult, Qabs_Qinv.
  pose proof (Qabs_nonneg e) as He.
  assert (Hinv : (/ Qabs r <= 1)%Q).
  { apply Qle_shift_inv_r; lra. }
  assert (Hinv0 : (0 <= / Qabs r)%Q).
  { apply Qlt_le_weak, Qinv_lt_0_compat. lra. }
  generalize dependent (/ Qabs r)%Q. intros i Hi Hi0.
  generalize dependent (Qabs e). intros a Ha. nra.
Qed.

(** What is left of the day after the buffer is a double or [NaN]. *)
Lemma sub_buffer (totalMinutes : number) (t : Q) :
  totalMinutes = Num t -> (Qabs t <= MAX_VALUE)%Q ->
  exists e, sub totalMinutes
              (Math_floor (mul totalMinutes (to_number 0.1))) = Num e.
Proof.
  intros -> Ht.
  destruct to_number_tenth as (c & -> & Hc0 & Hc1).
  destruct MAX_VALUE_integer as (m & Em & Hm).
  apply Qabs_Qle_condition in Ht as [Hlo Hhi].
  cbn [mul].
  destruct (to_number_Num (t * c)) as [-> Hb0].
  { apply Qabs_Qle_condition. split; nra. }
  cbn [Math_floor sub].
  set (b0 := round53 (t * c)) in *.
  assert (H0 : (round53 0 == 0)%Q) by reflexivity.
  destruct (to_number_Num (t - inject_Z (Qfloor b0))) as [-> _]; [|eauto].
  apply Qabs_Qle_condition in Hb0 as [Hb0lo Hb0hi].
  pose proof (Qfloor_le b0) as Hfl.
  destruct (Qlt_le_dec t 0) as [Hneg|Hpos].
  - assert (Hb : (b0 <= 0)%Q).
    { rewrite <- H0. apply round53_mono. nra. }
    assert (Hfm : - m <= Qfloor b0).
    { rewrite <- (Qfloor_Z (- m)). apply Qfloor_resp_le.
      rewrite inject_Z_opp, <- Em. exact Hb0lo. }
    rewrite Zle_Qle, inject_Z_opp, <- Em in Hfm.
    apply Qabs_Qle_condition. split; lra.
  - assert (Hb : (0 <= b0)%Q).
    { rewrite <- H0. apply round53_mono. nra. }
    assert (Hf0 : 0 <= Qfloor b0).
    { rewrite <- (Qfloor_Z 0). now apply Qfloor_resp_le. }
    rewrite Zle_Qle in Hf0. change (inject_Z 0) with 0%Q in Hf0.
    apply Qabs_Qle_condition. split; lra.
Qed.

Lemma sub_buffer_Inf (s : bool) :
  sub (Inf s) (Math_floor (mul (Inf s) (to_number 0.1))) = NotANumber.
Proof.
  destruct to_number_tenth as (c & -> & Hc0 & Hc1). cbn [mul].
  assert (E0 : Qeq_bool c 0 = false).
  { destruct (Qeq_bool c 0) eqn:E; [|reflexivity].
    apply Qeq_bool_iff in E. lra. }
  assert (Eneg : Qltb c 0 = false).
  { unfold Qltb. apply negb_false_iff, Qle_bool_iff. lra. }
  rewrite E0, Eneg, xorb_false_r. cbn [Math_floor sub].
  now rewrite eqb_reflx.
Qed.

Lemma div_by_integer (e : Q) (n : Z) :
  (Qabs e <= MAX_VALUE)%Q -> n <> 0 ->
  exists q, div (Num e) (to_number (inject_Z n)) = Num q.
Proof.
  intros He Hn.
  destruct (to_number_inject_Z n Hn) as [[s ->]|(r & -> & Hr)]; cbn [div];
    [eauto|].
  assert (E0 : Qeq_bool r 0 = false).
  { destruct (Qeq_bool r 0) eqn:E; [|reflexivity].
    apply Qeq_bool_iff in E. rewrite E in Hr. exfalso. now apply Hr. }
  rewrite E0.
  destruct (to_number_Num (e / r)) as [-> _]; [|eauto].
  eapply Qle_trans; [now apply Qabs_div_le | exact He].
Qed.

(** With a block and a break that do not add up to zero minutes the
    number of slots is not [Infinity]. *)
Lemma effectiveBlocks_finite (config : ScheduleConfig.t) :
  ScheduleConfig.blockDurationMinutes config
  + ScheduleConfig.breakDurationMinutes config <> 0 ->
  effectiveBlocks config = NaN
  \/ exists n, effectiveBlocks config = Finite n /\ 1 <= n.
Proof.
  intros Hne. unfold effectiveBlocks. cbv zeta.
  set (y := to_number (inject_Z _)).
  destruct to_number_60 as (c & -> & Ec).
  assert (Hnan : forall d, Math_max_1 (Math_floor (div NotANumber d)) = NaN)
    by (intros d; reflexivity).
  assert (Hinf : forall s,
            mul (Inf s) (Num c) = Inf s).
  { intros s. cbn [mul].
    destruct (Qeq_bool c 0) eqn:E0; [apply Qeq_bool_iff in E0; lra|].
    unfold Qltb.
    destruct (Qle_bool 0 c) eqn:E1; [now rewrite xorb_false_r|].
    exfalso. assert (H : (0 <= c)%Q) by lra.
    apply Qle_bool_iff in H. congruence. }
  assert (Hnum : forall t, (Qabs t <= MAX_VALUE)%Q ->
            let totalMinutes := Num t in
            Math_max_1
              (Math_floor
                 (div (sub totalMinutes
                         (Math_floor (mul totalMinutes (to_number 0.1)))) y))
            = NaN
            \/ exists n,
                 Math_max_1
                   (Math_floor
                      (div (sub totalMinutes
                              (Math_floor
                                 (mul totalMinutes (to_number 0.1)))) y))
                 = Finite n /\ 1 <= n).
  { intros t Ht totalMinutes.
    destruct (sub_buffer totalMinutes t eq_refl Ht) as [e Ee].
    rewrite Ee.
    assert (He : (Qabs e <= MAX_VALUE)%Q).
    { unfold totalMinutes in Ee.
      destruct to_number_tenth as (c1 & E1 & _).
      rewrite E1 in Ee. cbn [mul Math_floor] in Ee.
      destruct (to_number (t * c1)) as [b0| |] eqn:Eb;
        cbn [Math_floor sub] in Ee; try discriminate.
      now apply to_number_inv in Ee. }
    destruct (div_by_integer e _ He Hne) as [q Eq]. subst y. rewrite Eq.
    right. cbn [Math_floor Math_max_1]. eexists. split; [reflexivity | lia]. }
  destruct (to_number (ScheduleConfig.hoursRequested config))
    as [a|s|] eqn:Eh.
  - cbn [mul].
    destruct (to_number (a * c)) as [t|s|] eqn:Et.
    + apply Hnum. now apply to_number_inv in Et.
    + left. now rewrite sub_buffer_Inf.
    + left. reflexivity.
  - left. rewrite Hinf. now rewrite sub_buffer_Inf.
  - left. reflexivity.
Qed.

Lemma effectiveBlocks_not_zero (config : ScheduleConfig.t) (n : Z) :
  effectiveBlocks config = Finite n -> 1 <= n.
Proof.
  unfold effectiveBlocks. cbv zeta.
  destruct (Math_floor _) as [q|[]|]; cbn [Math_max_1]; intros [= <-]; lia.
Qed.

(** ** Sorting *)

Section ArraySortFacts.
Context {A : Type} (le : A -> A -> bool).

Lemma sort_insert_perm (x : A) (l : list A) :
  Permutation (sort_insert le x l) (x :: l).
Proof.
  induction l as [|y l IH]; simpl; [reflexivity|].
  destruct (le x y); [reflexivity|].
  rewrite IH. apply perm_swap.
Qed.

Lemma array_sort_perm (l : list A) : Permutation (array_sort le l) l.
Proof.
  induction l as [|x l IH]; simpl; [reflexivity|].
  rewrite sort_insert_perm. now constructor.
Qed.

Lemma array_sort_length (l : list A) : length (array_sort le l) = length l.
Proof. apply Permutation_length, array_sort_perm. Qed.

Lemma array_sort_nil_inv (l : list A) : array_sort le l = [] -> l = [].
Proof.
  intros E. apply Permutation_nil. rewrite <- E.
  apply array_sort_perm.
Qed.

Hypothesis le_total : forall a b, le a b = false -> le b a = true.
Hypothesis le_trans :
  forall a b c, le a b = true -> le b c = true -> le a c = true.

Lemma sort_insert_sorted (x : A) (l : list A) :
  StronglySorted (fun a b => le a b = true) l ->
  StronglySorted (fun a b => le a b = true) (sort_insert le x l).
Proof.
  induction 1 as [|y l Hs IH Hy]; simpl.
  - repeat constructor.
  - destruct (le x y) eqn:E.
    + constructor; [now constructor|].
      constructor; [exact E|].
      eapply Forall_impl; [exact Hy|].
      intros z Hz. now apply le_trans with y.
    + constructor; [exact IH|].
      rewrite (sort_insert_perm x l).
      constructor; [now apply le_total | exact Hy].
Qed.

Lemma array_sort_sorted (l : list A) :
  StronglySorted (fun a b => le a b = true) (array_sort le l).
Proof.
  induction l as [|x l IH]; simpl; [constructor|].
  now apply sort_insert_sorted.
Qed.
End ArraySortFacts.

(** ** Sums *)

Lemma sum_by_fold {A : Type} (f : A -> Z) (l : list A) (a : Z) :
  fold_left (fun sum x => sum + f x) l a = a + sum_by f l.
Proof.
  unfold sum_by. revert a.
  induction l as [|x l IH]; intros a; simpl; [lia|].
  rewrite (IH (a + f x)), (IH (0 + f x)). lia.
Qed.

Lemma sum_by_nil {A : Type} (f : A -> Z) : sum_by f [] = 0.
Proof. reflexivity. Qed.

Lemma sum_by_cons {A : Type} (f : A -> Z) (x : A) (l : list A) :
  sum_by f (x :: l) = f x + sum_by f l.
Proof. unfold sum_by at 1. simpl. rewrite sum_by_fold. lia. Qed.

Lemma sum_by_app {A : Type} (f : A -> Z) (l1 l2 : list A) :
  sum_by f (l1 ++ l2) = sum_by f l1 + sum_by f l2.
Proof.
  induction l1 as [|x l1 IH]; simpl; [rewrite sum_by_nil; lia|].
  rewrite !sum_by_cons, IH. lia.
Qed.

Lemma sum_by_perm {A : Type} (f : A -> Z) (l1 l2 : list A) :
  Permutation l1 l2 -> sum_by f l1 = sum_by f l2.
Proof.
  induction 1; rewrite ?sum_by_cons; lia.
Qed.

(** ** The greedy selection *)

Lemma select_tasks_spec (bd : Z) (cands sel : list Scored.t) (filled : Z)
    (sel' : list Scored.t) (filled' : Z) :
  select_tasks bd cands sel filled = (sel', filled') ->
  filled = sum_by est sel ->
  (sel = [] \/ filled <= bd) ->
  filled' = sum_by est sel'
  /\ (sel' = [] \/ filled' <= bd)
  /\ exists added, sel' = sel ++ added /\ sublist added cands.
Proof.
  revert sel filled.
  induction cands as [|c rest IH]; intros sel filled E Hsum Hle; simpl in E.
  - injection E as <- <-. repeat split; auto.
    exists []. split; [now rewrite app_nil_r | constructor].
  - fold (est c) in E.
    destruct (filled + est c <=? bd) eqn:Hfit.
    + apply Z.leb_le in Hfit.
      assert (Hsum' : filled + est c = sum_by est (sel ++ [c])).
      { rewrite sum_by_app, sum_by_cons, sum_by_nil. lia. }
      destruct (Qle_bool _ _).
      * injection E as <- <-. repeat split; auto.
        exists [c]. split; [reflexivity|].
        constructor. apply sublist_nil_l.
      * apply IH in E; auto.
        destruct E as (E1 & E2 & added & E3 & E4).
        repeat split; auto.
        exists (c :: added). split; [now rewrite E3, <- app_assoc|].
        now constructor.
    + apply IH in E; auto.
      destruct E as (E1 & E2 & added & E3 & E4).
      repeat split; auto.
      exists added. split; [assumption | now constructor].
Qed.

(** Nothing is selected exactly when no candidate fits an empty block. *)
Lemma select_tasks_none (bd : Z) (cands : list Scored.t) :
  Forall (fun c => bd < est c) cands ->
  select_tasks bd cands [] 0 = ([], 0).
Proof.
  induction 1 as [|c rest Hc _ IH]; simpl; [reflexivity|].
  fold (est c). destruct (0 + est c <=? bd) eqn:Hfit; [|exact IH].
  apply Z.leb_le in Hfit. lia.
Qed.

Lemma select_tasks_nil_inv (bd : Z) (cands : list Scored.t) (filled : Z) :
  select_tasks bd cands [] 0 = ([], filled) ->
  Forall (fun c => bd < est c) cands.
Proof.
  induction cands as [|c rest IH]; intros E; [constructor|].
  simpl in E. fold (est c) in E.
  destruct (0 + est c <=? bd) eqn:Hfit.
  - exfalso. destruct (Qle_bool _ _).
    + discriminate E.
    + apply select_tasks_spec in E; [|now rewrite sum_by_cons, sum_by_nil; lia|].
      * destruct E as (_ & _ & added & E & _). discriminate E.
      * right. apply Z.leb_le in Hfit. lia.
  - apply Z.leb_gt in Hfit. constructor; [lia | now apply IH].
Qed.

Lemma prefix_of_snoc {A : Type} (pre suf l : list A) (x : A) :
  l ++ [x] = pre ++ suf -> suf <> [] -> exists suf', l = pre ++ suf'.
Proof.
  intros E Hsuf.
  destruct suf as [|y suf _] using rev_ind; [contradiction|].
  rewrite app_assoc in E. apply app_inj_tail in E as [E _].
  now exists suf.
Qed.

(** The fill is below 80% of the block after every selected task but
    the last. *)
Lemma select_tasks_below_80 (bd : Z) (cands sel : list Scored.t)
    (filled : Z) (sel' : list Scored.t) (filled' : Z) :
  select_tasks bd cands sel filled = (sel', filled') ->
  filled = sum_by est sel ->
  (sel = [] \/ (inject_Z filled < inject_Z bd * 0.8)%Q) ->
  (forall pre suf, sel = pre ++ suf -> pre <> [] -> suf <> [] ->
     (inject_Z (sum_by est pre) < inject_Z bd * 0.8)%Q) ->
  forall pre suf, sel' = pre ++ suf -> pre <> [] -> suf <> [] ->
    (inject_Z (sum_by est pre) < inject_Z bd * 0.8)%Q.
Proof.
  revert sel filled.
  induction cands as [|c rest IH]; intros sel filled E Hsum Hlast Hpre;
    simpl in E.
  - injection E as <- <-. exact Hpre.
  - fold (est c) in E.
    assert (Hsnoc : forall pre suf,
              sel ++ [c] = pre ++ suf -> pre <> [] -> suf <> [] ->
              (inject_Z (sum_by est pre) < inject_Z bd * 0.8)%Q).
    { intros pre suf Heq Hp Hs.
      destruct (prefix_of_snoc pre suf sel c Heq Hs) as [suf' Hsel].
      destruct suf' as [|y suf'].
      - rewrite app_nil_r in Hsel. subst pre.
        destruct Hlast as [Hnil|Hlast]; [contradiction|].
        now rewrite <- Hsum.
      - eapply Hpre; [exact Hsel | exact Hp | discriminate]. }
    destruct (filled + est c <=? bd); [|now apply (IH sel filled)].
    destruct (Qle_bool _ _) eqn:Hfull.
    + injection E as <- <-. exact Hsnoc.
    + apply (IH (sel ++ [c]) (filled + est c)); auto.
      * rewrite sum_by_app, sum_by_cons, sum_by_nil. lia.
      * right. apply Qnot_le_lt. intros Hle.
        apply Qle_bool_iff in Hle. congruence.
Qed.

Lemma remove_selected_nil (remainingTasks : list Scored.t) :
  remove_selected [] remainingTasks = remainingTasks.
Proof.
  unfold remove_selected. simpl.
  induction remainingTasks as [|t l IH]; simpl; [reflexivity|].
  rewrite bool_decide_eq_false_2 by set_solver.
  simpl. now rewrite IH.
Qed.

Lemma to_blockTasks_length (sel : list Scored.t) :
  length (to_blockTasks sel) = length sel.
Proof. unfold to_blockTasks. apply length_imap. Qed.

(** ** The loop over the blocks *)

(** One iteration, with the selection named. *)
Lemma schedule_loop_S (fuel : nat) (bd br : Z) (eb : jsnum) (i : Z)
    (rem : list Scored.t) (t : option Z) (acc : list ScheduledBlock.t) :
  schedule_loop (S fuel) bd br eb i rem t acc =
  if js_lt i eb && (0 <? Z.of_nat (length rem)) then
    let cands :=
      if js_is_pred i eb then array_sort by_difficulty rem else rem in
    let sf := select_tasks bd cands [] 0 in
    let blockTasks := to_blockTasks (array_sort by_difficulty (fst sf)) in
    if Z.of_nat (length blockTasks) =? 0 then
      schedule_loop fuel bd br eb (i + 1) (remove_selected (fst sf) rem) t acc
    else
      schedule_loop fuel bd br eb (i + 1) (remove_selected (fst sf) rem)
        (advance (advance t bd) br)
        (acc ++ [ScheduledBlock.mk (i + 1) (formatTime t)
                   (formatTime (advance t bd))
                   (if js_is_pred i eb then shallow_work else deep_work)
                   blockTasks (snd sf)])
  else Some acc.
Proof. simpl. destruct (select_tasks _ _ _ _). reflexivity. Qed.

Lemma numbers_from_S (start : Z) (n : nat) :
  numbers_from start (S n) = (start + 1) :: numbers_from (start + 1) n.
Proof.
  unfold numbers_from. simpl. f_equal; [lia|].
  rewrite <- seq_shift, List.map_map.
  apply List.map_ext. intros k. lia.
Qed.

(** Once no task of the pool fits an empty block, nothing more is
    emitted. *)
Lemma schedule_loop_stuck (fuel : nat) (bd br : Z) (eb : jsnum) (i : Z)
    (rem : list Scored.t) (t : option Z) (acc out : list ScheduledBlock.t) :
  Forall (fun c => bd < est c) rem ->
  schedule_loop fuel bd br eb i rem t acc = Some out ->
  out = acc.
Proof.
  intros Hrem. revert i.
  induction fuel as [|fuel IH]; intros i E.
  - simpl in E. destruct (_ && _); congruence.
  - rewrite schedule_loop_S in E.
    destruct (_ && _); [|congruence].
    cbv zeta in E.
    rewrite select_tasks_none in E.
    + simpl in E. rewrite remove_selected_nil in E. now apply IH in E.
    + destruct (js_is_pred i eb); [|assumption].
      now rewrite array_sort_perm.
Qed.

Lemma schedule_loop_emits (fuel : nat) (bd br : Z) (eb : jsnum) (i : Z)
    (rem : list Scored.t) (t : option Z) (acc out : list ScheduledBlock.t) :
  schedule_loop fuel bd br eb i rem t acc = Some out ->
  exists new,
    out = acc ++ new
    /\ Forall (emitted_ok bd eb) new
    /\ List.map ScheduledBlock.blockNumber new = numbers_from i (length new).
Proof.
  revert i rem t acc.
  induction fuel as [|fuel IH]; intros i rem t acc E.
  - simpl in E. destruct (_ && _); [discriminate|].
    injection E as <-. exists []. now rewrite app_nil_r.
  - rewrite schedule_loop_S in E.
    destruct (js_lt i eb && _) eqn:Hcond; cycle 1.
    { injection E as <-. exists []. now rewrite app_nil_r. }
    apply andb_prop in Hcond as [Hlt _].
    cbv zeta in E.
    destruct (select_tasks bd _ [] 0) as [sel filled] eqn:Hsel.
    simpl fst in E; simpl snd in E.
    rewrite to_blockTasks_length, array_sort_length in E.
    destruct sel as [|s sel].
    + simpl in E. rewrite remove_selected_nil in E.
      apply select_tasks_nil_inv in Hsel.
      assert (Hrem : Forall (fun c => bd < est c) rem).
      { destruct (js_is_pred i eb); [|assumption].
        now rewrite array_sort_perm in Hsel. }
      apply schedule_loop_stuck in E; [|assumption].
      subst out. exists []. now rewrite app_nil_r.
    + simpl (Z.of_nat _ =? 0) in E. cbv iota in E.
      apply IH in E as (new & -> & Hok & Hnum).
      eexists (_ :: new). split; [now rewrite <- app_assoc|]. split.
      * constructor; [|assumption].
        eexists _, (s :: sel). simpl.
        replace (i + 1 - 1) with i by lia.
        repeat split; eauto; discriminate.
      * simpl. rewrite numbers_from_S, Hnum. reflexivity.
Qed.

(** The loop returns whenever the number of blocks is finite. *)
Lemma schedule_loop_returns (fuel : nat) (bd br n i : Z)
    (rem : list Scored.t) (t : option Z) (acc : list ScheduledBlock.t) :
  (Z.to_nat (n - i) <= fuel)%nat ->
  is_Some (schedule_loop fuel bd br (Finite n) i rem t acc).
Proof.
  revert i rem t acc.
  induction fuel as [|fuel IH]; intros i rem t acc Hfuel.
  - simpl. destruct (i <? n) eqn:Hlt; [apply Z.ltb_lt in Hlt; lia|].
    simpl. eauto.
  - rewrite schedule_loop_S.
    destruct (_ && _); [|eauto].
    cbv zeta. destruct (_ =? 0); apply IH; lia.
Qed.

(** More fuel does not change a result. *)
Lemma schedule_loop_fuel_mono (fuel fuel' : nat) (bd br : Z) (eb : jsnum)
    (i : Z) (rem : list Scored.t) (t : option Z)
    (acc out : list ScheduledBlock.t) :
  (fuel <= fuel')%nat ->
  schedule_loop fuel bd br eb i rem t acc = Some out ->
  schedule_loop fuel' bd br eb i rem t acc = Some out.
Proof.
  revert fuel' i rem t acc.
  induction fuel as [|fuel IH]; intros fuel' i rem t acc Hle E.
  - simpl in E. destruct (_ && _) eqn:Hc; [discriminate|].
    destruct fuel'; [simpl|rewrite schedule_loop_S]; now rewrite Hc.
  - destruct fuel' as [|fuel']; [lia|].
    rewrite schedule_loop_S in E |- *.
    destruct (_ && _); [|assumption].
    cbv zeta in E |- *.
    destruct (_ =? 0); apply IH; auto; lia.
Qed.


Lemma generateDailySchedule_returns (pendingTasks : list Task.t)
    (config : ScheduleConfig.t) (n : Z) (fuel : nat) :
  effectiveBlocks config = Finite n ->
  (Z.to_nat n <= fuel)%nat ->
  is_Some (generateDailySchedule fuel pendingTasks config).
Proof.
  intros Heb Hfuel. unfold generateDailySchedule.
  destruct (_ =? 0); [eauto|].
  rewrite Heb. apply schedule_loop_returns. now rewrite Z.sub_0_r.
Qed.

(** The generator returns whenever a block and its break do not add up
    to zero minutes: the number of slots is then finite, or [NaN] (from
    hours beyond the largest double), which ends the loop at once. *)
Lemma generateDailySchedule_terminates (pendingTasks : list Task.t)
    (config : ScheduleConfig.t) :
  ScheduleConfig.blockDurationMinutes config
  + ScheduleConfig.breakDurationMinutes config <> 0 ->
  exists fuel blocks,
    generateDailySchedule fuel pendingTasks config = Some blocks.
Proof.
  intros Hne.
  destruct (effectiveBlocks_finite config Hne) as [Heb|(n & Heb & _)].
  - exists 0%nat. unfold generateDailySchedule.
    destruct (_ =? 0); [eauto|]. rewrite Heb. simpl. eauto.
  - exists (Z.to_nat n).
    destruct (generateDailySchedule_returns pendingTasks config n
                (Z.to_nat n)) as [blocks E]; eauto.
Qed.

(** More fuel does not change a schedule. *)
Lemma generateDailySchedule_fuel_mono (fuel fuel' : nat)
    (pendingTasks : list Task.t) (config : ScheduleConfig.t)
    (blocks : list ScheduledBlock.t) :
  (fuel <= fuel')%nat ->
  generateDailySchedule fuel pendingTasks config = Some blocks ->
  generateDailySchedule fuel' pendingTasks config = Some blocks.
Proof.
  intros Hle. unfold generateDailySchedule.
  destruct (_ =? 0); [auto|].
  now apply schedule_loop_fuel_mono.
Qed.

Lemma generateDailySchedule_emits (fuel : nat) (pendingTasks : list Task.t)
    (config : ScheduleConfig.t) (blocks : list ScheduledBlock.t) :
  generateDailySchedule fuel pendingTasks config = Some blocks ->
  Forall (emitted_ok (ScheduleConfig.blockDurationMinutes config)
            (effectiveBlocks config)) blocks
  /\ List.map ScheduledBlock.blockNumber blocks
     = numbers_from 0 (length blocks).
Proof.
  unfold generateDailySchedule.
  destruct (_ =? 0).
  - intros [= <-]. split; [constructor | reflexivity].
  - intros E. apply schedule_loop_emits in E as (new & -> & Hok & Hnum).
    now split.
Qed.

(** ** Order within a block *)

Lemma by_difficulty_total (a b : Scored.t) :
  by_difficulty a b = false -> by_difficulty b a = true.
Proof. unfold by_difficulty. rewrite Z.leb_le, Z.leb_gt. lia. Qed.

Lemma by_difficulty_trans (a b c : Scored.t) :
  by_difficulty a b = true -> by_difficulty b c = true ->
  by_difficulty a c = true.
Proof. unfold by_difficulty. rewrite !Z.leb_le. lia. Qed.

Lemma StronglySorted_lookup {A : Type} (R : A -> A -> Prop) (l : list A)
    (i j : nat) (x y : A) :
  StronglySorted R l ->
  l !! i = Some x -> l !! j = Some y -> (i < j)%nat -> R x y.
Proof.
  intros Hs. revert i j.
  induction Hs as [|a l Hs IH Ha]; intros i j Hi Hj Hlt; [discriminate|].
  destruct j as [|j]; [lia|]. simpl in Hj.
  destruct i as [|i]; simpl in Hi.
  - injection Hi as ->.
    rewrite List.Forall_forall in Ha. apply Ha.
    apply list_elem_of_In. eapply list_elem_of_lookup_2. exact Hj.
  - eapply IH; eauto. lia.
Qed.

Lemma StronglySorted_weaken {A : Type} (R1 R2 : A -> A -> Prop)
    (l : list A) :
  (forall a b, R1 a b -> R2 a b) ->
  StronglySorted R1 l -> StronglySorted R2 l.
Proof.
  intros Himp. induction 1 as [|a l Hs IH Ha]; constructor; [assumption|].
  eapply Forall_impl; [exact Ha|]. intros b. apply Himp.
Qed.

Lemma to_blockTasks_lookup (sel : list Scored.t) (i : nat) :
  to_blockTasks sel !! i
  = (fun st => ScheduledTask.mk (Scored.task st) (Z.of_nat i)) <$> sel !! i.
Proof. unfold to_blockTasks. apply list_lookup_imap. Qed.

Lemma to_blockTasks_sortOrder (sel : list Scored.t) :
  List.map ScheduledTask.sortOrder (to_blockTasks sel)
  = List.map Z.of_nat (seq 0 (length sel)).
Proof.
  apply list_eq. intros i.
  change (List.map ?f ?l) with (f <$> l).
  rewrite !list_lookup_fmap, to_blockTasks_lookup.
  destruct (sel !! i) as [st|] eqn:E; simpl.
  - apply lookup_lt_Some in E. now rewrite lookup_seq_lt.
  - apply lookup_ge_None in E. now rewrite lookup_seq_ge.
Qed.

Lemma to_blockTasks_task (sel : list Scored.t) :
  List.map ScheduledTask.task (to_blockTasks sel) = List.map Scored.task sel.
Proof.
  apply list_eq. intros i.
  change (List.map ?f ?l) with (f <$> l).
  rewrite !list_lookup_fmap, to_blockTasks_lookup.
  now destruct (sel !! i).
Qed.

Lemma sum_by_map {A B : Type} (f : B -> Z) (g : A -> B) (l : list A) :
  sum_by f (List.map g l) = sum_by (fun x => f (g x)) l.
Proof.
  induction l as [|x l IH]; simpl; [reflexivity|].
  now rewrite !sum_by_cons, IH.
Qed.

(** ** The schedule generator *)

Lemma every_schedule_intro (P : list ScheduledBlock.t -> Prop)
    (pendingTasks : list Task.t) (config : ScheduleConfig.t) :
  (forall fuel blocks,
     generateDailySchedule fuel pendingTasks config = Some blocks ->
     P blocks) ->
  every_schedule P pendingTasks config.
Proof.
  intros HP. split; [|exact HP].
  apply generateDailySchedule_terminates.
Qed.

Lemma emitted_lower_the_hurdle (bd : Z) (eb : jsnum) (b : ScheduledBlock.t) :
  emitted_ok bd eb b -> lower_the_hurdle b.
Proof.
  intros (cands & sel & _ & _ & Htasks & _).
  unfold lower_the_hurdle. rewrite Htasks. split.
  - now rewrite to_blockTasks_sortOrder, to_blockTasks_length.
  - intros x y Hx Hy Hle.
    apply list_elem_of_In, list_elem_of_lookup in Hx as [i Hi].
    apply list_elem_of_In, list_elem_of_lookup in Hy as [j Hj].
    rewrite to_blockTasks_lookup in Hi, Hj.
    destruct (array_sort by_difficulty sel !! i) as [sx|] eqn:Ex;
      [|discriminate].
    destruct (array_sort by_difficulty sel !! j) as [sy|] eqn:Ey;
      [|discriminate].
    injection Hi as <-. injection Hj as <-. simpl in *.
    destruct (decide (i = j)) as [->|Hne].
    + rewrite Ex in Ey. injection Ey as ->. lia.
    + assert (Hs := array_sort_sorted by_difficulty by_difficulty_total
                      by_difficulty_trans sel).
      assert (Hlt : (i < j)%nat) by lia.
      pose proof (StronglySorted_lookup _ _ _ _ _ _ Hs Ex Ey Hlt) as Hd.
      unfold by_difficulty in Hd. apply Z.leb_le in Hd. lia.
Qed.

(** C4.  Within every emitted block the positions assigned to the tasks are
    exactly 0, 1, ..., n-1 and the difficulties are non-decreasing along
    them: the easiest task comes first, whatever the score ordering that
    chose the members of the block. *)
Theorem generateDailySchedule_lower_the_hurdle
    (pendingTasks : list Task.t) (config : ScheduleConfig.t) :
  every_schedule (Forall lower_the_hurdle) pendingTasks config.
Proof.
  apply every_schedule_intro. intros fuel blocks E.
  apply generateDailySchedule_emits in E as [Hok _].
  eapply Forall_impl; [exact Hok|].
  intros b. apply emitted_lower_the_hurdle.
Qed.

Lemma emitted_minutes (bd : Z) (eb : jsnum) (b : ScheduledBlock.t) :
  emitted_ok bd eb b ->
  ScheduledBlock.totalMinutes b = assigned_minutes b
  /\ assigned_minutes b <= bd
  /\ stops_at_80_percent bd b.
Proof.
  intros (cands & sel & Hsel & Hne & Htasks & _).
  pose proof (select_tasks_below_80 _ _ _ _ _ _ Hsel) as Hbelow.
  apply select_tasks_spec in Hsel as (Hsum & Hle & _); auto.
  assert (Hassigned : assigned_minutes b = sum_by est sel).
  { unfold assigned_minutes. rewrite Htasks.
    rewrite <- (sum_by_map Task.estimatedMinutes ScheduledTask.task).
    rewrite to_blockTasks_task, sum_by_map.
    apply sum_by_perm, array_sort_perm. }
  rewrite Hassigned, <- Hsum. split; [reflexivity|].
  split; [now destruct Hle|].
  exists (List.map Scored.task sel). split.
  - rewrite Htasks, to_blockTasks_task.
    apply Permutation_map. symmetry. apply array_sort_perm.
  - intros pre suf Heq Hpre Hsuf.
    apply List.map_eq_app in Heq as (pre' & suf' & -> & <- & <-).
    rewrite sum_by_map. eapply (Hbelow eq_refl); eauto.
    + intros pre suf Hnil. destruct pre; [contradiction | discriminate].
    + intros ->. contradiction.
    + intros ->. contradiction.
Qed.

(** C5.  The [totalMinutes] of every emitted block is the sum of the
    estimated minutes of its tasks, and that sum does not exceed
    [blockDurationMinutes]: the greedy pass adds a candidate only while
    the fill stays within the block, and it stops once the fill has
    reached 80% of the block. *)
Theorem generateDailySchedule_block_minutes
    (pendingTasks : list Task.t) (config : ScheduleConfig.t) :
  every_schedule
    (Forall (fun b =>
       ScheduledBlock.totalMinutes b = assigned_minutes b
       /\ assigned_minutes b <= ScheduleConfig.blockDurationMinutes config
       /\ stops_at_80_percent
            (ScheduleConfig.blockDurationMinutes config) b))
    pendingTasks config.
Proof.
  apply every_schedule_intro. intros fuel blocks E.
  apply generateDailySchedule_emits in E as [Hok _].
  eapply Forall_impl; [exact Hok|].
  intros b. apply emitted_minutes.
Qed.

(** C10.  The block numbers of a returned schedule are 1, 2, ..., k in
    order.  An iteration selects nothing only when no task of the pool
    fits an empty block; it then leaves the pool as it was, and no later
    iteration emits a block. *)
Theorem generateDailySchedule_block_numbers
    (pendingTasks : list Task.t) (config : ScheduleConfig.t) :
  let bd := ScheduleConfig.blockDurationMinutes config in
  every_schedule
    (fun blocks =>
       List.map ScheduledBlock.blockNumber blocks
       = List.map (fun k => Z.of_nat k + 1) (seq 0 (length blocks)))
    pendingTasks config
  /\ (forall candidateTasks filled,
        select_tasks bd candidateTasks [] 0 = ([], filled) ->
        Forall (fun c => bd < est c) candidateTasks)
  /\ (forall remainingTasks,
        remove_selected [] remainingTasks = remainingTasks)
  /\ (forall fuel br eb i remainingTasks currentTime blocks out,
        Forall (fun c => bd < est c) remainingTasks ->
        schedule_loop fuel bd br eb i remainingTasks currentTime blocks
        = Some out ->
        out = blocks).
Proof.
  intros bd. split; [|split; [|split]].
  - apply every_schedule_intro. intros fuel blocks E.
    apply generateDailySchedule_emits in E as [_ Hnum].
    rewrite Hnum. unfold numbers_from.
    apply List.map_ext. intros k. lia.
  - intros candidateTasks filled. apply select_tasks_nil_inv.
  - apply remove_selected_nil.
  - intros fuel br eb i remainingTasks currentTime blocks out.
    apply schedule_loop_stuck.
Qed.

(** ** Block types *)

Lemma js_is_pred_spec (k : Z) (eb : jsnum) :
  js_is_pred (k - 1) eb = true <-> eb = Finite k.
Proof.
  destruct eb as [z| |]; simpl; try (split; discriminate).
  rewrite Z.eqb_eq. split; [intros ?; f_equal; lia | intros [= ->]; lia].
Qed.

Lemma numbers_from_lookup (start : Z) (n k : nat) (z : Z) :
  numbers_from start n !! k = Some z -> z = start + 1 + Z.of_nat k /\ (k < n)%nat.
Proof.
  unfold numbers_from. change (List.map ?f ?l) with (f <$> l).
  rewrite list_lookup_fmap. intros E.
  destruct (seq 0 n !! k) as [m|] eqn:Em; [|discriminate].
  apply lookup_seq in Em as [-> ?]. injection E as <-. split; [lia|assumption].
Qed.

Lemma emitted_type (bd : Z) (eb : jsnum) (b : ScheduledBlock.t) :
  emitted_ok bd eb b ->
  (eb = Finite (ScheduledBlock.blockNumber b) ->
   ScheduledBlock.blockType b = shallow_work)
  /\ (eb <> Finite (ScheduledBlock.blockNumber b) ->
      ScheduledBlock.blockType b = deep_work).
Proof.
  intros (cands & sel & _ & _ & _ & Hty & _). rewrite Hty.
  destruct (js_is_pred _ eb) eqn:E.
  - apply js_is_pred_spec in E. split; [reflexivity | contradiction].
  - split; [|reflexivity].
    intros Heb. apply js_is_pred_spec in Heb. congruence.
Qed.

(** C6, as the code has it.  Every emitted block other than the last is
    [deep_work]; the last emitted block is [shallow_work] when its number
    is [effectiveBlocks] and [deep_work] when the tasks ran out before the
    last slot. *)
Theorem generateDailySchedule_block_types
    (pendingTasks : list Task.t) (config : ScheduleConfig.t) :
  every_schedule (block_types (effectiveBlocks config)) pendingTasks config.
Proof.
  apply every_schedule_intro. intros fuel blocks E pre last ->.
  apply generateDailySchedule_emits in E as [Hok Hnum].
  apply Forall_app in Hok as [Hpre Hlast].
  apply Forall_cons_1 in Hlast as [Hlast _].
  split; [|exact (emitted_type _ _ _ Hlast)].
  apply Forall_lookup. intros k b Hk.
  assert (Hb : emitted_ok (ScheduleConfig.blockDurationMinutes config)
                 (effectiveBlocks config) b).
  { eapply Forall_lookup_1 in Hpre; eauto. }
  apply (emitted_type _ _ _ Hb). intros Heb.
  destruct Hlast as (? & ? & _ & _ & _ & _ & Hlt).
  rewrite Heb in Hlt. simpl in Hlt. apply Z.ltb_lt in Hlt.
  assert (Hkb : List.map ScheduledBlock.blockNumber (pre ++ [last]) !! k
                = Some (ScheduledBlock.blockNumber b)).
  { change (List.map ?f ?l) with (f <$> l).
    rewrite list_lookup_fmap, lookup_app_l, Hk; [reflexivity|].
    now apply lookup_lt_Some in Hk. }
  assert (Hkl : List.map ScheduledBlock.blockNumber (pre ++ [last])
                  !! length pre
                = Some (ScheduledBlock.blockNumber last)).
  { change (List.map ?f ?l) with (f <$> l).
    rewrite list_lookup_fmap, lookup_app_r, Nat.sub_diag; [reflexivity|lia]. }
  rewrite Hnum in Hkb, Hkl.
  apply numbers_from_lookup in Hkb as [Hkb _].
  apply numbers_from_lookup in Hkl as [Hkl _].
  apply lookup_lt_Some in Hk. lia.
Qed.

(** Three blocks fit in eight hours; with a single task only block 1 is
    emitted, and it is [deep_work]. *)
Lemma last_emitted_is_shallow_counterexample :
  ~ last_emitted_is_shallow 3
      [a_task "a" 30 5 3 pending 0] (a_config 8 120 15).
Proof.
  intros Hspec.
  specialize (Hspec
    [ScheduledBlock.mk 1 "09:00" "11:00" deep_work
       [ScheduledTask.mk (a_task "a" 30 5 3 pending 0) 0] 30]
    []
    (ScheduledBlock.mk 1 "09:00" "11:00" deep_work
       [ScheduledTask.mk (a_task "a" 30 5 3 pending 0) 0] 30)
    3).
  destruct Hspec as [Hshallow _];
    [vm_compute; reflexivity | vm_compute; reflexivity | lia | reflexivity |].
  discriminate Hshallow.
Qed.

(** ** Scores *)

Local Open Scope R_scope.

Lemma exp_nonpos_le_1 (x : R) : x <= 0 -> exp x <= 1.
Proof.
  intros [Hlt| ->].
  - apply exp_increasing in Hlt. rewrite exp_0 in Hlt. lra.
  - rewrite exp_0. lra.
Qed.

Lemma default_challenge_range (d : R) : 0 <= default_challenge d <= 1.
Proof.
  unfold default_challenge. split; [apply Rmax_l|].
  apply Rmax_lub; [lra|].
  pose proof (Rabs_pos (d - 5)). lra.
Qed.

Lemma gaussian_range (delta : R) : 0 < gaussian delta <= 1.
Proof.
  unfold gaussian. split; [apply exp_pos|].
  apply exp_nonpos_le_1.
  pose proof (pow2_ge_0 delta). lra.
Qed.

(** C7.  For a profile whose confidence lies in [0, 1] the score lies in
    [0, 1]; it is the Gaussian of the distance to the ideal difficulty
    blended with the default score, with the confidence as the weight; and
    the Gaussian term is 1 at the ideal difficulty. *)
Theorem calculateChallengeSkillScore_spec
    (taskDifficulty : R) (profile : CalibrationProfile.t) :
  (0 <= CalibrationProfile.confidence profile <= 1)%Q ->
  let confidence := Q2R (CalibrationProfile.confidence profile) in
  let ideal := Q2R (CalibrationProfile.idealDifficulty profile) in
  let delta := Rabs (taskDifficulty - ideal) in
  0 <= calculateChallengeSkillScore taskDifficulty profile <= 1
  /\ calculateChallengeSkillScore taskDifficulty profile
     = exp (- delta ^ 2 / (2 * 2 ^ 2)) * confidence
       + Rmax 0 (1 - Rabs (taskDifficulty - 5) * 0.15) * (1 - confidence)
  /\ (taskDifficulty = ideal -> exp (- delta ^ 2 / (2 * 2 ^ 2)) = 1).
Proof.
  intros [Hc0 Hc1] confidence ideal delta.
  apply Qreals.Qle_Rle in Hc0, Hc1.
  rewrite RMicromega.Q2R_0 in Hc0. rewrite RMicromega.Q2R_1 in Hc1.
  fold confidence in Hc0, Hc1.
  assert (Heq : calculateChallengeSkillScore taskDifficulty profile
                = gaussian delta * confidence
                  + default_challenge taskDifficulty * (1 - confidence)).
  { unfold calculateChallengeSkillScore, gaussian, default_challenge.
    cbv zeta. fold ideal confidence delta.
    do 3 f_equal. field. }
  split; [|split].
  - rewrite Heq.
    pose proof (gaussian_range delta) as Hg.
    pose proof (default_challenge_range taskDifficulty) as Hd.
    split; nra.
  - exact Heq.
  - intros ->. subst delta.
    rewrite Rminus_diag, Rabs_R0.
    replace (- 0 ^ 2 / (2 * 2 ^ 2)) with 0 by field.
    apply exp_0.
Qed.

Lemma calculateChallengeSkillScore_spec_witness :
  (0 <= CalibrationProfile.confidence (a_profile 5.2 0.5) <= 1)%Q
  /\ 0 <= calculateChallengeSkillScore (Q2R 5.2) (a_profile 5.2 0.5) <= 1
  /\ exp (- Rabs (Q2R 5.2 - Q2R 5.2) ^ 2 / (2 * 2 ^ 2)) = 1.
Proof.
  assert (Hc : (0 <= CalibrationProfile.confidence (a_profile 5.2 0.5) <= 1)%Q)
    by (split; discriminate).
  destruct (calculateChallengeSkillScore_spec (Q2R 5.2) (a_profile 5.2 0.5) Hc)
    as (Hrange & _ & Hpeak).
  split; [exact Hc|]. split; [exact Hrange|]. apply Hpeak. reflexivity.
Defined.

Lemma by_score_desc_spec (a b : Scored.t) :
  by_score_desc a b = true <-> Scored.score b <= Scored.score a.
Proof.
  unfold by_score_desc, Rleb.
  destruct (Rle_dec _ _); split; intros; try discriminate; try reflexivity; lra.
Qed.

Lemma by_score_desc_total (a b : Scored.t) :
  by_score_desc a b = false -> by_score_desc b a = true.
Proof.
  intros E. apply by_score_desc_spec.
  destruct (Rle_dec (Scored.score a) (Scored.score b)); [assumption|].
  assert (by_score_desc a b = true) by (apply by_score_desc_spec; lra).
  congruence.
Qed.

Lemma by_score_desc_trans (a b c : Scored.t) :
  by_score_desc a b = true -> by_score_desc b c = true ->
  by_score_desc a c = true.
Proof. rewrite !by_score_desc_spec. lra. Qed.

(** C3.  The score of a task is
    priority/5 x 0.3 + 0.5 x 0.4 + challengeScore x 0.2
    + (1 - sortOrder x 0.01) x 0.1,
    where the challenge score is [calculateChallengeSkillScore] under a
    profile of positive confidence and max(0, 1 - |difficulty - 5| x 0.15)
    otherwise; the recency term is negative once [sortOrder] exceeds 100;
    and [generateDailySchedule] orders the active tasks by this score,
    highest first. *)
Theorem calculateTaskScore_spec
    (task : Task.t) (calibration : option CalibrationProfile.t) :
  (forall c,
     calibration = Some c -> (0 < CalibrationProfile.confidence c)%Q ->
     calculateTaskScore task calibration
     = score_formula task
         (calculateChallengeSkillScore (IZR (Task.difficulty task)) c))
  /\ ((calibration = None
       \/ exists c, calibration = Some c
                    /\ (CalibrationProfile.confidence c <= 0)%Q) ->
      calculateTaskScore task calibration
      = score_formula task
          (Rmax 0 (1 - Rabs (IZR (Task.difficulty task) - 5) * 0.15)))
  /\ ((100 < Task.sortOrder task)%Z ->
      1 - IZR (Task.sortOrder task) * 0.01 < 0)
  /\ (forall pendingTasks,
       Permutation (scoredTasks pendingTasks calibration)
         (List.map
            (fun t => Scored.mk t (calculateTaskScore t calibration))
            (List.filter is_active pendingTasks))
       /\ StronglySorted (fun a b => Scored.score b <= Scored.score a)
            (scoredTasks pendingTasks calibration)).
Proof.
  split; [|split; [|split]].
  - intros c -> Hpos. unfold calculateTaskScore, score_formula, Qltb.
    cbv zeta.
    destruct (Qle_bool (CalibrationProfile.confidence c) 0) eqn:E;
      [|reflexivity].
    apply Qle_bool_iff in E.
    exfalso. eapply Qlt_irrefl, Qlt_le_trans; eauto.
  - intros [->|(c & -> & Hle)]; unfold calculateTaskScore, score_formula, Qltb;
      cbv zeta; [reflexivity|].
    apply Qle_bool_iff in Hle. now rewrite Hle.
  - intros Hso. apply IZR_lt in Hso. lra.
  - intros pendingTasks. unfold scoredTasks. split.
    + apply array_sort_perm.
    + eapply StronglySorted_weaken;
        [| apply (array_sort_sorted by_score_desc by_score_desc_total
                    by_score_desc_trans)].
      intros a b. apply by_score_desc_spec.
Qed.

Local Close Scope R_scope.

(** ** Block duration *)

(** C8.  In mode "auto" the duration is 120 without a calibration profile
    or with one of confidence 0, and 90 with a confidence strictly between
    0 and 0.3, whatever the custom duration and the tasks. *)
Theorem resolveBlockDuration_auto `{Host}
    (customDuration : Z) (pendingTasks : list Task.t) :
  resolveBlockDuration "auto" customDuration None pendingTasks = 120
  /\ (forall c,
       (CalibrationProfile.confidence c == 0)%Q ->
       resolveBlockDuration "auto" customDuration (Some c) pendingTasks = 120)
  /\ (forall c,
       (0 < CalibrationProfile.confidence c)%Q ->
       (CalibrationProfile.confidence c < 0.3)%Q ->
       resolveBlockDuration "auto" customDuration (Some c) pendingTasks = 90).
Proof.
  split; [reflexivity|]. split.
  - intros c Hc. unfold resolveBlockDuration. simpl.
    apply Qeq_bool_iff in Hc. now rewrite Hc.
  - intros c Hpos Hlow. unfold resolveBlockDuration. simpl.
    destruct (Qeq_bool _ 0) eqn:E.
    + apply Qeq_bool_iff in E. rewrite E in Hpos. discriminate Hpos.
    + unfold Qltb.
      destruct (Qle_bool 0.3 _) eqn:E'; [|reflexivity].
      apply Qle_bool_iff in E'.
      exfalso. eapply Qlt_irrefl, Qlt_le_trans; eauto.
Qed.

(** The scenario of the spec, on a host of the model. *)
Lemma resolveBlockDuration_auto_witness :
  resolveBlockDuration (H := day_count_host) "auto" 120 None [] = 120
  /\ resolveBlockDuration (H := day_count_host) "auto" 120
       (Some (a_profile 5.2 0)) [] = 120
  /\ resolveBlockDuration (H := day_count_host) "auto" 120
       (Some (a_profile 5.2 0.2)) [] = 90.
Proof.
  destruct (resolveBlockDuration_auto (H := day_count_host) 120 [])
    as (Hnone & Hzero & Hlow).
  split; [exact Hnone|]. split.
  - apply Hzero. reflexivity.
  - apply Hlow; reflexivity.
Defined.

(** ** Calibration *)

(** C1.  With fewer than three feedback entries the profile is the neutral
    default, whatever the entries and the daily plans hold. *)
Theorem computeCalibrationProfile_default `{Host}
    (feedbackEntries : list FeedbackWithDifficulty.t)
    (dailyPlanData : list DailyPlanSummary.t) :
  (length feedbackEntries < 3)%nat ->
  computeCalibrationProfile feedbackEntries dailyPlanData
  = CalibrationProfile.mk 5 5.2 0 (Z.of_nat (length feedbackEntries)) ∅ 0 0 0.
Proof.
  intros Hlen. unfold computeCalibrationProfile.
  destruct (Z.of_nat (length feedbackEntries) <? 3) eqn:E; [reflexivity|].
  apply Z.ltb_ge in E. lia.
Qed.

Lemma computeCalibrationProfile_default_witness :
  computeCalibrationProfile (H := day_count_host)
    [a_feedback (Some too_hard) 9; a_feedback None (-4)]
    [a_plan "19700" (Some 6) (Some 4) true; a_plan "19701" None None true]
  = CalibrationProfile.mk 5 5.2 0 2 ∅ 0 0 0.
Proof.
  apply (computeCalibrationProfile_default (H := day_count_host)
           [a_feedback (Some too_hard) 9; a_feedback None (-4)]).
  simpl. lia.
Defined.

(** *** The skill level, as the spec words it *)





Lemma round1_rounded (x : Q) : rounded_to_tenth x (round1 x).
Proof.
  unfold rounded_to_tenth, round1, Math_round.
  set (k := Qfloor (x * 10 + (1 # 2))).
  pose proof (Qfloor_le (x * 10 + (1 # 2))) as Hlo.
  pose proof (Qlt_floor (x * 10 + (1 # 2))) as Hhi.
  fold k in Hlo, Hhi. rewrite inject_Z_plus in Hhi.
  change (inject_Z 1) with 1%Q in Hhi.
  split; [exists k; reflexivity|].
  split.
  - apply Qlt_shift_div_l; [reflexivity|]. lra.
  - apply Qle_shift_div_r; [reflexivity|]. lra.
Qed.

Lemma rounded_to_tenth_compat (x x' r : Q) :
  (x == x')%Q -> rounded_to_tenth x r -> rounded_to_tenth x' r.
Proof.
  intros Hx (Hk & Hlo & Hhi). split; [exact Hk|]. split; lra.
Qed.



(** *** The skill level in doubles *)

(** A rounding moves a number from 1 on by [2^-53] of it at most. *)
Lemma round53_close (q : Q) :
  (1 <= q)%Q ->
  (q - q * (1 # 9007199254740992) <= round53 q)%Q
  /\ (round53 q <= q + q * (1 # 9007199254740992))%Q.
Proof.
  intros Hq. pose proof (round53_near q Hq) as Hn.
  assert (E : (q / 2 ^ 53 == q * (1 # 9007199254740992))%Q)
    by (unfold Qdiv; apply Qmult_comp; reflexivity).
  rewrite E in Hn. apply Qabs_Qle_condition in Hn. lra.
Qed.








Lemma mean_of_range {A : Type} (f : A -> Z) (lo hi : Z) (l : list A) :
  l <> [] -> Forall (fun x => lo <= f x <= hi) l ->
  (inject_Z lo <= mean_of (sum_by f l) (length l) <= inject_Z hi)%Q.
Proof.
  intros Hne Hall.
  assert (Hsum : lo * Z.of_nat (length l) <= sum_by f l
                 <= hi * Z.of_nat (length l)).
  { clear Hne. induction Hall as [|x l Hx _ IH].
    - rewrite sum_by_nil. simpl. lia.
    - rewrite sum_by_cons. simpl length. nia. }
  assert (Hpos : (0 < inject_Z (Z.of_nat (length l)))%Q).
  { change 0%Q with (inject_Z 0). rewrite <- Zlt_Qlt.
    destruct l; [contradiction | simpl; lia]. }
  destruct Hsum as [Hl Hh]. rewrite Zle_Qle, inject_Z_mult in Hl, Hh.
  unfold mean_of. split.
  - apply Qle_shift_div_l; assumption.
  - apply Qle_shift_div_r; assumption.
Qed.







(** ** The score order without a profile

    Without a calibration profile the score is a rational, and the order
    of [scoredTasks] can be computed. *)

Lemma Q2R_inject_Z (z : Z) : Q2R (inject_Z z) = IZR z.
Proof. unfold Q2R. simpl. field. Qed.

Lemma Q2R_Qabs (x : Q) : Q2R (Qabs x) = Rabs (Q2R x).
Proof.
  apply Qabs_case; intros Hx; apply Qreals.Qle_Rle in Hx;
    rewrite RMicromega.Q2R_0 in Hx.
  - now rewrite Rabs_right by lra.
  - rewrite Qreals.Q2R_opp. now rewrite Rabs_left1 by lra.
Qed.

Lemma Q2R_Qmax (x y : Q) : Q2R (Qmax x y) = Rmax (Q2R x) (Q2R y).
Proof.
  destruct (Q.max_spec_le x y) as [[Hle E]|[Hle E]];
    apply Qreals.Qeq_eqR in E; apply Qreals.Qle_Rle in Hle; rewrite E.
  - now rewrite Rmax_right.
  - now rewrite Rmax_left.
Qed.

Lemma calculateTaskScore_fallback (task : Task.t) :
  calculateTaskScore task None = Q2R (fallback_score task).
Proof.
  unfold calculateTaskScore, fallback_score. cbv zeta.
  rewrite !Qreals.Q2R_plus, !Qreals.Q2R_mult, Q2R_Qmax.
  rewrite !Qreals.Q2R_minus, !Qreals.Q2R_mult, Q2R_Qabs, Qreals.Q2R_minus.
  rewrite Qreals.Q2R_div by discriminate.
  rewrite !Q2R_inject_Z, RMicromega.Q2R_0, RMicromega.Q2R_1.
  replace (Q2R 5) with 5%R by (unfold Q2R; simpl; field).
  reflexivity.
Qed.

Lemma array_sort_map {A B : Type} (f : A -> B) (le : A -> A -> bool)
    (le' : B -> B -> bool) (l : list A) :
  (forall a b, le' (f a) (f b) = le a b) ->
  array_sort le' (List.map f l) = List.map f (array_sort le l).
Proof.
  intros Hle. induction l as [|x l IH]; simpl; [reflexivity|].
  rewrite IH. generalize (array_sort le l) as s.
  induction s as [|y s IHs]; simpl; [reflexivity|].
  rewrite Hle. destruct (le x y); simpl; [reflexivity|].
  now rewrite IHs.
Qed.

Lemma scoredTasks_fallback (pendingTasks : list Task.t) :
  scoredTasks pendingTasks None
  = List.map (fun task => Scored.mk task (calculateTaskScore task None))
      (array_sort by_fallback_desc (List.filter is_active pendingTasks)).
Proof.
  unfold scoredTasks. apply array_sort_map. intros a b.
  unfold by_score_desc, by_fallback_desc, Rleb. simpl.
  rewrite !calculateTaskScore_fallback.
  destruct (Rle_dec _ _) as [Hle|Hnle].
  - symmetry. apply Qle_bool_iff, Qreals.Rle_Qle.
    now rewrite Qreals.Q2R_minus, RMicromega.Q2R_0.
  - destruct (Qle_bool _ _) eqn:E; [|reflexivity].
    exfalso. apply Hnle. apply Qle_bool_iff, Qreals.Qle_Rle in E.
    now rewrite Qreals.Q2R_minus, RMicromega.Q2R_0 in E.
Qed.

(** The generator on inputs without a profile, in a form that computes. *)
Lemma generateDailySchedule_fallback (fuel : nat)
    (pendingTasks : list Task.t) (config : ScheduleConfig.t) :
  ScheduleConfig.calibration config = None ->
  generateDailySchedule fuel pendingTasks config
  = if (Z.of_nat (length pendingTasks) =? 0) then Some []
    else
      schedule_loop fuel
        (ScheduleConfig.blockDurationMinutes config)
        (ScheduleConfig.breakDurationMinutes config)
        (effectiveBlocks config) 0
        (List.map (fun task => Scored.mk task (calculateTaskScore task None))
           (array_sort by_fallback_desc
              (List.filter is_active pendingTasks)))
        (parseTime (ScheduleConfig.startTime config)) [].
Proof.
  intros Hcal. unfold generateDailySchedule.
  now rewrite Hcal, scoredTasks_fallback.
Qed.

Lemma five_tasks_schedule :
  generateDailySchedule 3 five_tasks (a_config 8 120 15)
  = Some five_tasks_blocks.
Proof.
  rewrite generateDailySchedule_fallback by reflexivity.
  vm_compute. reflexivity.
Qed.

(** With eleven hours four blocks fit; the fourth iteration finds only
    the task that fits no block and emits nothing. *)
Lemma five_tasks_long_day :
  effectiveBlocks (a_config 11 120 15) = Finite 4
  /\ List.map ScheduledBlock.blockType
       <$> generateDailySchedule 4 five_tasks (a_config 11 120 15)
     = Some [deep_work; deep_work; deep_work].
Proof.
  split; [reflexivity|].
  rewrite generateDailySchedule_fallback by reflexivity.
  vm_compute. reflexivity.
Qed.

(** In doubles 16.65 hours are 998.9999999999999 minutes, which leave
    899.9999999999999 after the buffer: eleven slots of 75 minutes, not
    the twelve of 900 minutes, and block 11 is the [shallow_work] one. *)
Lemma twelve_tasks_long_day :
  effectiveBlocks (a_config 16.65 60 15) = Finite 11
  /\ List.map (fun b => (ScheduledBlock.blockNumber b,
                         ScheduledBlock.blockType b))
       <$> generateDailySchedule 11 twelve_tasks (a_config 16.65 60 15)
     = Some [(1, deep_work); (2, deep_work); (3, deep_work); (4, deep_work);
             (5, deep_work); (6, deep_work); (7, deep_work); (8, deep_work);
             (9, deep_work); (10, deep_work); (11, shallow_work)].
Proof.
  split; [vm_compute; reflexivity|].
  rewrite generateDailySchedule_fallback by reflexivity.
  vm_compute. reflexivity.
Qed.

(** The double 2.7666666666666666 is 166 minutes or a little more: 150
    are left after the buffer, two slots of 75 minutes, and both are
    used. *)
Lemma two_tasks_short_day :
  effectiveBlocks (a_config 2.7666666666666666 60 15) = Finite 2
  /\ length
       <$> generateDailySchedule 2 (take 2 twelve_tasks)
             (a_config 2.7666666666666666 60 15)
     = Some 2%nat.
Proof.
  split; [vm_compute; reflexivity|].
  rewrite generateDailySchedule_fallback by reflexivity.
  vm_compute. reflexivity.
Qed.

Lemma generateDailySchedule_lower_the_hurdle_witness :
  Forall lower_the_hurdle five_tasks_blocks.
Proof.
  apply (proj2 (generateDailySchedule_lower_the_hurdle
                  five_tasks (a_config 8 120 15)) 3%nat).
  exact five_tasks_schedule.
Defined.

Lemma generateDailySchedule_block_minutes_witness :
  Forall (fun b =>
     ScheduledBlock.totalMinutes b = assigned_minutes b
     /\ assigned_minutes b <= 120
     /\ stops_at_80_percent 120 b) five_tasks_blocks.
Proof.
  apply (proj2 (generateDailySchedule_block_minutes
                  five_tasks (a_config 8 120 15)) 3%nat).
  exact five_tasks_schedule.
Defined.

Lemma generateDailySchedule_block_numbers_witness :
  List.map ScheduledBlock.blockNumber five_tasks_blocks = [1; 2; 3].
Proof.
  apply (proj2 (proj1 (generateDailySchedule_block_numbers
                         five_tasks (a_config 8 120 15))) 3%nat).
  exact five_tasks_schedule.
Defined.

Lemma generateDailySchedule_block_types_witness :
  block_types (Finite 3) five_tasks_blocks.
Proof.
  apply (proj2 (generateDailySchedule_block_types
                  five_tasks (a_config 8 120 15)) 3%nat).
  exact five_tasks_schedule.
Defined.

Lemma calculateTaskScore_spec_witness :
  calculateTaskScore (a_task "a" 60 7 3 pending 2) (Some (a_profile 5.2 0.5))
  = score_formula (a_task "a" 60 7 3 pending 2)
      (calculateChallengeSkillScore 7 (a_profile 5.2 0.5))
  /\ calculateTaskScore (a_task "a" 60 7 3 pending 2) None
     = score_formula (a_task "a" 60 7 3 pending 2)
         (Rmax 0 (1 - Rabs (7 - 5) * 0.15))%R.
Proof.
  split.
  - apply (proj1 (calculateTaskScore_spec (a_task "a" 60 7 3 pending 2)
                    (Some (a_profile 5.2 0.5))) (a_profile 5.2 0.5)).
    + reflexivity.
    + reflexivity.
  - apply (proj1 (proj2 (calculateTaskScore_spec
                           (a_task "a" 60 7 3 pending 2) None))).
    left. reflexivity.
Defined.

Lemma ten_entries_profile :
  let profile := computeCalibrationProfile (H := day_count_host)
                   ten_entries [] in
  (CalibrationProfile.skillLevel profile == 5)%Q
  /\ (CalibrationProfile.idealDifficulty profile == 5.2)%Q
  /\ (CalibrationProfile.confidence profile == 0.3)%Q.
Proof. vm_compute. repeat split. Qed.


(** ** Running heap computations *)

Lemma wp_ret {A : Type} (a : A) (h : heap) (Q : A -> heap -> Prop) :
  Q a h -> wp (ret a) h Q.
Proof. intros HQ. exists a, h. split; [reflexivity | exact HQ]. Qed.

Lemma wp_bind {A B : Type} (m : M A) (k : A -> M B) (h : heap)
    (Q : B -> heap -> Prop) :
  wp m h (fun a h' => wp (k a) h' Q) -> wp (bind m k) h Q.
Proof.
  intros (a & h' & Hm & b & h'' & Hk & HQ).
  exists b, h''. split; [|exact HQ].
  unfold bind. now rewrite Hm.
Qed.

Lemma wp_run {A : Type} (m : M A) (h : heap) (a : A) (h' : heap)
    (Q : A -> heap -> Prop) :
  m h = Some (a, h') -> Q a h' -> wp m h Q.
Proof. intros Hm HQ. now exists a, h'. Qed.

Section HeapOps.
Context {A : Type} `{Elem A}.

Lemma mapM_proj_inj (xs : list A) : mapM proj (inj <$> xs) = Some xs.
Proof. apply mapM_fmap_Some, proj_inj. Qed.

Lemma load_run (l : loc) (xs : list A) (h : heap) :
  h !! l = Some (inj <$> xs) -> load l h = Some (xs, h).
Proof. intros Hl. unfold load. now rewrite Hl, mapM_proj_inj. Qed.

Lemma store_run (l : loc) (xs : list A) (vs : list value) (h : heap) :
  h !! l = Some vs -> store l xs h = Some (tt, <[l := inj <$> xs]> h).
Proof. intros Hl. unfold store. now rewrite Hl. Qed.

Lemma wp_load (l : loc) (xs : list A) (h : heap)
    (Q : list A -> heap -> Prop) :
  h !! l = Some (inj <$> xs) -> Q xs h -> wp (load l) h Q.
Proof. intros Hl HQ. eapply wp_run; [apply load_run, Hl | exact HQ]. Qed.

Lemma wp_alloc (xs : list A) (h : heap) (Q : loc -> heap -> Prop) :
  (forall l, h !! l = None -> Q l (<[l := inj <$> xs]> h)) ->
  wp (alloc xs) h Q.
Proof.
  intros HQ. eapply wp_run; [reflexivity|].
  apply HQ, not_elem_of_dom, is_fresh.
Qed.

Lemma wp_store (l : loc) (xs : list A) (vs : list value) (h : heap)
    (Q : unit -> heap -> Prop) :
  h !! l = Some vs -> Q tt (<[l := inj <$> xs]> h) -> wp (store l xs) h Q.
Proof. intros Hl HQ. eapply wp_run; [eapply store_run, Hl | exact HQ]. Qed.

Lemma wp_Array_filter (a : loc) (p : A -> bool) (xs : list A) (h : heap)
    (Q : loc -> heap -> Prop) :
  h !! a = Some (inj <$> xs) ->
  (forall l, h !! l = None -> Q l (<[l := inj <$> List.filter p xs]> h)) ->
  wp (Array_filter a p) h Q.
Proof.
  intros Ha HQ. apply wp_bind. eapply wp_load; [exact Ha|].
  now apply wp_alloc.
Qed.

Lemma wp_Array_spread (a : loc) (xs : list A) (h : heap)
    (Q : loc -> heap -> Prop) :
  h !! a = Some (inj <$> xs) ->
  (forall l, h !! l = None -> Q l (<[l := inj <$> xs]> h)) ->
  wp (Array_spread (A := A) a) h Q.
Proof.
  intros Ha HQ. apply wp_bind. eapply wp_load; [exact Ha|].
  now apply wp_alloc.
Qed.

Lemma wp_Array_sort (a : loc) (le : A -> A -> bool) (xs : list A) (h : heap)
    (Q : loc -> heap -> Prop) :
  h !! a = Some (inj <$> xs) ->
  Q a (<[a := inj <$> array_sort le xs]> h) ->
  wp (Array_sort a le) h Q.
Proof.
  intros Ha HQ. apply wp_bind. eapply wp_load; [exact Ha|].
  apply wp_bind. eapply wp_store; [exact Ha|].
  now apply wp_ret.
Qed.

Lemma wp_Array_push (a : loc) (x : A) (xs : list A) (h : heap)
    (Q : unit -> heap -> Prop) :
  h !! a = Some (inj <$> xs) ->
  Q tt (<[a := inj <$> (xs ++ [x])]> h) ->
  wp (Array_push a x) h Q.
Proof.
  intros Ha HQ. apply wp_bind. eapply wp_load; [exact Ha|].
  eapply wp_store; [exact Ha | exact HQ].
Qed.

Lemma wp_Array_length (a : loc) (xs : list A) (h : heap)
    (Q : Z -> heap -> Prop) :
  h !! a = Some (inj <$> xs) ->
  Q (Z.of_nat (length xs)) h ->
  wp (Array_length (A := A) a) h Q.
Proof.
  intros Ha HQ. apply wp_bind. eapply wp_load; [exact Ha|].
  now apply wp_ret.
Qed.

Lemma wp_Array_get (a : loc) (j : Z) (xs : list A) (h : heap)
    (Q : option A -> heap -> Prop) :
  h !! a = Some (inj <$> xs) ->
  Q (if j <? 0 then None else xs !! Z.to_nat j) h ->
  wp (Array_get a j) h Q.
Proof.
  intros Ha HQ. apply wp_bind. eapply wp_load; [exact Ha|].
  now apply wp_ret.
Qed.

Lemma wp_Array_sum (a : loc) (f : A -> Z) (xs : list A) (h : heap)
    (Q : Z -> heap -> Prop) :
  h !! a = Some (inj <$> xs) ->
  Q (sum_by f xs) h ->
  wp (Array_sum a f) h Q.
Proof.
  intros Ha HQ. apply wp_bind. eapply wp_load; [exact Ha|].
  now apply wp_ret.
Qed.
End HeapOps.

Lemma wp_Array_map {A B : Type} `{Elem A} `{Elem B} (a : loc) (f : A -> B)
    (xs : list A) (h : heap) (Q : loc -> heap -> Prop) :
  h !! a = Some (inj <$> xs) ->
  (forall l, h !! l = None -> Q l (<[l := inj <$> List.map f xs]> h)) ->
  wp (Array_map a f) h Q.
Proof.
  intros Ha HQ. apply wp_bind. eapply wp_load; [exact Ha|].
  now apply wp_alloc.
Qed.

(** ** The loops of the schedule generator on the heap *)

Lemma select_loop_unfold (fuel : nat) (bd : Z) (cand sel : loc) (j filled : Z) :
  select_loop fuel bd cand sel j filled
  = let* len := Array_length (A := Scored.t) cand in
    if j <? len then
      match fuel with
      | O => fail
      | S fuel' =>
          let* c := Array_get cand j in
          match c with
          | None => fail
          | Some candidate =>
              let est := Task.estimatedMinutes (Scored.task candidate) in
              if filled + est <=? bd then
                Array_push sel candidate;;
                let filled' := filled + est in
                if Qle_bool (inject_Z bd * 0.8) (inject_Z filled')
                then ret filled'
                else select_loop fuel' bd cand sel (j + 1) filled'
              else select_loop fuel' bd cand sel (j + 1) filled
          end
      end
    else ret filled.
Proof. destruct fuel; reflexivity. Qed.

(** The greedy pass on the heap reads [candidateTasks], writes only
    [selectedForBlock], and selects what [select_tasks] selects. *)
Lemma select_loop_run (fuel : nat) (bd : Z) (cand sel : loc)
    (cs : list Scored.t) :
  cand <> sel ->
  forall (j : Z) (ss : list Scored.t) (filled : Z) (h : heap),
    h !! cand = Some (inj <$> cs) ->
    h !! sel = Some (inj <$> ss) ->
    0 <= j ->
    (length cs <= fuel + Z.to_nat j)%nat ->
    wp (select_loop fuel bd cand sel j filled) h
      (fun filled' h' =>
         exists ss',
           select_tasks bd (drop (Z.to_nat j) cs) ss filled = (ss', filled')
           /\ h' = <[sel := inj <$> ss']> h).
Proof.
  intros Hne.
  induction fuel as [|fuel IH]; intros j ss filled h Hcand Hsel Hj Hfuel;
    rewrite select_loop_unfold; apply wp_bind;
    (eapply wp_Array_length; [exact Hcand|]).
  - rewrite (proj2 (Z.ltb_ge j _)) by lia.
    apply wp_ret. exists ss.
    rewrite drop_ge by lia. split; [reflexivity|].
    symmetry. now apply insert_id.
  - destruct (j <? Z.of_nat (length cs)) eqn:Hlt; cycle 1.
    { apply Z.ltb_ge in Hlt. apply wp_ret. exists ss.
      rewrite drop_ge by lia. split; [reflexivity|].
      symmetry. now apply insert_id. }
    apply Z.ltb_lt in Hlt.
    apply wp_bind. eapply wp_Array_get; [exact Hcand|].
    rewrite (proj2 (Z.ltb_ge j 0)) by lia.
    destruct (lookup_lt_is_Some_2 cs (Z.to_nat j)) as [c Hc]; [lia|].
    rewrite Hc, (drop_S _ _ _ Hc). simpl select_tasks. cbv zeta.
    replace (S (Z.to_nat j)) with (Z.to_nat (j + 1)) by lia.
    destruct (filled + _ <=? bd).
    + apply wp_bind. eapply wp_Array_push; [exact Hsel|].
      destruct (Qle_bool _ _).
      * apply wp_ret. eexists. split; reflexivity.
      * destruct (IH (j + 1) (ss ++ [c])
                    (filled + Task.estimatedMinutes (Scored.task c))
                    (<[sel := inj <$> (ss ++ [c])]> h))
          as (filled' & h' & Hrun & ss' & Hsel' & ->).
        -- now rewrite lookup_insert_ne by (intros E; apply Hne; now symmetry).
        -- apply lookup_insert_eq.
        -- lia.
        -- lia.
        -- eapply wp_run; [exact Hrun|].
           exists ss'. split; [exact Hsel'|]. apply insert_insert_eq.
    + apply IH; auto; lia.
Qed.

Lemma push_blockTasks_run (bt : loc) (selected : list Scored.t) :
  forall (idx : Z) (acc : list ScheduledTask.t) (h : heap),
    h !! bt = Some (inj <$> acc) ->
    wp (push_blockTasks bt idx selected) h
      (fun _ h' =>
         h' = <[bt := inj <$>
                  (acc ++ imap (fun k st =>
                                  ScheduledTask.mk (Scored.task st)
                                    (idx + Z.of_nat k)) selected)]> h).
Proof.
  induction selected as [|st rest IH]; intros idx acc h Hbt; simpl.
  - apply wp_ret. rewrite app_nil_r. symmetry. now apply insert_id.
  - apply wp_bind. eapply wp_Array_push; [exact Hbt|].
    destruct (IH (idx + 1) (acc ++ [ScheduledTask.mk (Scored.task st) idx])
                (<[bt := inj <$> (acc ++ [ScheduledTask.mk (Scored.task st) idx])]> h))
      as ([] & h' & Hrun & ->); [apply lookup_insert_eq|].
    eapply wp_run; [exact Hrun|].
    rewrite insert_insert_eq. do 2 f_equal.
    rewrite <- app_assoc. simpl. rewrite Z.add_0_r. do 2 f_equal.
    apply imap_ext. intros k x _. simpl. f_equal. lia.
Qed.

Lemma block_loop_unfold (fuel : nat) (bd br : Z) (eb : jsnum) (i : Z)
    (rl : loc) (t : option Z) (bl : loc) :
  block_loop fuel bd br eb i rl t bl
  = let* len := Array_length (A := Scored.t) rl in
    if js_lt i eb && (0 <? len) then
      match fuel with
      | O => fail
      | S fuel' =>
          let isLastBlock := js_is_pred i eb in
          let blockType := if isLastBlock then shallow_work else deep_work in
          let* blockTasks := alloc (A := ScheduledTask.t) [] in
          let* candidateTasks :=
            if isLastBlock then
              let* copy := Array_spread (A := Scored.t) rl in
              Array_sort copy by_difficulty
            else ret rl in
          let* selectedForBlock := alloc (A := Scored.t) [] in
          let* candidates := Array_length (A := Scored.t) candidateTasks in
          let* blockMinutesFilled :=
            select_loop (Z.to_nat candidates) bd
              candidateTasks selectedForBlock 0 0 in
          let* ids :=
            Array_map selectedForBlock (fun s => Task.id (Scored.task s)) in
          let* ids := load (A := string) ids in
          let selectedIds : gset string := list_to_set ids in
          let* remainingTasks' :=
            Array_filter rl
              (fun t => negb (bool_decide
                                (Task.id (Scored.task t) ∈ selectedIds))) in
          Array_sort selectedForBlock by_difficulty;;
          let* selected := load (A := Scored.t) selectedForBlock in
          push_blockTasks blockTasks 0 selected;;
          let* n := Array_length (A := ScheduledTask.t) blockTasks in
          if n =? 0 then
            block_loop fuel' bd br eb (i + 1) remainingTasks' t bl
          else
            Array_push bl
              (HeapBlock.mk (i + 1) (formatTime t)
                 (formatTime (advance t bd)) blockType
                 blockTasks blockMinutesFilled);;
            block_loop fuel' bd br eb (i + 1) remainingTasks'
              (advance (advance t bd) br) bl
      end
    else ret tt.
Proof. destruct fuel; reflexivity. Qed.

(** Lines 88-90: the candidates are the pool itself, or a sorted copy of
    it; the pool is not written. *)
Lemma wp_candidateTasks (isLastBlock : bool) (rl : loc)
    (rem : list Scored.t) (h : heap) (Q : loc -> heap -> Prop) :
  h !! rl = Some (inj <$> rem) ->
  (forall cand hc,
     hc !! cand
     = Some (inj <$> (if isLastBlock
                      then array_sort by_difficulty rem else rem)) ->
     (forall l v, h !! l = Some v -> hc !! l = Some v) ->
     Q cand hc) ->
  wp (if isLastBlock
      then let* copy := Array_spread (A := Scored.t) rl in
           Array_sort copy by_difficulty
      else ret rl) h Q.
Proof.
  intros Hrl HQ. destruct isLastBlock.
  - apply wp_bind. eapply wp_Array_spread; [exact Hrl|].
    intros copy Hcopy.
    eapply wp_Array_sort; [apply lookup_insert_eq|].
    apply HQ.
    + apply lookup_insert_eq.
    + intros l v Hl. rewrite insert_insert_eq.
      rewrite lookup_insert_ne by congruence. exact Hl.
  - apply wp_ret. apply HQ; auto.
Qed.

Lemma read_block_frame (h h' : heap) (b : HeapBlock.t)
    (sb : ScheduledBlock.t) :
  (forall v, h !! HeapBlock.tasks b = Some v ->
             h' !! HeapBlock.tasks b = Some v) ->
  read_block h b = Some sb -> read_block h' b = Some sb.
Proof.
  unfold read_block. intros Hframe E.
  destruct (h !! HeapBlock.tasks b) as [vs|] eqn:Hvs; [|discriminate].
  now rewrite (Hframe vs eq_refl).
Qed.

Lemma read_blocks_frame (h h' : heap) (bl : loc) (hbs : list HeapBlock.t)
    (acc : list ScheduledBlock.t) :
  (forall l v, l <> bl -> h !! l = Some v -> h' !! l = Some v) ->
  Forall (fun b => HeapBlock.tasks b <> bl) hbs ->
  mapM (read_block h) hbs = Some acc ->
  mapM (read_block h') hbs = Some acc.
Proof.
  intros Hframe Hne. rewrite !mapM_Some.
  intros Hall. revert Hne.
  induction Hall as [|b sb hbs acc Hb _ IH]; intros Hne; [constructor|].
  apply Forall_cons_1 in Hne as [Hb' Hne].
  constructor; [|now apply IH].
  eapply read_block_frame; [|exact Hb].
  intros v. now apply Hframe.
Qed.

(** The loop over the blocks on the heap: it emits what [schedule_loop]
    emits, and of the arrays that exist when it starts it writes only
    [blocks]. *)
Lemma block_loop_run (fuel : nat) (bd br : Z) (eb : jsnum) (bl : loc) :
  forall (i : Z) (rl : loc) (rem : list Scored.t) (t : option Z)
         (hbs : list HeapBlock.t) (acc out : list ScheduledBlock.t)
         (h : heap),
    h !! rl = Some (inj <$> rem) ->
    h !! bl = Some (inj <$> hbs) ->
    Forall (fun b => HeapBlock.tasks b <> bl) hbs ->
    mapM (read_block h) hbs = Some acc ->
    schedule_loop fuel bd br eb i rem t acc = Some out ->
    wp (block_loop fuel bd br eb i rl t bl) h
      (fun _ h' =>
         (forall l v, l <> bl -> h !! l = Some v -> h' !! l = Some v)
         /\ exists hbs',
              h' !! bl = Some (inj <$> hbs')
              /\ mapM (read_block h') hbs' = Some out).
Proof.
  induction fuel as [|fuel IH];
    intros i rl rem t hbs acc out h Hrl Hbl Hbne Hacc Hpure;
    rewrite block_loop_unfold; apply wp_bind;
    (eapply wp_Array_length; [exact Hrl|]).
  - simpl in Hpure. destruct (_ && _); [discriminate|].
    injection Hpure as <-. apply wp_ret. split; [auto|]. eauto.
  - rewrite schedule_loop_S in Hpure.
    destruct (js_lt i eb && _); cycle 1.
    { injection Hpure as <-. apply wp_ret. split; [auto|]. eauto. }
    cbv zeta in Hpure |- *.
    (* const blockTasks = [] *)
    apply wp_bind. apply wp_alloc. intros bt Hbt.
    (* const candidateTasks = ... *)
    apply wp_bind. eapply wp_candidateTasks.
    { rewrite lookup_insert_ne by congruence. exact Hrl. }
    intros cand hc Hcand Hhc.
    set (cands := if js_is_pred i eb
                  then array_sort by_difficulty rem else rem) in *.
    assert (Hframe_c : forall l v, h !! l = Some v -> hc !! l = Some v).
    { intros l v Hl. apply Hhc.
      rewrite lookup_insert_ne by congruence. exact Hl. }
    assert (Hbt_c : hc !! bt = Some (inj <$> ([] : list ScheduledTask.t))).
    { apply Hhc, lookup_insert_eq. }
    assert (Hrl_c : hc !! rl = Some (inj <$> rem)) by now apply Hframe_c.
    assert (Hbl_c : hc !! bl = Some (inj <$> hbs)) by now apply Hframe_c.
    (* const selectedForBlock = [] *)
    apply wp_bind. apply wp_alloc. intros sel Hsel.
    apply wp_bind. eapply wp_Array_length.
    { rewrite lookup_insert_ne by congruence. exact Hcand. }
    (* the greedy pass *)
    destruct (select_tasks bd cands [] 0) as [selected filled] eqn:Hselect.
    simpl fst in Hpure; simpl snd in Hpure.
    apply wp_bind.
    destruct (select_loop_run (Z.to_nat (Z.of_nat (length cands))) bd cand sel
                cands ltac:(congruence) 0 [] 0
                (<[sel := inj <$> ([] : list Scored.t)]> hc))
      as (filled' & h1 & Hrun & ss' & Hss' & ->).
    { rewrite lookup_insert_ne by congruence. exact Hcand. }
    { apply lookup_insert_eq. }
    { lia. }
    { lia. }
    change (Z.to_nat 0) with 0%nat in Hss'. rewrite drop_0 in Hss'.
    rewrite Hselect in Hss'. injection Hss' as <- <-.
    eapply wp_run; [exact Hrun|]. clear Hrun.
    rewrite insert_insert_eq.
    (* new Set(selectedForBlock.map(...)) *)
    apply wp_bind. eapply wp_Array_map; [apply lookup_insert_eq|].
    intros ids Hids.
    assert (Hne_ids_sel : ids <> sel).
    { intros ->. rewrite lookup_insert_eq in Hids. discriminate. }
    assert (Hids_c : hc !! ids = None).
    { rewrite lookup_insert_ne in Hids by congruence. exact Hids. }
    apply wp_bind. eapply wp_load; [apply lookup_insert_eq|].
    (* remainingTasks = remainingTasks.filter(...) *)
    apply wp_bind. eapply wp_Array_filter.
    { rewrite !lookup_insert_ne by congruence. exact Hrl_c. }
    intros rl' Hrl'.
    assert (Hne_rl'_ids : rl' <> ids).
    { intros ->. rewrite lookup_insert_eq in Hrl'. discriminate. }
    assert (Hne_rl'_sel : rl' <> sel).
    { intros ->. rewrite lookup_insert_ne, lookup_insert_eq in Hrl' by congruence.
      discriminate. }
    assert (Hrl'_c : hc !! rl' = None).
    { rewrite !lookup_insert_ne in Hrl' by congruence. exact Hrl'. }
    fold (remove_selected selected rem).
    (* selectedForBlock.sort(...) *)
    apply wp_bind. eapply wp_Array_sort.
    { rewrite !lookup_insert_ne by congruence. apply lookup_insert_eq. }
    apply wp_bind. eapply wp_load; [apply lookup_insert_eq|].
    (* selectedForBlock.forEach(...) *)
    apply wp_bind.
    set (h2 := <[sel := _]> (<[rl' := _]> _)).
    assert (Hne_sel_bt : sel <> bt) by congruence.
    assert (Hne_ids_bt : ids <> bt) by congruence.
    assert (Hne_rl'_bt : rl' <> bt) by congruence.
    assert (Hh2_frame : forall l v, hc !! l = Some v -> l <> sel ->
                                    h2 !! l = Some v).
    { intros l v Hl Hlsel. subst h2.
      rewrite lookup_insert_ne by congruence.
      rewrite lookup_insert_ne by congruence.
      rewrite lookup_insert_ne by congruence.
      rewrite lookup_insert_ne by congruence. exact Hl. }
    destruct (push_blockTasks_run bt (array_sort by_difficulty selected) 0 [] h2)
      as ([] & h3 & Hrun & ->).
    { apply Hh2_frame; [exact Hbt_c | congruence]. }
    eapply wp_run; [exact Hrun|]. clear Hrun.
    simpl app.
    replace (imap _ (array_sort by_difficulty selected))
      with (to_blockTasks (array_sort by_difficulty selected))
      by (unfold to_blockTasks; apply imap_ext; intros; f_equal).
    apply wp_bind. eapply wp_Array_length; [apply lookup_insert_eq|].
    set (h3 := <[bt := _]> h2).
    assert (Hh3_frame : forall l v, h !! l = Some v -> h3 !! l = Some v).
    { intros l v Hl. subst h3.
      rewrite lookup_insert_ne by congruence.
      apply Hh2_frame; [now apply Hframe_c|].
      apply Hframe_c in Hl. congruence. }
    assert (Hrl'_3 : h3 !! rl' = Some (inj <$> remove_selected selected rem)).
    { subst h3 h2.
      rewrite lookup_insert_ne by congruence.
      rewrite lookup_insert_ne by congruence.
      apply lookup_insert_eq. }
    destruct (Z.of_nat (length (to_blockTasks _)) =? 0) eqn:Hn.
    + (* no block *)
      destruct (IH (i + 1) rl' (remove_selected selected rem) t hbs acc out h3)
        as ([] & h' & Hrun & Hframe' & hbs' & Hbl' & Hout); auto.
      { eapply read_blocks_frame; [|exact Hbne|exact Hacc].
        intros l v _. apply Hh3_frame. }
      eapply wp_run; [exact Hrun|].
      split; [|eauto].
      intros l v Hl Hv. apply Hframe'; auto.
    + (* blocks.push(...) *)
      apply wp_bind. eapply wp_Array_push; [apply Hh3_frame; exact Hbl|].
      set (hb := HeapBlock.mk _ _ _ _ _ _).
      set (h4 := <[bl := _]> h3).
      assert (Hne_bt_bl : bt <> bl) by congruence.
      assert (Hne_rl'_bl : rl' <> bl) by congruence.
      match type of Hpure with
      | schedule_loop _ _ _ _ _ _ _ (acc ++ [?b]) = _ => set (sb := b) in *
      end.
      destruct (IH (i + 1) rl' (remove_selected selected rem)
                  (advance (advance t bd) br) (hbs ++ [hb]) (acc ++ [sb])
                  out h4)
        as ([] & h' & Hrun & Hframe' & hbs' & Hbl' & Hout); auto.
      { subst h4. rewrite lookup_insert_ne by congruence. exact Hrl'_3. }
      { subst h4. apply lookup_insert_eq. }
      { apply Forall_app. split; [exact Hbne|].
        constructor; [exact Hne_bt_bl | constructor]. }
      { apply mapM_Some. apply Forall2_app.
        - apply mapM_Some.
          eapply read_blocks_frame; [|exact Hbne|exact Hacc].
          intros l v Hl Hv. subst h4.
          rewrite lookup_insert_ne by congruence. now apply Hh3_frame.
        - constructor; [|constructor].
          unfold read_block. subst h4 h3 hb.
          cbn [HeapBlock.tasks HeapBlock.blockNumber HeapBlock.startTime
               HeapBlock.endTime HeapBlock.blockType HeapBlock.totalMinutes].
          rewrite lookup_insert_ne by congruence.
          rewrite lookup_insert_eq, mapM_proj_inj. reflexivity. }
      eapply wp_run; [exact Hrun|].
      split; [|eauto].
      intros l v Hl Hv. apply Hframe'; auto.
      subst h4. rewrite lookup_insert_ne by congruence. now apply Hh3_frame.
Qed.

(** [generateDailySchedule] on the heap returns the schedule of the
    functional model and leaves every array of the initial heap, the
    caller's [pendingTasks] among them, as it was. *)
Lemma generateDailySchedule_heap_run (fuel : nat) (pendingTasks : loc)
    (tasks : list Task.t) (config : ScheduleConfig.t)
    (blocks : list ScheduledBlock.t) (h : heap) :
  h !! pendingTasks = Some (inj <$> tasks) ->
  generateDailySchedule fuel tasks config = Some blocks ->
  wp (generateDailySchedule_heap fuel pendingTasks config) h
    (fun r h' =>
       (forall l v, h !! l = Some v -> h' !! l = Some v)
       /\ read_blocks h' r = Some blocks).
Proof.
  intros Hpt Hpure.
  unfold generateDailySchedule_heap, generateDailySchedule in *.
  cbv zeta. apply wp_bind. eapply wp_Array_length; [exact Hpt|].
  destruct (Z.of_nat (length tasks) =? 0).
  - injection Hpure as <-. apply wp_alloc. intros r Hr. split.
    + intros l v Hl. rewrite lookup_insert_ne by congruence. exact Hl.
    + unfold read_blocks. rewrite lookup_insert_eq. reflexivity.
  - apply wp_bind. eapply wp_Array_filter; [exact Hpt|].
    intros filtered Hfiltered.
    apply wp_bind. eapply wp_Array_map; [apply lookup_insert_eq|].
    intros mapped Hmapped.
    assert (Hne_mf : mapped <> filtered).
    { intros ->. rewrite lookup_insert_eq in Hmapped. discriminate. }
    assert (Hmapped_h : h !! mapped = None).
    { rewrite lookup_insert_ne in Hmapped by congruence. exact Hmapped. }
    apply wp_bind. eapply wp_Array_sort; [apply lookup_insert_eq|].
    rewrite insert_insert_eq.
    fold (scoredTasks tasks (ScheduleConfig.calibration config)).
    apply wp_bind. apply wp_alloc. intros bl Hbl.
    assert (Hne_bm : bl <> mapped).
    { intros ->. rewrite lookup_insert_eq in Hbl. discriminate. }
    assert (Hne_bf : bl <> filtered).
    { intros ->. rewrite lookup_insert_ne, lookup_insert_eq in Hbl by congruence.
      discriminate. }
    assert (Hbl_h : h !! bl = None).
    { rewrite !lookup_insert_ne in Hbl by congruence. exact Hbl. }
    apply wp_bind. eapply wp_Array_spread.
    { rewrite lookup_insert_ne by congruence. apply lookup_insert_eq. }
    intros rl Hrl.
    assert (Hne_rb : rl <> bl).
    { intros ->. rewrite lookup_insert_eq in Hrl. discriminate. }
    assert (Hne_rm : rl <> mapped).
    { intros ->. rewrite lookup_insert_ne, lookup_insert_eq in Hrl by congruence.
      discriminate. }
    assert (Hne_rf : rl <> filtered).
    { intros ->.
      rewrite lookup_insert_ne, lookup_insert_ne, lookup_insert_eq in Hrl
        by congruence.
      discriminate. }
    assert (Hrl_h : h !! rl = None).
    { rewrite !lookup_insert_ne in Hrl by congruence. exact Hrl. }
    apply wp_bind.
    set (h1 := <[rl := _]> _).
    destruct (block_loop_run fuel
                (ScheduleConfig.blockDurationMinutes config)
                (ScheduleConfig.breakDurationMinutes config)
                (effectiveBlocks config) bl 0 rl
                (scoredTasks tasks (ScheduleConfig.calibration config))
                (parseTime (ScheduleConfig.startTime config))
                [] [] blocks h1)
      as ([] & h' & Hrun & Hframe & hbs & Hbl' & Hout); auto.
    { subst h1. apply lookup_insert_eq. }
    { subst h1. rewrite lookup_insert_ne by congruence. apply lookup_insert_eq. }
    eapply wp_run; [exact Hrun|].
    apply wp_ret. split.
    + intros l v Hl. apply Hframe; [congruence|]. subst h1.
      rewrite !lookup_insert_ne by congruence. exact Hl.
    + unfold read_blocks. now rewrite Hbl', mapM_proj_inj.
Qed.

(** ** The calibration on the heap *)

(** The allocating and the writing operations, with the heaps they give
    described by what they hold. *)
Section HeapFrames.
Context {A : Type} `{Elem A}.

Lemma wp_Array_filter_fresh (a : loc) (p : A -> bool) (xs : list A)
    (h : heap) (Q : loc -> heap -> Prop) :
  h !! a = Some (inj <$> xs) ->
  (forall l h',
     h !! l = None ->
     h' !! l = Some (inj <$> List.filter p xs) ->
     (forall x v, h !! x = Some v -> h' !! x = Some v) ->
     Q l h') ->
  wp (Array_filter a p) h Q.
Proof.
  intros Ha HQ. eapply wp_Array_filter; [exact Ha|].
  intros l Hl. apply HQ; [exact Hl | apply lookup_insert_eq |].
  intros x v Hx. rewrite lookup_insert_ne by congruence. exact Hx.
Qed.

Lemma wp_Array_spread_fresh (a : loc) (xs : list A)
    (h : heap) (Q : loc -> heap -> Prop) :
  h !! a = Some (inj <$> xs) ->
  (forall l h',
     h !! l = None ->
     h' !! l = Some (inj <$> xs) ->
     (forall x v, h !! x = Some v -> h' !! x = Some v) ->
     Q l h') ->
  wp (Array_spread (A := A) a) h Q.
Proof.
  intros Ha HQ. eapply wp_Array_spread; [exact Ha|].
  intros l Hl. apply HQ; [exact Hl | apply lookup_insert_eq |].
  intros x v Hx. rewrite lookup_insert_ne by congruence. exact Hx.
Qed.

Lemma wp_Array_sort_local (a : loc) (le : A -> A -> bool) (xs : list A)
    (h : heap) (Q : loc -> heap -> Prop) :
  h !! a = Some (inj <$> xs) ->
  (forall h',
     h' !! a = Some (inj <$> array_sort le xs) ->
     (forall x v, x <> a -> h !! x = Some v -> h' !! x = Some v) ->
     Q a h') ->
  wp (Array_sort a le) h Q.
Proof.
  intros Ha HQ. eapply wp_Array_sort; [exact Ha|].
  apply HQ; [apply lookup_insert_eq|].
  intros x v Hx Hv. rewrite lookup_insert_ne by congruence. exact Hv.
Qed.
End HeapFrames.

Lemma wp_Array_map_fresh {A B : Type} `{Elem A} `{Elem B} (a : loc)
    (f : A -> B) (xs : list A) (h : heap) (Q : loc -> heap -> Prop) :
  h !! a = Some (inj <$> xs) ->
  (forall l h',
     h !! l = None ->
     h' !! l = Some (inj <$> List.map f xs) ->
     (forall x v, h !! x = Some v -> h' !! x = Some v) ->
     Q l h') ->
  wp (Array_map a f) h Q.
Proof.
  intros Ha HQ. eapply wp_Array_map; [exact Ha|].
  intros l Hl. apply HQ; [exact Hl | apply lookup_insert_eq |].
  intros x v Hx. rewrite lookup_insert_ne by congruence. exact Hx.
Qed.

Lemma rem_2_mod_2 (n : nat) :
  (Z.rem (Z.of_nat n) 2 =? 0) = (Nat.modulo n 2 =? 0)%nat.
Proof.
  rewrite Z.rem_mod_nonneg by lia.
  change 2 with (Z.of_nat 2). rewrite <- Nat2Z.inj_mod.
  destruct (Nat.eqb_spec (n mod 2) 0) as [E|E].
  - rewrite E. reflexivity.
  - apply Z.eqb_neq. lia.
Qed.

Lemma get_default_nth (s : list Z) (k : Z) :
  0 <= k ->
  default 0 (if k <? 0 then None else s !! Z.to_nat k) = nth (Z.to_nat k) s 0.
Proof.
  intros Hk. rewrite (proj2 (Z.ltb_ge k 0)) by lia.
  now rewrite nth_lookup.
Qed.

Section HeapCalibrationFacts.
Context `{Host}.

(** The median read through [a[j]] is the median of the functional
    model. *)
Lemma median_by_index (s : list Z) :
  let n := Z.of_nat (length s) in
  let get (k : Z) : Z :=
    default 0 (if k <? 0 then None else s !! Z.to_nat k) in
  let at_index (i : nat) : Z := nth i s 0 in
  (if Z.rem n 2 =? 0
   then ((inject_Z (get (n / 2 - 1)%Z) + inject_Z (get (n / 2)%Z)) / 2)%Q
   else inject_Z (get (n / 2)))
  = (if (Nat.modulo (length s) 2 =? 0)%nat
     then ((inject_Z (at_index (length s / 2 - 1)%nat)
            + inject_Z (at_index (length s / 2)%nat)) / 2)%Q
     else inject_Z (at_index (length s / 2)%nat)).
Proof.
  cbv zeta. rewrite rem_2_mod_2.
  assert (Hmid : Z.of_nat (length s) / 2 = Z.of_nat (length s / 2)).
  { change 2 with (Z.of_nat 2). now rewrite Nat2Z.inj_div. }
  rewrite Hmid, (get_default_nth s (Z.of_nat (length s / 2))) by lia.
  rewrite Nat2Z.id.
  destruct (Nat.eqb_spec (length s `mod` 2) 0) as [Eeven|Eodd];
    [|reflexivity].
  destruct (length s / 2)%nat as [|k] eqn:Ek.
  - pose proof (Nat.div_mod_eq (length s) 2) as Hdm.
    rewrite !nth_overflow by lia. reflexivity.
  - replace (Z.of_nat (S k) - 1) with (Z.of_nat k) by lia.
    rewrite (get_default_nth s (Z.of_nat k)) by lia.
    rewrite Nat2Z.id. now replace (S k - 1)%nat with k by lia.
Qed.

Lemma wp_median_heap (justRightTasks : loc)
    (g : list FeedbackWithDifficulty.t) (h : heap) (Q : Q -> heap -> Prop) :
  h !! justRightTasks = Some (inj <$> g) ->
  (forall h',
     (forall x v, h !! x = Some v -> h' !! x = Some v) ->
     Q (median_difficulty g) h') ->
  wp (median_heap justRightTasks) h Q.
Proof.
  intros Hg HQ. unfold median_heap.
  apply wp_bind. eapply wp_Array_map_fresh; [exact Hg|].
  intros mapped h1 Hfresh Hmapped Hext.
  apply wp_bind. eapply wp_Array_sort_local; [exact Hmapped|].
  intros h2 Hsorted Hext2.
  assert (Hframe : forall x v, h !! x = Some v -> h2 !! x = Some v).
  { intros x v Hx. apply Hext2; [congruence | now apply Hext]. }
  specialize (HQ h2 Hframe). unfold median_difficulty in HQ.
  cbv zeta in HQ. rewrite <- median_by_index in HQ. cbv zeta in HQ.
  apply wp_bind. eapply wp_Array_length; [exact Hsorted|].
  cbv zeta.
  destruct (Z.rem _ 2 =? 0).
  - apply wp_bind. eapply wp_Array_get; [exact Hsorted|].
    apply wp_bind. eapply wp_Array_get; [exact Hsorted|].
    apply wp_ret. exact HQ.
  - apply wp_bind. eapply wp_Array_get; [exact Hsorted|].
    apply wp_ret. exact HQ.
Qed.

Lemma wp_mean_heap (group : loc) (d : Q)
    (g : list FeedbackWithDifficulty.t) (h : heap) (Q : Q -> heap -> Prop) :
  h !! group = Some (inj <$> g) ->
  Q (if 0 <? Z.of_nat (length g)
     then round53
            (mean_of (sum_by FeedbackWithDifficulty.taskDifficulty g)
               (length g))
     else d) h ->
  wp (mean_heap group d) h Q.
Proof.
  intros Hg HQ. unfold mean_heap.
  apply wp_bind. eapply wp_Array_length; [exact Hg|].
  destruct (0 <? Z.of_nat (length g)).
  - apply wp_bind. eapply wp_Array_sum; [exact Hg|].
    now apply wp_ret.
  - now apply wp_ret.
Qed.

(** [computeCalibrationProfile] on the heap returns the profile of the
    functional model and leaves every array of the initial heap, the
    caller's two arrays among them, as it was. *)
Lemma computeCalibrationProfile_heap_run (feedbackEntries dailyPlanData : loc)
    (entries : list FeedbackWithDifficulty.t)
    (plans : list DailyPlanSummary.t) (h : heap) :
  h !! feedbackEntries = Some (inj <$> entries) ->
  h !! dailyPlanData = Some (inj <$> plans) ->
  wp (computeCalibrationProfile_heap feedbackEntries dailyPlanData) h
    (fun profile h' =>
       profile = computeCalibrationProfile entries plans
       /\ forall l v, h !! l = Some v -> h' !! l = Some v).
Proof.
  intros Hfe Hdp.
  unfold computeCalibrationProfile_heap, computeCalibrationProfile.
  apply wp_bind. eapply wp_Array_length; [exact Hfe|].
  destruct (Z.of_nat (length entries) <? 3).
  { apply wp_ret. split; [reflexivity | auto]. }
  apply wp_bind. eapply wp_Array_filter_fresh; [exact Hfe|].
  intros jr h1 _ Hjr Hext1.
  apply wp_bind. eapply wp_Array_filter_fresh; [apply Hext1, Hfe|].
  intros te h2 _ Hte Hext2.
  apply wp_bind. eapply wp_Array_filter_fresh; [apply Hext2, Hext1, Hfe|].
  intros th h3 _ Hth Hext3.
  assert (Hext : forall l v, h !! l = Some v -> h3 !! l = Some v) by auto.
  apply wp_bind. eapply wp_Array_length; [apply Hext3, Hext2, Hjr|].
  apply wp_bind.
  unfold raw_skillLevel. cbv zeta.
  pose (skill :=
    if 0 <? Z.of_nat (length (List.filter (has_rating just_right) entries))
    then median_difficulty (List.filter (has_rating just_right) entries)
    else
      round53
        (round53
           ((if 0 <? Z.of_nat (length (List.filter (has_rating too_easy)
                                         entries))
             then round53
                    (mean_of
                       (sum_by FeedbackWithDifficulty.taskDifficulty
                          (List.filter (has_rating too_easy) entries))
                       (length (List.filter (has_rating too_easy) entries)))
             else 3)
            + (if 0 <? Z.of_nat (length (List.filter (has_rating too_hard)
                                           entries))
               then round53
                      (mean_of
                         (sum_by FeedbackWithDifficulty.taskDifficulty
                            (List.filter (has_rating too_hard) entries))
                         (length (List.filter (has_rating too_hard) entries)))
               else 7)) / 2)%Q).
  assert (Hskill :
    forall Q : Q -> heap -> Prop,
      (forall h', (forall l v, h !! l = Some v -> h' !! l = Some v) ->
                  Q skill h') ->
      wp (if 0 <? Z.of_nat (length (List.filter (has_rating just_right)
                                      entries))
          then median_heap jr
          else let* easyAvg := mean_heap te 3 in
               let* hardAvg := mean_heap th 7 in
               ret (round53 (round53 (easyAvg + hardAvg) / 2))%Q) h3 Q).
  { intros Q HQ. subst skill.
    destruct (0 <? Z.of_nat (length (List.filter (has_rating just_right)
                                       entries))).
    - eapply wp_median_heap; [apply Hext3, Hext2, Hjr|].
      intros h' Hh'. apply HQ. auto.
    - apply wp_bind. eapply wp_mean_heap; [apply Hext3, Hte|].
      apply wp_bind. eapply wp_mean_heap; [exact Hth|].
      apply wp_ret. now apply HQ. }
  apply Hskill. clear Hskill. intros h4 Hext4.
  apply wp_bind. eapply wp_load; [apply Hext4, Hdp|].
  apply wp_bind. eapply wp_Array_filter_fresh; [apply Hext4, Hdp|].
  intros dwp h5 _ Hdwp Hext5.
  apply wp_bind. eapply wp_Array_length; [exact Hdwp|].
  apply wp_bind.
  pose (avg :=
    if 0 <? Z.of_nat (length (List.filter
              (fun p => truthy (DailyPlanSummary.hoursRequested p)) plans))
    then mean_of
           (sum_by (fun p => default 0 (DailyPlanSummary.hoursRequested p))
              (List.filter
                 (fun p => truthy (DailyPlanSummary.hoursRequested p)) plans))
           (length (List.filter
              (fun p => truthy (DailyPlanSummary.hoursRequested p)) plans))
    else 0%Q).
  assert (Havg :
    forall Q : Q -> heap -> Prop,
      Q avg h5 ->
      wp (if 0 <? Z.of_nat (length (List.filter
                (fun p => truthy (DailyPlanSummary.hoursRequested p)) plans))
          then let* sum :=
                 Array_sum dwp
                   (fun p => default 0 (DailyPlanSummary.hoursRequested p)) in
               ret (inject_Z sum
                    / inject_Z (Z.of_nat (length (List.filter
                        (fun p => truthy (DailyPlanSummary.hoursRequested p))
                        plans))))%Q
          else ret 0%Q) h5 Q).
  { intros Q HQ. subst avg.
    destruct (0 <? Z.of_nat (length (List.filter _ plans))).
    - apply wp_bind. eapply wp_Array_sum; [exact Hdwp|]. now apply wp_ret.
    - now apply wp_ret. }
  apply Havg. clear Havg.
  apply wp_bind. eapply wp_Array_spread_fresh; [apply Hext5, Hext4, Hdp|].
  intros copy h6 _ Hcopy Hext6.
  apply wp_bind. eapply wp_Array_filter_fresh; [exact Hcopy|].
  intros done h7 Hdone_fresh Hdone Hext7.
  apply wp_bind. eapply wp_Array_sort_local; [exact Hdone|].
  intros h8 Hsorted Hext8.
  apply wp_bind. eapply wp_load; [exact Hsorted|].
  apply wp_ret. split; [reflexivity|].
  intros l v Hl.
  assert (Hl6 : h6 !! l = Some v) by auto.
  apply Hext8; [congruence | auto].
Qed.
End HeapCalibrationFacts.

(** ** The tasks of a schedule are tasks of the input *)

Lemma schedule_loop_from_input (pool : list Task.t) (fuel : nat) (bd br : Z)
    (eb : jsnum) (i : Z) (rem : list Scored.t) (t : option Z)
    (acc out : list ScheduledBlock.t) :
  Forall (fun s => In (Scored.task s) pool) rem ->
  Forall (from_input pool) acc ->
  schedule_loop fuel bd br eb i rem t acc = Some out ->
  Forall (from_input pool) out.
Proof.
  revert i rem t acc.
  induction fuel as [|fuel IH]; intros i rem t acc Hrem Hacc E.
  - simpl in E. destruct (_ && _); [discriminate|]. now injection E as <-.
  - rewrite schedule_loop_S in E.
    destruct (_ && _); [|now injection E as <-].
    cbv zeta in E.
    set (cands := if js_is_pred i eb
                  then array_sort by_difficulty rem else rem) in *.
    assert (Hcands : Forall (fun s => In (Scored.task s) pool) cands).
    { subst cands. destruct (js_is_pred i eb); [|exact Hrem].
      now rewrite array_sort_perm. }
    destruct (select_tasks bd cands [] 0) as [sel filled] eqn:Hsel.
    simpl fst in E; simpl snd in E.
    apply select_tasks_spec in Hsel as (_ & _ & added & -> & Hsub); auto.
    simpl app in *.
    assert (Hadded : Forall (fun s => In (Scored.task s) pool) added).
    { apply Forall_forall. intros s Hs.
      eapply elem_of_sublist in Hs; [|exact Hsub].
      revert s Hs. now apply Forall_forall. }
    assert (Hrem' : Forall (fun s => In (Scored.task s) pool)
                      (remove_selected added rem)).
    { unfold remove_selected. rewrite List.Forall_forall in Hrem |- *.
      intros s Hs. apply List.filter_In in Hs as [Hs _]. now apply Hrem. }
    destruct (_ =? 0); [now apply IH in E|].
    apply IH in E; auto.
    apply Forall_app. split; [exact Hacc|].
    constructor; [|constructor].
    unfold from_input. simpl.
    apply List.Forall_forall. intros st Hst.
    apply (List.in_map ScheduledTask.task) in Hst.
    rewrite to_blockTasks_task in Hst.
    apply List.in_map_iff in Hst as (s & <- & Hs).
    rewrite List.Forall_forall in Hadded. apply Hadded.
    apply list_elem_of_In. rewrite <- (array_sort_perm by_difficulty added).
    now apply list_elem_of_In.
Qed.

Lemma generateDailySchedule_from_input (fuel : nat)
    (pendingTasks : list Task.t) (config : ScheduleConfig.t)
    (blocks : list ScheduledBlock.t) :
  generateDailySchedule fuel pendingTasks config = Some blocks ->
  Forall (from_input pendingTasks) blocks.
Proof.
  unfold generateDailySchedule. destruct (_ =? 0).
  - intros [= <-]. constructor.
  - apply schedule_loop_from_input; [|constructor].
    unfold scoredTasks. rewrite array_sort_perm.
    apply List.Forall_forall. intros s Hs.
    apply List.in_map_iff in Hs as (task & <- & Htask).
    now apply List.filter_In in Htask as [Htask _].
Qed.

(** C9.  Neither entry point writes to an array it was handed: run on a
    heap, [generateDailySchedule] returns the schedule of the functional
    model, whose tasks are tasks of the input, and
    [computeCalibrationProfile] returns its profile, and every array of
    the heap they started from (the task list, the feedback entries, the
    daily plans) holds afterwards what it held before.  All sorting
    happens on arrays allocated during the call. *)
Theorem inputs_unchanged `{Host} (h : heap) :
  (forall fuel pendingTasks tasks config blocks,
     h !! pendingTasks = Some (inj <$> tasks) ->
     generateDailySchedule fuel tasks config = Some blocks ->
     exists r h',
       generateDailySchedule_heap fuel pendingTasks config h = Some (r, h')
       /\ read_blocks h' r = Some blocks
       /\ Forall (from_input tasks) blocks
       /\ forall l v, h !! l = Some v -> h' !! l = Some v)
  /\ (forall feedbackEntries dailyPlanData entries plans,
        h !! feedbackEntries = Some (inj <$> entries) ->
        h !! dailyPlanData = Some (inj <$> plans) ->
        exists h',
          computeCalibrationProfile_heap feedbackEntries dailyPlanData h
          = Some (computeCalibrationProfile entries plans, h')
          /\ forall l v, h !! l = Some v -> h' !! l = Some v).
Proof.
  split.
  - intros fuel pendingTasks tasks config blocks Hpt Hpure.
    destruct (generateDailySchedule_heap_run fuel pendingTasks tasks config
                blocks h Hpt Hpure) as (r & h' & Hrun & Hframe & Hread).
    exists r, h'. repeat split; auto.
    now apply generateDailySchedule_from_input in Hpure.
  - intros feedbackEntries dailyPlanData entries plans Hfe Hdp.
    destruct (computeCalibrationProfile_heap_run feedbackEntries dailyPlanData
                entries plans h Hfe Hdp) as (p & h' & Hrun & -> & Hframe).
    exists h'. split; [exact Hrun | exact Hframe].
Qed.

Lemma inputs_unchanged_witness :
  (exists r h',
     generateDailySchedule_heap 3 1%positive (a_config 8 120 15) a_heap
     = Some (r, h')
     /\ read_blocks h' r = Some five_tasks_blocks
     /\ Forall (from_input five_tasks) five_tasks_blocks
     /\ forall l v, a_heap !! l = Some v -> h' !! l = Some v)
  /\ (exists h',
        computeCalibrationProfile_heap (H := day_count_host)
          2%positive 3%positive a_heap
        = Some (computeCalibrationProfile (H := day_count_host)
                  [a_feedback (Some just_right) 4;
                   a_feedback (Some too_easy) 2;
                   a_feedback (Some just_right) 6]
                  [a_plan "19700" (Some 6) (Some 4) true;
                   a_plan "19701" (Some 4) None true], h')
        /\ forall l v, a_heap !! l = Some v -> h' !! l = Some v).
Proof.
  destruct (inputs_unchanged (H := day_count_host) a_heap) as [Hgen Hcal].
  split.
  - apply (Hgen 3%nat 1%positive five_tasks (a_config 8 120 15)).
    + reflexivity.
    + exact five_tasks_schedule.
  - apply Hcal; reflexivity.
Defined.

(** * Properties of whole schedules *)

(** ** Runs of the block loop *)

Lemma schedule_loop_emits_run (fuel : nat) (bd br : Z) (eb : jsnum) (i : Z)
    (rem : list Scored.t) (t : option Z) (acc out : list ScheduledBlock.t) :
  schedule_loop fuel bd br eb i rem t acc = Some out ->
  exists new, out = acc ++ new /\ emits bd br eb i rem t new.
Proof.
  revert i rem t acc.
  induction fuel as [|fuel IH]; intros i rem t acc E.
  - simpl in E. destruct (_ && _) eqn:Hc; [discriminate|].
    injection E as <-. exists []. rewrite app_nil_r.
    split; [reflexivity | now constructor].
  - rewrite schedule_loop_S in E.
    destruct (js_lt i eb && _) eqn:Hc; cycle 1.
    { injection E as <-. exists []. rewrite app_nil_r.
      split; [reflexivity | now constructor]. }
    cbv zeta in E.
    destruct (select_tasks bd _ [] 0) as [sel filled] eqn:Hsel.
    simpl fst in E; simpl snd in E.
    rewrite to_blockTasks_length, array_sort_length in E.
    destruct sel as [|s sel].
    + simpl in E. rewrite remove_selected_nil in E.
      apply select_tasks_nil_inv in Hsel.
      assert (Hrem : Forall (fun c => bd < est c) rem).
      { destruct (js_is_pred i eb); [|assumption].
        now rewrite array_sort_perm in Hsel. }
      apply schedule_loop_stuck in E; [|assumption].
      subst out. exists []. rewrite app_nil_r.
      split; [reflexivity | now apply emits_none].
    + simpl (Z.of_nat _ =? 0) in E. cbv iota in E.
      apply IH in E as (new & -> & Hnew).
      eexists (_ :: new). split; [now rewrite <- app_assoc|].
      eapply emits_block; eauto; discriminate.
Qed.

Lemma generateDailySchedule_emits_run (fuel : nat)
    (pendingTasks : list Task.t) (config : ScheduleConfig.t)
    (blocks : list ScheduledBlock.t) :
  generateDailySchedule fuel pendingTasks config = Some blocks ->
  blocks = []
  \/ emits (ScheduleConfig.blockDurationMinutes config)
       (ScheduleConfig.breakDurationMinutes config)
       (effectiveBlocks config) 0
       (scoredTasks pendingTasks (ScheduleConfig.calibration config))
       (parseTime (ScheduleConfig.startTime config)) blocks.
Proof.
  unfold generateDailySchedule. destruct (_ =? 0).
  - intros [= <-]. now left.
  - intros E. apply schedule_loop_emits_run in E as (new & -> & Hnew).
    now right.
Qed.

Lemma advance_advance (t : option Z) (a b : Z) :
  advance (advance t a) b = advance t (a + b).
Proof. destruct t as [t|]; simpl; [f_equal; lia | reflexivity]. Qed.

Lemma emits_times (bd br : Z) (eb : jsnum) (i : Z) (rem : list Scored.t)
    (t : option Z) (new : list ScheduledBlock.t) :
  emits bd br eb i rem t new ->
  forall (k : nat) (b : ScheduledBlock.t),
    new !! k = Some b ->
    ScheduledBlock.startTime b = formatTime (advance t (Z.of_nat k * (bd + br)))
    /\ ScheduledBlock.endTime b
       = formatTime (advance t (Z.of_nat k * (bd + br) + bd)).
Proof.
  induction 1 as [i rem t _|i rem t _ _|i rem t sel filled new _ _ _ _ IH];
    intros k b Hk; try discriminate Hk.
  destruct k as [|k]; simpl in Hk.
  - injection Hk as <-. cbn [ScheduledBlock.startTime ScheduledBlock.endTime].
    change (Z.of_nat 0 * (bd + br)) with 0.
    split; f_equal; destruct t; simpl; f_equal; lia.
  - apply IH in Hk as [-> ->].
    rewrite !advance_advance.
    split; f_equal; f_equal; lia.
Qed.

(** X1.  Blocks follow one another on the clock.  When the start time
    of the day reads as the minute [start], the k-th block of a schedule
    (counting from 0) starts at [start] plus k times the length of a block
    and a break, and ends one block length later; both are printed by
    [formatTime], so they wrap at midnight. *)
Theorem generateDailySchedule_on_the_clock
    (pendingTasks : list Task.t) (config : ScheduleConfig.t) (start : Z) :
  parseTime (ScheduleConfig.startTime config) = Some start ->
  every_schedule (on_the_clock start config) pendingTasks config.
Proof.
  intros Hstart.
  apply every_schedule_intro. intros fuel blocks E.
  apply generateDailySchedule_emits_run in E as [->|E].
  - intros k b Hk. discriminate Hk.
  - intros k b Hk. rewrite Hstart in E.
    destruct (emits_times _ _ _ _ _ _ _ E k b Hk) as [-> ->].
    simpl advance. split; do 2 f_equal; lia.
Qed.

Lemma generateDailySchedule_on_the_clock_witness :
  on_the_clock 540 (a_config 8 120 15) five_tasks_blocks.
Proof.
  apply (proj2 (generateDailySchedule_on_the_clock
                  five_tasks (a_config 8 120 15) 540 eq_refl) 3%nat).
  exact five_tasks_schedule.
Defined.

(** ** Which tasks are scheduled *)

Lemma List_filter_Permutation {A : Type} (p : A -> bool) (l l' : list A) :
  Permutation l l' -> Permutation (List.filter p l) (List.filter p l').
Proof.
  induction 1 as [|x l l' _ IH|x y l|l l' l'' _ IH1 _ IH2]; simpl.
  - constructor.
  - destruct (p x); [now constructor | assumption].
  - destruct (p x), (p y); try reflexivity. constructor.
  - now transitivity (List.filter p l').
Qed.

Lemma List_filter_all {A : Type} (p : A -> bool) (l : list A) :
  Forall (fun x => p x = true) l -> List.filter p l = l.
Proof.
  induction 1 as [|x l Hx _ IH]; simpl; [reflexivity|].
  now rewrite Hx, IH.
Qed.

Lemma List_filter_none {A : Type} (p : A -> bool) (l : list A) :
  Forall (fun x => p x = false) l -> List.filter p l = [].
Proof.
  induction 1 as [|x l Hx _ IH]; simpl; [reflexivity|].
  now rewrite Hx, IH.
Qed.

Lemma List_filter_submseteq {A : Type} (p : A -> bool) (l : list A) :
  List.filter p l ⊆+ l.
Proof.
  induction l as [|x l IH]; simpl; [reflexivity|].
  destruct (p x); [now apply submseteq_skip | now apply submseteq_cons].
Qed.

(** The selection and what is left of the pool never hold more than the
    pool held. *)
Lemma remove_selected_submseteq (sel rem : list Scored.t) :
  sel ⊆+ rem -> sel ++ remove_selected sel rem ⊆+ rem.
Proof.
  intros Hsub. apply submseteq_Permutation in Hsub as [k Hk].
  unfold remove_selected.
  rewrite (List_filter_Permutation _ _ _ Hk), List.filter_app.
  rewrite (List_filter_none _ sel), app_nil_l.
  - rewrite Hk. apply submseteq_app; [reflexivity|].
    apply List_filter_submseteq.
  - apply Forall_forall. intros s Hs.
    apply negb_false_iff, bool_decide_eq_true.
    apply elem_of_list_to_set.
    change (List.map ?f ?l) with (f <$> l).
    apply list_elem_of_fmap. eauto.
Qed.

(** With distinct ids the pool is split exactly. *)
Lemma remove_selected_Permutation (sel rem : list Scored.t) :
  sel ⊆+ rem ->
  NoDup (List.map (fun s => Task.id (Scored.task s)) rem) ->
  Permutation (sel ++ remove_selected sel rem) rem.
Proof.
  intros Hsub Hnd. apply submseteq_Permutation in Hsub as [k Hk].
  unfold remove_selected.
  rewrite (List_filter_Permutation _ _ _ Hk), List.filter_app.
  rewrite (List_filter_none _ sel), app_nil_l.
  - rewrite (List_filter_all _ k); [now symmetry|].
    change (List.map ?f ?l) with (f <$> l) in Hnd.
    rewrite Hk, fmap_app in Hnd.
    apply NoDup_app in Hnd as (_ & Hdis & _).
    apply Forall_forall. intros s Hs.
    apply negb_true_iff, bool_decide_eq_false.
    rewrite elem_of_list_to_set.
    intros Hin. apply (Hdis _ Hin).
    apply list_elem_of_fmap. eauto.
  - apply Forall_forall. intros s Hs.
    apply negb_false_iff, bool_decide_eq_true.
    apply elem_of_list_to_set.
    change (List.map ?f ?l) with (f <$> l).
    apply list_elem_of_fmap. eauto.
Qed.

Lemma select_tasks_submseteq (bd : Z) (cands rem sel : list Scored.t)
    (filled : Z) :
  Permutation cands rem ->
  select_tasks bd cands [] 0 = (sel, filled) ->
  sel ⊆+ rem.
Proof.
  intros Hp E.
  apply select_tasks_spec in E as (_ & _ & added & -> & Hsub); auto.
  simpl. rewrite <- Hp. now apply sublist_submseteq.
Qed.

Lemma candidates_Permutation (isLastBlock : bool) (rem : list Scored.t) :
  Permutation (if isLastBlock then array_sort by_difficulty rem else rem) rem.
Proof. destruct isLastBlock; [apply array_sort_perm | reflexivity]. Qed.

Lemma scheduled_tasks_cons (b : ScheduledBlock.t)
    (blocks : list ScheduledBlock.t) :
  scheduled_tasks (b :: blocks)
  = List.map ScheduledTask.task (ScheduledBlock.tasks b)
    ++ scheduled_tasks blocks.
Proof. reflexivity. Qed.

Lemma block_tasks_Permutation (sel : list Scored.t) :
  Permutation
    (List.map ScheduledTask.task (to_blockTasks (array_sort by_difficulty sel)))
    (List.map Scored.task sel).
Proof.
  rewrite to_blockTasks_task.
  apply Permutation_map, array_sort_perm.
Qed.

Lemma emits_submseteq (bd br : Z) (eb : jsnum) (i : Z) (rem : list Scored.t)
    (t : option Z) (new : list ScheduledBlock.t) :
  emits bd br eb i rem t new ->
  scheduled_tasks new ⊆+ List.map Scored.task rem.
Proof.
  induction 1 as [i rem t _|i rem t _ _|i rem t sel filled new _ Hsel _ _ IH].
  - apply submseteq_nil_l.
  - apply submseteq_nil_l.
  - rewrite scheduled_tasks_cons. cbn [ScheduledBlock.tasks].
    rewrite block_tasks_Permutation.
    transitivity (List.map Scored.task sel
                  ++ List.map Scored.task (remove_selected sel rem)).
    { now apply submseteq_app. }
    change (List.map ?f ?l) with (f <$> l).
    rewrite <- fmap_app.
    apply fmap_submseteq, remove_selected_submseteq.
    eapply select_tasks_submseteq; [|exact Hsel].
    apply candidates_Permutation.
Qed.

Lemma submseteq_NoDup {A : Type} (l k : list A) :
  l ⊆+ k -> NoDup k -> NoDup l.
Proof.
  intros Hsub Hk. apply submseteq_sublist_r in Hsub as (l' & -> & Hsub).
  now apply sublist_NoDup with k.
Qed.

Lemma scoredTasks_tasks (pendingTasks : list Task.t)
    (calibration : option CalibrationProfile.t) :
  Permutation (List.map Scored.task (scoredTasks pendingTasks calibration))
    (active_tasks pendingTasks).
Proof.
  unfold scoredTasks. rewrite array_sort_perm, List.map_map. simpl.
  now rewrite List.map_id.
Qed.

(** X2.  A schedule holds active tasks of the input only (status pending
    or scheduled), and none more often than the input holds it: the
    scheduled tasks are a sub-multiset of the active input tasks.  When
    the active tasks have distinct ids, no id is scheduled twice. *)
Theorem generateDailySchedule_schedules_active_once
    (pendingTasks : list Task.t) (config : ScheduleConfig.t) :
  every_schedule
    (fun blocks =>
       scheduled_tasks blocks ⊆+ active_tasks pendingTasks
       /\ Forall (fun task => is_active task = true) (scheduled_tasks blocks)
       /\ (NoDup (List.map Task.id (active_tasks pendingTasks)) ->
           NoDup (List.map Task.id (scheduled_tasks blocks))))
    pendingTasks config.
Proof.
  apply every_schedule_intro. intros fuel blocks E.
  assert (Hsub : scheduled_tasks blocks ⊆+ active_tasks pendingTasks).
  { apply generateDailySchedule_emits_run in E as [->|E].
    - apply submseteq_nil_l.
    - apply emits_submseteq in E. now rewrite scoredTasks_tasks in E. }
  split; [exact Hsub|]. split.
  - apply Forall_forall. intros task Hin.
    eapply elem_of_submseteq in Hin; [|exact Hsub].
    apply list_elem_of_In, filter_In in Hin. tauto.
  - change (List.map ?f ?l) with (f <$> l).
    apply submseteq_NoDup. now apply fmap_submseteq.
Qed.

Lemma generateDailySchedule_schedules_active_once_witness :
  scheduled_tasks five_tasks_blocks ⊆+ active_tasks five_tasks
  /\ Forall (fun task => is_active task = true)
       (scheduled_tasks five_tasks_blocks)
  /\ NoDup (List.map Task.id (scheduled_tasks five_tasks_blocks)).
Proof.
  destruct (proj2 (generateDailySchedule_schedules_active_once
                     five_tasks (a_config 8 120 15)) 3%nat
              five_tasks_blocks five_tasks_schedule) as (Hsub & Hact & Hnd).
  split; [exact Hsub|]. split; [exact Hact|].
  apply Hnd. apply (bool_decide_unpack _). vm_compute. exact I.
Defined.

(** ** How many blocks *)

Lemma emits_nonempty (bd br : Z) (eb : jsnum) (i : Z) (rem : list Scored.t)
    (t : option Z) (new : list ScheduledBlock.t) :
  emits bd br eb i rem t new ->
  Forall (fun b => ScheduledBlock.tasks b <> []) new.
Proof.
  induction 1 as [| |i rem t sel filled new _ _ Hne _ IH]; constructor;
    [|exact IH].
  cbn [ScheduledBlock.tasks]. intros E.
  apply (f_equal length) in E.
  rewrite to_blockTasks_length, array_sort_length in E.
  destruct sel; [contradiction | discriminate].
Qed.

Lemma emits_length (bd br : Z) (i n : Z) (rem : list Scored.t)
    (t : option Z) (new : list ScheduledBlock.t) :
  emits bd br (Finite n) i rem t new ->
  Z.of_nat (length new) <= Z.max 0 (n - i).
Proof.
  induction 1 as [| |i rem t sel filled new Hc _ _ _ IH]; simpl length;
    [lia | lia |].
  apply andb_prop in Hc as [Hlt _]. simpl in Hlt.
  apply Z.ltb_lt in Hlt. lia.
Qed.

Lemma scheduled_tasks_length (blocks : list ScheduledBlock.t) :
  Forall (fun b => ScheduledBlock.tasks b <> []) blocks ->
  (length blocks <= length (scheduled_tasks blocks))%nat.
Proof.
  induction 1 as [|b blocks Hb _ IH]; [reflexivity|].
  rewrite scheduled_tasks_cons, length_app, length_map. simpl.
  destruct (ScheduledBlock.tasks b); [contradiction | simpl; lia].
Qed.

(** X3.  No block of a schedule is empty, and a schedule has at most as
    many blocks as there are active tasks and at most [effectiveBlocks]
    blocks, the number of block-and-break slots the engine counts, in
    doubles, in the requested hours less the buffer. *)
Theorem generateDailySchedule_block_count
    (pendingTasks : list Task.t) (config : ScheduleConfig.t) :
  every_schedule
    (fun blocks =>
       Forall (fun b => ScheduledBlock.tasks b <> []) blocks
       /\ (length blocks <= length (active_tasks pendingTasks))%nat
       /\ forall n, effectiveBlocks config = Finite n ->
                    Z.of_nat (length blocks) <= n)
    pendingTasks config.
Proof.
  apply every_schedule_intro. intros fuel blocks E.
  apply generateDailySchedule_emits_run in E as [->|E].
  { split; [constructor|]. split; [simpl; lia|].
    intros n Hn. apply effectiveBlocks_not_zero in Hn. simpl length. lia. }
  pose proof (emits_nonempty _ _ _ _ _ _ _ E) as Hne.
  split; [exact Hne|]. split.
  - etransitivity; [apply scheduled_tasks_length, Hne|].
    apply emits_submseteq, submseteq_length in E.
    now rewrite scoredTasks_tasks in E.
  - intros n Hn. rewrite Hn in E. apply emits_length in E.
    apply effectiveBlocks_not_zero in Hn. lia.
Qed.

Lemma generateDailySchedule_block_count_witness :
  Forall (fun b => ScheduledBlock.tasks b <> []) five_tasks_blocks
  /\ (length five_tasks_blocks <= length (active_tasks five_tasks))%nat
  /\ Z.of_nat (length five_tasks_blocks) <= 3.
Proof.
  destruct (proj2 (generateDailySchedule_block_count
                     five_tasks (a_config 8 120 15)) 3%nat
              five_tasks_blocks five_tasks_schedule) as (Hne & Hact & Hslots).
  split; [exact Hne|]. split; [exact Hact|].
  apply Hslots. reflexivity.
Defined.

(** ** The empty schedule *)






(** ** When every task is scheduled *)

Lemma select_tasks_some (bd : Z) (cands : list Scored.t)
    (sel : list Scored.t) (filled : Z) :
  Forall (fun c => est c <= bd) cands -> cands <> [] ->
  select_tasks bd cands [] 0 = (sel, filled) -> sel <> [].
Proof.
  intros Hfit Hne E ->.
  apply select_tasks_nil_inv in E.
  destruct cands as [|c cands]; [contradiction|].
  apply Forall_cons in Hfit as [Hc _], E as [Hc' _]. lia.
Qed.

Lemma emits_all (bd br : Z) (eb : jsnum) (i : Z) (rem : list Scored.t)
    (t : option Z) (new : list ScheduledBlock.t) :
  emits bd br eb i rem t new ->
  NoDup (List.map (fun s => Task.id (Scored.task s)) rem) ->
  Forall (fun c => est c <= bd) rem ->
  eb <> NaN ->
  (forall n, eb = Finite n -> i + Z.of_nat (length rem) <= n) ->
  Permutation (scheduled_tasks new) (List.map Scored.task rem).
Proof.
  induction 1 as [i rem t Hc|i rem t Hc Hnone
                  |i rem t sel filled new Hc Hsel Hne _ IH];
    intros Hnd Hfit Hnan Hslots.
  - destruct rem as [|s rem]; [reflexivity|]. exfalso.
    apply andb_false_iff in Hc as [Hc|Hc].
    + destruct eb as [n| |]; try discriminate; [|contradiction].
      specialize (Hslots n eq_refl). simpl in Hc, Hslots.
      apply Z.ltb_ge in Hc. lia.
    + apply Z.ltb_ge in Hc. simpl in Hc. lia.
  - destruct rem as [|s rem]; [reflexivity|]. exfalso.
    apply Forall_cons in Hfit as [Hs _], Hnone as [Hs' _]. lia.
  - assert (Hsub : sel ⊆+ rem).
    { eapply select_tasks_submseteq; [|exact Hsel].
      apply candidates_Permutation. }
    pose proof (remove_selected_Permutation sel rem Hsub Hnd) as Hsplit.
    rewrite scheduled_tasks_cons. cbn [ScheduledBlock.tasks].
    rewrite block_tasks_Permutation, IH.
    + now rewrite <- List.map_app, Hsplit.
    + eapply submseteq_NoDup; [|exact Hnd].
      change (List.map ?f ?l) with (f <$> l).
      apply fmap_submseteq. rewrite <- Hsplit at 2.
      apply submseteq_inserts_l. reflexivity.
    + apply Forall_forall. intros c Hc'.
      rewrite Forall_forall in Hfit. apply Hfit.
      unfold remove_selected in Hc'.
      apply list_elem_of_In, filter_In in Hc' as [Hc' _].
      now apply list_elem_of_In.
    + exact Hnan.
    + intros n Hn. specialize (Hslots n Hn).
      apply Permutation_length in Hsplit.
      rewrite length_app in Hsplit.
      destruct sel; [contradiction|simpl in Hsplit; lia].
Qed.

(** X5.  When the active tasks have distinct ids, each of them fits a
    block on its own, and the day has at least as many block slots as
    there are active tasks, then every active task is scheduled, and
    exactly once: the scheduled tasks are a permutation of the active
    tasks. *)
Theorem generateDailySchedule_all_scheduled
    (pendingTasks : list Task.t) (config : ScheduleConfig.t) :
  NoDup (List.map Task.id (active_tasks pendingTasks)) ->
  Forall (fits (ScheduleConfig.blockDurationMinutes config))
    (active_tasks pendingTasks) ->
  effectiveBlocks config <> NaN ->
  (forall n, effectiveBlocks config = Finite n ->
             Z.of_nat (length (active_tasks pendingTasks)) <= n) ->
  every_schedule
    (fun blocks => Permutation (scheduled_tasks blocks)
                     (active_tasks pendingTasks))
    pendingTasks config.
Proof.
  intros Hnd Hfit Hnan Hslots.
  apply every_schedule_intro. intros fuel blocks E.
  pose proof (scoredTasks_tasks pendingTasks
                (ScheduleConfig.calibration config)) as Hp.
  unfold generateDailySchedule in E.
  destruct (_ =? 0) eqn:Hlen.
  { injection E as <-. destruct pendingTasks; [reflexivity | discriminate]. }
  apply schedule_loop_emits_run in E as (new & -> & E). simpl.
  rewrite <- Hp. apply emits_all in E; auto.
  - rewrite <- List.map_map.
    change (List.map ?f ?l) with (f <$> l) in Hp |- *. now rewrite Hp.
  - change (List.map ?f ?l) with (f <$> l) in Hp.
    rewrite <- Hp, Forall_fmap in Hfit. exact Hfit.
  - intros n Hn. specialize (Hslots n Hn).
    apply Permutation_length in Hp. rewrite length_map in Hp. lia.
Qed.

Lemma generateDailySchedule_all_scheduled_witness :
  every_schedule
    (fun blocks => Permutation (scheduled_tasks blocks)
                     (active_tasks four_tasks))
    four_tasks (a_config 11 120 15).
Proof.
  apply generateDailySchedule_all_scheduled.
  - apply (bool_decide_unpack _). vm_compute. exact I.
  - repeat constructor; unfold fits; simpl; lia.
  - intros Hn. vm_compute in Hn. discriminate Hn.
  - intros n Hn. vm_compute in Hn. injection Hn as <-.
    vm_compute. discriminate.
Defined.

(** ** What a block picks *)

Lemma List_filter_sublist {A : Type} (p : A -> bool) (l : list A) :
  List.filter p l `sublist_of` l.
Proof.
  induction l as [|x l IH]; simpl; [constructor|].
  destruct (p x); now constructor.
Qed.

Lemma StronglySorted_sublist {A : Type} (R : A -> A -> Prop) (l k : list A) :
  l `sublist_of` k -> StronglySorted R k -> StronglySorted R l.
Proof.
  induction 1 as [|x l k Hlk IH|x l k Hlk IH]; intros Hk.
  - constructor.
  - apply StronglySorted_inv in Hk as [Hk Hx].
    constructor; [now apply IH|].
    apply Forall_forall. intros y Hy.
    rewrite Forall_forall in Hx. apply Hx.
    eapply elem_of_sublist; [exact Hy | exact Hlk].
  - apply StronglySorted_inv in Hk as [Hk _]. now apply IH.
Qed.

(** The pool a block was picked from: what is left of the pool of the
    loop, with every task whose id is not in an earlier block. *)
Lemma emits_pool (bd br : Z) (eb : jsnum) (i : Z) (rem : list Scored.t)
    (t : option Z) (new : list ScheduledBlock.t) :
  emits bd br eb i rem t new ->
  forall (k : nat) (b : ScheduledBlock.t),
    new !! k = Some b ->
    exists (pool sel : list Scored.t) (isLastBlock : bool),
      pool `sublist_of` rem
      /\ (forall s, In s rem ->
            ~ In (Task.id (Scored.task s))
                (List.map Task.id (scheduled_tasks (take k new))) ->
            In s pool)
      /\ ScheduledBlock.blockType b
         = (if isLastBlock then shallow_work else deep_work)
      /\ select_tasks bd
           (if isLastBlock then array_sort by_difficulty pool else pool) [] 0
         = (sel, ScheduledBlock.totalMinutes b)
      /\ Permutation
           (List.map ScheduledTask.task (ScheduledBlock.tasks b))
           (List.map Scored.task sel).
Proof.
  induction 1 as [| |i rem t sel filled new Hc Hsel Hne _ IH];
    intros k b Hk; try discriminate Hk.
  destruct k as [|k]; simpl in Hk.
  - injection Hk as <-. exists rem, sel, (js_is_pred i eb).
    cbn [ScheduledBlock.blockType ScheduledBlock.totalMinutes
         ScheduledBlock.tasks].
    split; [reflexivity|]. split; [auto|]. split; [reflexivity|].
    split; [exact Hsel | apply block_tasks_Permutation].
  - destruct (IH k b Hk) as (pool & sel' & isLast & Hsub & Hin & Hrest).
    exists pool, sel', isLast. split.
    { etransitivity; [exact Hsub | apply List_filter_sublist]. }
    split; [|exact Hrest].
    intros s Hs Hnot. apply Hin.
    + apply filter_In. split; [exact Hs|].
      apply negb_true_iff, bool_decide_eq_false.
      rewrite elem_of_list_to_set. intros Hid. apply Hnot.
      simpl take. rewrite scheduled_tasks_cons, List.map_app, in_app_iff.
      left. cbn [ScheduledBlock.tasks].
      apply list_elem_of_In in Hid. rewrite <- List.map_map in Hid.
      eapply Permutation_in; [|exact Hid].
      apply Permutation_map. symmetry. apply block_tasks_Permutation.
    + intros Hid. apply Hnot.
      simpl take. rewrite scheduled_tasks_cons, List.map_app, in_app_iff.
      now right.
Qed.

(** The first candidate that fits an empty block is selected. *)
Lemma select_tasks_first_fit (R : Scored.t -> Scored.t -> Prop)
    (bd : Z) (cands sel : list Scored.t) (filled : Z) (s : Scored.t) :
  StronglySorted R cands ->
  select_tasks bd cands [] 0 = (sel, filled) ->
  In s cands -> est s <= bd ->
  exists c, In c sel /\ (c = s \/ R c s).
Proof.
  induction 1 as [|c rest Hs IH Hc]; intros E Hin Hfit; [destruct Hin|].
  simpl in E. fold (est c) in E.
  destruct (0 + est c <=? bd) eqn:Hfits.
  - exists c. split.
    + destruct (Qle_bool _ _).
      * injection E as <- _. now left.
      * apply select_tasks_spec in E as (_ & _ & added & -> & _).
        -- now left.
        -- rewrite sum_by_cons, sum_by_nil. lia.
        -- right. apply Z.leb_le in Hfits. lia.
    + destruct Hin as [<-|Hin]; [now left|]. right.
      rewrite Forall_forall in Hc. apply Hc, list_elem_of_In, Hin.
  - destruct Hin as [<-|Hin]; [apply Z.leb_gt in Hfits; lia|].
    now apply IH.
Qed.

Lemma emitted_task_of (b : ScheduledBlock.t) (sel : list Scored.t)
    (c : Scored.t) :
  Permutation (List.map ScheduledTask.task (ScheduledBlock.tasks b))
    (List.map Scored.task sel) ->
  In c sel ->
  In (Scored.task c) (List.map ScheduledTask.task (ScheduledBlock.tasks b)).
Proof.
  intros Hp Hc. eapply Permutation_in; [symmetry; exact Hp|].
  now apply in_map.
Qed.

Lemma scoredTasks_In (pendingTasks : list Task.t)
    (calibration : option CalibrationProfile.t) (x : Task.t) :
  In x (active_tasks pendingTasks) ->
  In (Scored.mk x (calculateTaskScore x calibration))
    (scoredTasks pendingTasks calibration).
Proof.
  intros Hx. unfold scoredTasks.
  eapply Permutation_in; [symmetry; apply array_sort_perm|].
  now apply (in_map (fun task =>
                       Scored.mk task (calculateTaskScore task calibration))).
Qed.

Lemma scoredTasks_score (pendingTasks : list Task.t)
    (calibration : option CalibrationProfile.t) (s : Scored.t) :
  In s (scoredTasks pendingTasks calibration) ->
  Scored.score s = calculateTaskScore (Scored.task s) calibration.
Proof.
  intros Hs. unfold scoredTasks in Hs.
  eapply Permutation_in in Hs; [|apply array_sort_perm].
  apply in_map_iff in Hs as (task & <- & _). reflexivity.
Qed.

(** X6.  Deep-work blocks take the best task first: a deep-work block
    holds a task whose score is at least that of any active task that
    fits a block and whose id is not in an earlier block. *)
Theorem generateDailySchedule_best_first
    (pendingTasks : list Task.t) (config : ScheduleConfig.t) :
  every_schedule (best_first pendingTasks config) pendingTasks config.
Proof.
  apply every_schedule_intro. intros fuel blocks E k b x Hk Hdeep Hx Hfit Hnot.
  apply generateDailySchedule_emits_run in E as [->|E]; [discriminate Hk|].
  set (cal := ScheduleConfig.calibration config) in *.
  set (s := Scored.mk x (calculateTaskScore x cal)).
  destruct (emits_pool _ _ _ _ _ _ _ E k b Hk)
    as (pool & sel & isLast & Hsub & Hin & Htype & Hsel & Hperm).
  destruct isLast; [congruence|].
  assert (Hs : In s pool).
  { apply Hin; [now apply scoredTasks_In | exact Hnot]. }
  assert (Hsorted : StronglySorted (fun a b => by_score_desc a b = true) pool).
  { eapply StronglySorted_sublist; [exact Hsub|].
    apply array_sort_sorted;
      [apply by_score_desc_total | apply by_score_desc_trans]. }
  destruct (select_tasks_first_fit _ _ _ _ _ s Hsorted Hsel Hs Hfit)
    as (c & Hc & Hle).
  exists (Scored.task c). split; [now apply emitted_task_of with sel|].
  assert (Hcs : In c (scoredTasks pendingTasks cal)).
  { apply list_elem_of_In. eapply elem_of_sublist; [|exact Hsub].
    eapply elem_of_submseteq;
      [apply list_elem_of_In, Hc
      |eapply select_tasks_submseteq; [reflexivity | exact Hsel]]. }
  rewrite <- (scoredTasks_score _ _ c Hcs).
  destruct Hle as [->|Hle]; [simpl; lra|].
  apply by_score_desc_spec in Hle. exact Hle.
Qed.

Lemma generateDailySchedule_best_first_witness :
  best_first five_tasks (a_config 8 120 15) five_tasks_blocks.
Proof.
  apply (proj2 (generateDailySchedule_best_first
                  five_tasks (a_config 8 120 15)) 3%nat).
  exact five_tasks_schedule.
Defined.

(** X7.  The shallow-work block, the one in the last slot of the day,
    takes the easiest task first: it holds a task that is at most as
    difficult as any active task that fits a block and whose id is not in
    an earlier block. *)
Theorem generateDailySchedule_easiest_last
    (pendingTasks : list Task.t) (config : ScheduleConfig.t) :
  every_schedule (easiest_last pendingTasks config) pendingTasks config.
Proof.
  apply every_schedule_intro. intros fuel blocks E k b x Hk Hshallow Hx Hfit Hnot.
  apply generateDailySchedule_emits_run in E as [->|E]; [discriminate Hk|].
  set (cal := ScheduleConfig.calibration config) in *.
  set (s := Scored.mk x (calculateTaskScore x cal)).
  destruct (emits_pool _ _ _ _ _ _ _ E k b Hk)
    as (pool & sel & isLast & Hsub & Hin & Htype & Hsel & Hperm).
  destruct isLast; [|congruence].
  assert (Hs : In s (array_sort by_difficulty pool)).
  { eapply Permutation_in; [symmetry; apply array_sort_perm|].
    apply Hin; [now apply scoredTasks_In | exact Hnot]. }
  assert (Hsorted : StronglySorted (fun a b => by_difficulty a b = true)
                      (array_sort by_difficulty pool)).
  { apply array_sort_sorted;
      [apply by_difficulty_total | apply by_difficulty_trans]. }
  destruct (select_tasks_first_fit _ _ _ _ _ s Hsorted Hsel Hs Hfit)
    as (c & Hc & Hle).
  exists (Scored.task c). split; [now apply emitted_task_of with sel|].
  destruct Hle as [->|Hle]; [simpl; lia|].
  unfold by_difficulty in Hle. apply Z.leb_le in Hle. simpl in Hle. lia.
Qed.

Lemma generateDailySchedule_easiest_last_witness :
  easiest_last five_tasks (a_config 8 120 15) five_tasks_blocks.
Proof.
  apply (proj2 (generateDailySchedule_easiest_last
                  five_tasks (a_config 8 120 15)) 3%nat).
  exact five_tasks_schedule.
Defined.

(** *** Blocks are filled as far as the tasks allow *)

Lemma select_tasks_extends (bd : Z) (cands sel : list Scored.t)
    (filled : Z) (sel' : list Scored.t) (filled' : Z) :
  select_tasks bd cands sel filled = (sel', filled') ->
  exists added, sel' = sel ++ added.
Proof.
  revert sel filled.
  induction cands as [|c rest IH]; intros sel filled E; simpl in E.
  - injection E as <- _. exists []. now rewrite app_nil_r.
  - destruct (_ <=? bd); [|now apply IH in E].
    destruct (Qle_bool _ _).
    + injection E as <- _. now exists [c].
    + apply IH in E as [added ->]. exists (c :: added).
      now rewrite <- app_assoc.
Qed.

Lemma select_tasks_exhaustive (bd : Z) (cands sel : list Scored.t)
    (filled : Z) (sel' : list Scored.t) (filled' : Z) :
  select_tasks bd cands sel filled = (sel', filled') ->
  Forall (fun c => 0 <= est c) cands ->
  (inject_Z filled' < inject_Z bd * 0.8)%Q ->
  filled <= filled'
  /\ forall c, In c cands -> In c sel' \/ bd < filled' + est c.
Proof.
  revert sel filled.
  induction cands as [|c rest IH]; intros sel filled E Hpos Hlow; simpl in E.
  - injection E as <- <-. split; [lia | intros c []].
  - fold (est c) in E. apply Forall_cons in Hpos as [Hc Hpos].
    destruct (filled + est c <=? bd) eqn:Hfit.
    + destruct (Qle_bool _ _) eqn:Hfull.
      * injection E as <- <-. apply Qle_bool_iff in Hfull.
        exfalso. eapply Qlt_irrefl, Qle_lt_trans; eauto.
      * pose proof E as E'.
        apply select_tasks_extends in E' as (added & ->).
        destruct (IH _ _ E Hpos Hlow) as [Hle Hall].
        split; [lia|]. intros c' [<-|Hin]; [|now apply Hall].
        left. rewrite <- app_assoc. apply in_or_app. right. now left.
    + destruct (IH _ _ E Hpos Hlow) as [Hle Hall].
      split; [exact Hle|]. intros c' [<-|Hin]; [|now apply Hall].
      right. apply Z.leb_gt in Hfit. lia.
Qed.

(** X8.  A block is left below 80% only when nothing more fits: when
    no active task has a negative estimate and a block holds less than
    80% of its length, every active task that would still fit into the
    rest of the block has its id in that block or in an earlier one. *)
Theorem generateDailySchedule_filled
    (pendingTasks : list Task.t) (config : ScheduleConfig.t) :
  Forall (fun task => 0 <= Task.estimatedMinutes task)
    (active_tasks pendingTasks) ->
  every_schedule (filled_up pendingTasks config) pendingTasks config.
Proof.
  intros Hpos.
  apply every_schedule_intro. intros fuel blocks E k b x Hk Hlow Hx Hfit.
  apply generateDailySchedule_emits_run in E as [->|E]; [discriminate Hk|].
  set (cal := ScheduleConfig.calibration config) in *.
  set (s := Scored.mk x (calculateTaskScore x cal)).
  destruct (In_dec string_dec (Task.id x)
              (List.map Task.id (scheduled_tasks (take k blocks))))
    as [Hearlier|Hnot].
  { rewrite (take_S_r _ _ _ Hk).
    unfold scheduled_tasks. rewrite List.map_app, concat_app, List.map_app.
    apply in_or_app. now left. }
  destruct (emits_pool _ _ _ _ _ _ _ E k b Hk)
    as (pool & sel & isLast & Hsub & Hin & Htype & Hsel & Hperm).
  assert (Hs : In s pool).
  { apply Hin; [now apply scoredTasks_In | exact Hnot]. }
  assert (Hcands : Permutation
            (if isLast then array_sort by_difficulty pool else pool) pool)
    by apply candidates_Permutation.
  apply select_tasks_exhaustive in Hsel as [_ Hall]; [| |exact Hlow].
  - destruct (Hall s) as [Hsel|Hover].
    + eapply Permutation_in; [symmetry; exact Hcands | exact Hs].
    + rewrite (take_S_r _ _ _ Hk).
      unfold scheduled_tasks. rewrite List.map_app, concat_app, List.map_app.
      apply in_or_app. right. simpl. rewrite app_nil_r.
      apply in_map. now apply (emitted_task_of b sel s).
    + exfalso. unfold est in Hover. simpl in Hover. lia.
  - rewrite Hcands.
    apply Forall_forall. intros c Hc.
    eapply elem_of_sublist in Hc; [|exact Hsub].
    apply list_elem_of_In in Hc.
    pose proof (scoredTasks_tasks pendingTasks cal) as Hp.
    rewrite Forall_forall in Hpos. apply Hpos.
    apply list_elem_of_In. eapply Permutation_in; [exact Hp|].
    now apply in_map.
Qed.

Lemma generateDailySchedule_filled_witness :
  filled_up five_tasks (a_config 8 120 15) five_tasks_blocks.
Proof.
  refine (proj2 (generateDailySchedule_filled
                   five_tasks (a_config 8 120 15) _) 3%nat _ _).
  - repeat constructor; simpl; lia.
  - exact five_tasks_schedule.
Defined.

(** ** Times of day *)

(** All 1440 times of a day, checked by evaluation. *)
Lemma parseTime_two_digits (h m : nat) :
  (h < 24)%nat -> (m < 60)%nat ->
  parseTime (pad2 (Z.of_nat h) ++ ":" ++ pad2 (Z.of_nat m))
  = Some (Z.of_nat h * 60 + Z.of_nat m)
  /\ String.length (pad2 (Z.of_nat h) ++ ":" ++ pad2 (Z.of_nat m)) = 5%nat.
Proof.
  intros Hh Hm.
  assert (Hall :
    forallb (fun h => forallb (fun m =>
      bool_decide
        (parseTime (pad2 (Z.of_nat h) ++ ":" ++ pad2 (Z.of_nat m))
         = Some (Z.of_nat h * 60 + Z.of_nat m)
         /\ String.length (pad2 (Z.of_nat h) ++ ":" ++ pad2 (Z.of_nat m))
            = 5%nat))
      (seq 0 60)) (seq 0 24) = true) by (vm_compute; reflexivity).
  rewrite forallb_forall in Hall.
  specialize (Hall h ltac:(apply in_seq; lia)).
  rewrite forallb_forall in Hall.
  specialize (Hall m ltac:(apply in_seq; lia)).
  now apply bool_decide_eq_true in Hall.
Qed.

Lemma formatTime_pad2 (minutes : Z) :
  0 <= minutes ->
  formatTime (Some minutes)
  = (pad2 (Z.of_nat (Z.to_nat (minutes / 60 mod 24))) ++ ":"
     ++ pad2 (Z.of_nat (Z.to_nat (minutes mod 60))))%string.
Proof.
  intros Hm. unfold formatTime.
  assert (0 <= minutes / 60) by (apply Z.div_pos; lia).
  rewrite !Z.rem_mod_nonneg by lia.
  rewrite !Z2Nat.id by (apply Z.mod_pos_bound; lia).
  reflexivity.
Qed.

(** X9.  [formatTime] and [parseTime] are inverse to each other on the
    minutes of a day: a count of minutes that is not negative prints as
    five characters HH:MM which parse back to the count modulo 24 hours,
    and printing what was parsed gives the same text again. *)
Theorem parseTime_formatTime (minutes : Z) :
  0 <= minutes ->
  parseTime (formatTime (Some minutes)) = Some (minutes mod 1440)
  /\ String.length (formatTime (Some minutes)) = 5%nat
  /\ formatTime (parseTime (formatTime (Some minutes)))
     = formatTime (Some minutes).
Proof.
  intros Hm.
  assert (Hparse : parseTime (formatTime (Some minutes))
                   = Some (minutes mod 1440)
                   /\ String.length (formatTime (Some minutes)) = 5%nat).
  { rewrite formatTime_pad2 by assumption.
    assert (0 <= minutes / 60) by (apply Z.div_pos; lia).
    pose proof (Z.mod_pos_bound (minutes / 60) 24 ltac:(lia)).
    pose proof (Z.mod_pos_bound minutes 60 ltac:(lia)).
    destruct (parseTime_two_digits (Z.to_nat (minutes / 60 mod 24))
                (Z.to_nat (minutes mod 60))) as [-> ->]; try lia.
    split; [|reflexivity]. f_equal.
    rewrite !Z2Nat.id by lia.
    Z.div_mod_to_equations. lia. }
  destruct Hparse as [Hparse Hlen]. rewrite Hparse.
  split; [reflexivity|]. split; [exact Hlen|].
  pose proof (Z.mod_pos_bound minutes 1440 ltac:(lia)).
  rewrite !formatTime_pad2 by lia.
  replace (minutes mod 1440 / 60 mod 24) with (minutes / 60 mod 24)
    by (Z.div_mod_to_equations; lia).
  replace (minutes mod 1440 mod 60) with (minutes mod 60)
    by (Z.div_mod_to_equations; lia).
  reflexivity.
Qed.

Lemma parseTime_formatTime_witness :
  parseTime (formatTime (Some 1505)) = Some 65
  /\ String.length (formatTime (Some 1505)) = 5%nat
  /\ formatTime (parseTime (formatTime (Some 1505)))
     = formatTime (Some 1505).
Proof. apply (parseTime_formatTime 1505). lia. Defined.

(** ** Block lengths *)

Lemma autoDecideBlockDuration_preset `{Host}
    (calibration : option CalibrationProfile.t) (pendingTasks : list Task.t) :
  is_preset (autoDecideBlockDuration calibration pendingTasks).
Proof.
  unfold autoDecideBlockDuration, is_preset.
  destruct calibration as [c|]; [|auto]. cbv zeta.
  repeat match goal with
         | |- context [if ?b then _ else _] => destruct b
         | |- context [match ?o with Some _ => _ | None => _ end] => destruct o
         end; auto.
Qed.

(** X10.  Whatever the profile, the tasks and the custom length, the
    block length is one of the presets 60, 90 and 120 in the modes 60, 90,
    120 and auto, the one the mode names in the first three; mode custom
    gives the custom length as it is, and any other mode gives the custom
    length, or 120 when that is 0.  So only mode custom can give a block
    of zero minutes. *)
Theorem resolveBlockDuration_preset `{Host} (mode : string)
    (customDuration : Z) (calibration : option CalibrationProfile.t)
    (pendingTasks : list Task.t) :
  let duration :=
    resolveBlockDuration mode customDuration calibration pendingTasks in
  (mode = "60"%string \/ mode = "90"%string \/ mode = "120"%string
   \/ mode = "auto"%string -> is_preset duration)
  /\ (mode = "custom"%string -> duration = customDuration)
  /\ (mode <> "custom"%string -> duration <> 0)
  /\ (is_preset duration \/ duration = customDuration)
  /\ (mode = "60"%string -> duration = 60)
  /\ (mode = "90"%string -> duration = 90)
  /\ (mode = "120"%string -> duration = 120)
  /\ (mode <> "60"%string -> mode <> "90"%string -> mode <> "120"%string ->
      mode <> "custom"%string -> mode <> "auto"%string ->
      (customDuration <> 0 -> duration = customDuration)
      /\ (customDuration = 0 -> duration = 120)).
Proof.
  cbv zeta. unfold resolveBlockDuration, is_preset.
  pose proof (autoDecideBlockDuration_preset calibration pendingTasks) as Ha.
  unfold is_preset in Ha.
  destruct (String.eqb_spec mode "60") as [->|H60]; simpl.
  { repeat split; intros; try discriminate; try contradiction; auto. }
  destruct (String.eqb_spec mode "90") as [->|H90]; simpl.
  { repeat split; intros; try discriminate; try contradiction; auto. }
  destruct (String.eqb_spec mode "120") as [->|H120]; simpl.
  { repeat split; intros; try discriminate; try contradiction; auto. }
  destruct (String.eqb_spec mode "custom") as [->|Hc]; simpl.
  { repeat split; intros; try discriminate; try contradiction; auto;
      intuition discriminate. }
  destruct (String.eqb_spec mode "auto") as [->|Hauto]; simpl.
  { repeat split; intros; try discriminate; try contradiction; auto; lia. }
  repeat split; try (intros ?; contradiction).
  - intros [?|[?|[?|?]]]; contradiction.
  - intros _. destruct (Z.eqb_spec customDuration 0); lia.
  - destruct (Z.eqb_spec customDuration 0); auto.
  - destruct (Z.eqb_spec customDuration 0); [contradiction | reflexivity].
  - destruct (Z.eqb_spec customDuration 0); [reflexivity | contradiction].
Qed.

(** ** Rounding *)

Lemma Math_round_mono (x y : Q) : (x <= y)%Q -> Math_round x <= Math_round y.
Proof. intros Hxy. unfold Math_round. apply Qfloor_resp_le. lra. Qed.

Lemma round1_mono (x y : Q) : (x <= y)%Q -> (round1 x <= round1 y)%Q.
Proof.
  intros Hxy. unfold round1.
  assert (Hz : Math_round (x * 10) <= Math_round (y * 10))
    by (apply Math_round_mono; lra).
  rewrite Zle_Qle in Hz.
  apply Qmult_le_compat_r; [exact Hz | discriminate].
Qed.

Lemma round2_mono (x y : Q) : (x <= y)%Q -> (round2 x <= round2 y)%Q.
Proof.
  intros Hxy. unfold round2.
  assert (Hz : Math_round (x * 100) <= Math_round (y * 100))
    by (apply Math_round_mono; lra).
  rewrite Zle_Qle in Hz.
  apply Qmult_le_compat_r; [exact Hz | discriminate].
Qed.

Lemma round1_inject_Z (z : Z) : (round1 (inject_Z z) == inject_Z z)%Q.
Proof.
  unfold round1, Math_round.
  assert (E : Qfloor (inject_Z z * 10 + (1 # 2)) = z * 10).
  { pose proof (Qfloor_le (inject_Z z * 10 + (1 # 2))) as Hlo.
    pose proof (Qlt_floor (inject_Z z * 10 + (1 # 2))) as Hhi.
    set (f := Qfloor _) in *.
    assert (Hm : (inject_Z (z * 10) == inject_Z z * 10)%Q)
      by (rewrite inject_Z_mult; reflexivity).
    rewrite inject_Z_plus in Hhi. change (inject_Z 1) with 1%Q in Hhi.
    assert (H1 : (inject_Z f < inject_Z (z * 10 + 1))%Q).
    { rewrite inject_Z_plus, Hm. change (inject_Z 1) with 1%Q. lra. }
    assert (H2 : (inject_Z (z * 10 - 1) < inject_Z f)%Q).
    { unfold Z.sub. rewrite inject_Z_plus, inject_Z_opp, Hm.
      change (inject_Z 1) with 1%Q. lra. }
    rewrite <- Zlt_Qlt in H1, H2. lia. }
  rewrite E, inject_Z_mult. change (inject_Z 10) with 10%Q. field.
Qed.

(** ** The confidence of a profile *)

Section ConfidenceFacts.
Context `{Host}.

Lemma computeCalibrationProfile_confidence
    (feedbackEntries : list FeedbackWithDifficulty.t)
    (dailyPlanData : list DailyPlanSummary.t) :
  (3 <= length feedbackEntries)%nat ->
  CalibrationProfile.confidence
    (computeCalibrationProfile feedbackEntries dailyPlanData)
  = round2 (Qmin 1 (inject_Z (Z.of_nat (length feedbackEntries)) / 33)).
Proof.
  intros Hn. unfold computeCalibrationProfile.
  destruct (Z.ltb_spec (Z.of_nat (length feedbackEntries)) 3); [lia|].
  reflexivity.
Qed.

Lemma confidence_below (n m : Z) :
  n <= m -> m <= 33 ->
  (round2 (Qmin 1 (inject_Z n / 33)) <= round2 (inject_Z m / 33))%Q.
Proof.
  intros Hnm Hm. apply round2_mono.
  rewrite Zle_Qle in Hnm.
  eapply Qle_trans; [apply Q.le_min_r|].
  apply Qmult_le_compat_r; [exact Hnm | discriminate].
Qed.

Lemma confidence_above (n m : Z) :
  m <= n -> m <= 33 ->
  (round2 (inject_Z m / 33) <= round2 (Qmin 1 (inject_Z n / 33)))%Q.
Proof.
  intros Hnm Hm. apply round2_mono.
  rewrite Zle_Qle in Hnm, Hm.
  apply Q.min_glb.
  - change (inject_Z 33) with 33%Q in Hm. 
    apply Qle_shift_div_r; [reflexivity|]. lra.
  - apply Qmult_le_compat_r; [exact Hnm | discriminate].
Qed.

(** X11.  The confidence of a profile depends on the number n of
    feedback entries alone and never decreases with it: it is positive
    exactly from 3 entries on (where it is 0.09), below 0.3 up to 9
    entries, below 0.7 up to 22 entries, and 1 exactly from 33 entries
    on. *)
Theorem computeCalibrationProfile_confidence_steps
    (feedbackEntries : list FeedbackWithDifficulty.t)
    (dailyPlanData : list DailyPlanSummary.t) :
  let n := length feedbackEntries in
  let confidence :=
    CalibrationProfile.confidence
      (computeCalibrationProfile feedbackEntries dailyPlanData) in
  ((0 < confidence)%Q <-> (3 <= n)%nat)
  /\ ((3 <= n)%nat -> (0.09 <= confidence <= 1)%Q)
  /\ ((confidence < 0.3)%Q <-> (n <= 9)%nat)
  /\ ((confidence < 0.7)%Q <-> (n <= 22)%nat)
  /\ ((confidence == 1)%Q <-> (33 <= n)%nat).
Proof.
  cbv zeta.
  destruct (le_lt_dec 3 (length feedbackEntries)) as [Hn|Hn]; cycle 1.
  { unfold computeCalibrationProfile.
    destruct (Z.ltb_spec (Z.of_nat (length feedbackEntries)) 3); [|lia].
    cbn [CalibrationProfile.confidence].
    repeat split; intros; try lia; try discriminate; try reflexivity. }
  rewrite computeCalibrationProfile_confidence by assumption.
  set (n := Z.of_nat (length feedbackEntries)).
  assert (Hn3 : 3 <= n) by lia.
  pose proof (confidence_above n 3 ltac:(lia) ltac:(lia)) as H3.
  assert (Hle1 : (round2 (Qmin 1 (inject_Z n / 33)) <= 1)%Q).
  { assert (E : (round2 1 == 1)%Q) by (vm_compute; reflexivity).
    rewrite <- E at 2. apply round2_mono, Q.le_min_l. }
  assert (E3 : (round2 (inject_Z 3 / 33) == 9 # 100)%Q)
        by (vm_compute; reflexivity).
      rewrite E3 in H3.
  split; [|split; [|split; [|split]]].
  - split; [intros _; assumption | intros _; lra].
  - intros _. split; [lra | assumption].
  - split.
    + intros Hlow. destruct (le_lt_dec (length feedbackEntries) 9); [assumption|].
      pose proof (confidence_above n 10 ltac:(lia) ltac:(lia)) as H10.
      assert (E10 : (round2 (inject_Z 10 / 33) == 30 # 100)%Q)
        by (vm_compute; reflexivity).
      rewrite E10 in H10. lra.
    + intros H9.
      pose proof (confidence_below n 9 ltac:(lia) ltac:(lia)) as H9'.
      assert (E9 : (round2 (inject_Z 9 / 33) == 27 # 100)%Q)
        by (vm_compute; reflexivity).
      rewrite E9 in H9'. lra.
  - split.
    + intros Hlow. destruct (le_lt_dec (length feedbackEntries) 22); [assumption|].
      pose proof (confidence_above n 23 ltac:(lia) ltac:(lia)) as H23.
      assert (E23 : (round2 (inject_Z 23 / 33) == 70 # 100)%Q)
        by (vm_compute; reflexivity).
      rewrite E23 in H23. lra.
    + intros H22.
      pose proof (confidence_below n 22 ltac:(lia) ltac:(lia)) as H22'.
      assert (E22 : (round2 (inject_Z 22 / 33) == 67 # 100)%Q)
        by (vm_compute; reflexivity).
      rewrite E22 in H22'. lra.
  - split.
    + intros Hone. destruct (le_lt_dec 33 (length feedbackEntries)); [assumption|].
      pose proof (confidence_below n 32 ltac:(lia) ltac:(lia)) as H32.
      assert (E32 : (round2 (inject_Z 32 / 33) == 97 # 100)%Q)
        by (vm_compute; reflexivity).
      rewrite E32 in H32. lra.
    + intros H33.
      pose proof (confidence_above n 33 ltac:(lia) ltac:(lia)) as H33'.
      assert (E33 : (round2 (inject_Z 33 / 33) == 100 # 100)%Q)
        by (vm_compute; reflexivity).
      rewrite E33 in H33'. lra.
Qed.

End ConfidenceFacts.

(** ** The profile *)

Section ProfileFacts.
Context `{Host}.

Lemma raw_skillLevel_range (feedbackEntries : list FeedbackWithDifficulty.t) :
  (1 <= raw_skillLevel feedbackEntries <= 10)%Q.
Proof.
  unfold raw_skillLevel. cbv zeta.
  split; [apply Q.le_max_l|].
  apply Q.max_lub; [discriminate | apply Q.le_min_l].
Qed.

Lemma round1_double_mono (x y : Q) :
  (x <= y)%Q -> (round1_double x <= round1_double y)%Q.
Proof.
  intros Hxy. unfold round1_double.
  assert (Hz : Math_round (round53 (x * 10))
               <= Math_round (round53 (y * 10)))
    by (apply Math_round_mono, round53_mono; lra).
  rewrite Zle_Qle in Hz.
  apply Qmult_le_compat_r; [exact Hz | discriminate].
Qed.

(** The 4% on top of a skill level are not lost when the product is
    rounded to a double. *)
Lemma ideal_above_skill (s : Q) :
  (1 <= s)%Q -> (s <= round53 (s * round53 1.04))%Q.
Proof.
  intros Hs.
  assert (Hc : (101 # 100 <= round53 1.04)%Q)
    by (apply Qle_bool_iff; vm_compute; reflexivity).
  generalize dependent (round53 1.04). intros c Hc.
  assert (Hq : ((101 # 100) * s <= s * c)%Q) by nra.
  destruct (round53_close (s * c) ltac:(lra)) as [Hlo _].
  generalize dependent (s * c)%Q. intros q Hq Hlo.
  generalize dependent (round53 q). intros r Hlo. lra.
Qed.

(** X12.  Every profile has a skill level between 1 and 10 and an ideal
    difficulty between the skill level and 10: the ideal difficulty is
    never below the skill level, and the 4% on top never lead past 10. *)
Theorem computeCalibrationProfile_skill_range
    (feedbackEntries : list FeedbackWithDifficulty.t)
    (dailyPlanData : list DailyPlanSummary.t) :
  let profile := computeCalibrationProfile feedbackEntries dailyPlanData in
  (1 <= CalibrationProfile.skillLevel profile)%Q
  /\ (CalibrationProfile.skillLevel profile
      <= CalibrationProfile.idealDifficulty profile)%Q
  /\ (CalibrationProfile.idealDifficulty profile <= 10)%Q.
Proof.
  cbv zeta. unfold computeCalibrationProfile.
  destruct (_ <? 3); cbn [CalibrationProfile.skillLevel
                            CalibrationProfile.idealDifficulty].
  { repeat split; discriminate. }
  pose proof (raw_skillLevel_range feedbackEntries) as [Hlo Hhi].
  set (s := raw_skillLevel feedbackEntries) in *.
  assert (E1 : (round1_double 1 == 1)%Q)
    by (apply Qeq_bool_eq; vm_compute; reflexivity).
  assert (E10 : (round1_double 10 == 10)%Q)
    by (apply Qeq_bool_eq; vm_compute; reflexivity).
  split; [|split].
  - rewrite <- E1. now apply round1_double_mono.
  - apply round1_double_mono, Q.min_glb;
      [assumption | now apply ideal_above_skill].
  - rewrite <- E10 at 2. apply round1_double_mono, Q.le_min_l.
Qed.

(** *** The streak *)

Lemma streak_walk_range (prev : DailyPlanSummary.t)
    (rest : list DailyPlanSummary.t) (currentStreak : Z) :
  currentStreak <= streak_walk prev rest currentStreak
  <= currentStreak + Z.of_nat (length rest).
Proof.
  revert prev currentStreak.
  induction rest as [|curr rest IH]; intros prev currentStreak; simpl streak_walk.
  - simpl. lia.
  - destruct (Qle_bool _ _).
    + specialize (IH curr (currentStreak + 1)). simpl length. lia.
    + simpl length. lia.
Qed.

(** X13.  With three feedback entries or more, the streak is 0 exactly
    when no plan has a completed review; otherwise it is at least 1,
    however long ago the last review was, and at most the number of
    reviewed plans. *)
Theorem computeCalibrationProfile_streak
    (feedbackEntries : list FeedbackWithDifficulty.t)
    (dailyPlanData : list DailyPlanSummary.t) :
  (3 <= length feedbackEntries)%nat ->
  let streak :=
    CalibrationProfile.currentStreak
      (computeCalibrationProfile feedbackEntries dailyPlanData) in
  (streak = 0 <-> reviewed dailyPlanData = [])
  /\ (reviewed dailyPlanData <> [] -> 1 <= streak)
  /\ streak <= Z.of_nat (length (reviewed dailyPlanData)).
Proof.
  intros Hn. cbv zeta. unfold computeCalibrationProfile.
  destruct (Z.ltb_spec (Z.of_nat (length feedbackEntries)) 3); [lia|].
  cbn [CalibrationProfile.currentStreak]. fold (reviewed dailyPlanData).
  pose proof (array_sort_length by_date_desc (reviewed dailyPlanData)) as Hlen.
  destruct (array_sort by_date_desc (reviewed dailyPlanData))
    as [|first rest] eqn:Hsort.
  - apply array_sort_nil_inv in Hsort. rewrite Hsort.
    repeat split; auto; try contradiction. simpl. lia.
  - pose proof (streak_walk_range first rest 1) as Hw.
    simpl length in Hlen.
    assert (Hne : reviewed dailyPlanData <> []).
    { intros E. rewrite E in Hlen. discriminate Hlen. }
    repeat split; try lia.
    intros E. contradiction.
Qed.

(** *** The hours per day *)

Lemma round1_range (lo hi : Z) (x : Q) :
  (inject_Z lo <= x <= inject_Z hi)%Q ->
  (inject_Z lo <= round1 x <= inject_Z hi)%Q.
Proof.
  intros [Hlo Hhi]. split.
  - rewrite <- (round1_inject_Z lo). now apply round1_mono.
  - rewrite <- (round1_inject_Z hi). now apply round1_mono.
Qed.

(** X14.  The average hours per day lie between the smallest and the
    largest number of hours among the plans that carry one, and are 0
    when no plan carries one (a plan with 0 hours counts as carrying
    none). *)
Theorem computeCalibrationProfile_avgHours
    (feedbackEntries : list FeedbackWithDifficulty.t)
    (dailyPlanData : list DailyPlanSummary.t) (lo hi : Z) :
  (3 <= length feedbackEntries)%nat ->
  Forall (fun plan =>
            lo <= default 0 (DailyPlanSummary.hoursRequested plan) <= hi)
    (with_hours dailyPlanData) ->
  let avgHoursPerDay :=
    CalibrationProfile.avgHoursPerDay
      (computeCalibrationProfile feedbackEntries dailyPlanData) in
  (with_hours dailyPlanData = [] -> (avgHoursPerDay == 0)%Q)
  /\ (with_hours dailyPlanData <> [] ->
      (inject_Z lo <= avgHoursPerDay <= inject_Z hi)%Q).
Proof.
  intros Hn Hall. cbv zeta. unfold computeCalibrationProfile.
  destruct (Z.ltb_spec (Z.of_nat (length feedbackEntries)) 3); [lia|].
  cbn [CalibrationProfile.avgHoursPerDay]. fold (with_hours dailyPlanData).
  split.
  - intros ->. reflexivity.
  - intros Hne.
    destruct (Z.ltb_spec 0 (Z.of_nat (length (with_hours dailyPlanData))))
      as [_|Hlen].
    + now apply round1_range, mean_of_range.
    + destruct (with_hours dailyPlanData); [contradiction|].
      simpl in Hlen. lia.
Qed.

(** *** The energy by weekday *)

Lemma fold_add_energy (dailyPlanData : list DailyPlanSummary.t)
    (energyByDay : gmap Z (Z * Z)) (day : Z) :
  fold_left add_energy dailyPlanData energyByDay !! day
  = match rated_on day dailyPlanData with
    | [] => energyByDay !! day
    | group =>
        Some (fst (default (0, 0) (energyByDay !! day))
              + sum_by (fun plan =>
                          default 0 (DailyPlanSummary.energyRating plan)) group,
              snd (default (0, 0) (energyByDay !! day))
              + Z.of_nat (length group))
    end.
Proof.
  revert energyByDay.
  induction dailyPlanData as [|plan plans IH]; intros energyByDay;
    [reflexivity|].
  simpl fold_left. rewrite IH. unfold rated_on at 2. simpl List.filter.
  fold (rated_on day plans). unfold add_energy, truthy.
  destruct (DailyPlanSummary.energyRating plan) as [e|] eqn:He; simpl;
    [|reflexivity].
  destruct (negb (e =? 0) && negb (String.eqb _ "")); simpl; [|reflexivity].
  destruct (energyByDay !! Date_getDay (DailyPlanSummary.date plan))
    as [[total count]|] eqn:Hold; simpl;
    (destruct (Z.eqb_spec (Date_getDay (DailyPlanSummary.date plan)) day)
      as [Hday|Hday];
     [ rewrite Hday in *; rewrite lookup_insert_eq, ?Hold; simpl;
       destruct (rated_on day plans) as [|p g]; simpl;
       rewrite ?sum_by_cons, ?sum_by_nil; rewrite ?He; simpl; f_equal; f_equal; lia
     | rewrite lookup_insert_ne by assumption; reflexivity ]).
Qed.

(** X15.  The energy of a weekday is the mean rating, to one decimal, of
    the plans of that weekday that carry a rating other than 0 and a
    date; a weekday without such a plan has no entry. *)
Theorem computeCalibrationProfile_energyByDay
    (feedbackEntries : list FeedbackWithDifficulty.t)
    (dailyPlanData : list DailyPlanSummary.t) (day : Z) :
  (3 <= length feedbackEntries)%nat ->
  CalibrationProfile.energyByDay
    (computeCalibrationProfile feedbackEntries dailyPlanData) !! day
  = match rated_on day dailyPlanData with
    | [] => None
    | group => Some (mean_energy group)
    end.
Proof.
  intros Hn. unfold computeCalibrationProfile.
  destruct (Z.ltb_spec (Z.of_nat (length feedbackEntries)) 3); [lia|].
  cbn [CalibrationProfile.energyByDay].
  rewrite lookup_fmap, fold_add_energy, lookup_empty.
  destruct (rated_on day dailyPlanData); reflexivity.
Qed.

End ProfileFacts.

(** ** More on scores *)

Local Open Scope R_scope.

Lemma calculateChallengeSkillScore_blend
    (taskDifficulty : R) (profile : CalibrationProfile.t) :
  calculateChallengeSkillScore taskDifficulty profile
  = gaussian (Rabs (taskDifficulty
                    - Q2R (CalibrationProfile.idealDifficulty profile)))
    * Q2R (CalibrationProfile.confidence profile)
    + default_challenge taskDifficulty
      * (1 - Q2R (CalibrationProfile.confidence profile)).
Proof.
  unfold calculateChallengeSkillScore, gaussian, default_challenge.
  cbv zeta. do 3 f_equal. field.
Qed.

(** The term of the score that depends on the difficulty. *)
Lemma calculateTaskScore_split (task : Task.t)
    (calibration : option CalibrationProfile.t) :
  exists challengeScore : Z -> R,
    (forall t, calculateTaskScore t calibration
               = score_formula t (challengeScore (Task.difficulty t)))
    /\ ((forall c, calibration = Some c ->
           (0 <= CalibrationProfile.confidence c <= 1)%Q) ->
        forall d, 0 <= challengeScore d <= 1).
Proof.
  exists (fun d =>
    match calibration with
    | Some c =>
        if Qltb 0 (CalibrationProfile.confidence c)
        then calculateChallengeSkillScore (IZR d) c
        else default_challenge (IZR d)
    | None => default_challenge (IZR d)
    end).
  split.
  - intros t. unfold calculateTaskScore, score_formula, default_challenge.
    cbv zeta. destruct calibration as [c|]; [|reflexivity].
    destruct (Qltb 0 _); reflexivity.
  - intros Hconf d.
    destruct calibration as [c|]; [|apply default_challenge_range].
    destruct (Qltb 0 _); [|apply default_challenge_range].
    destruct (Hconf c eq_refl) as [Hc0 Hc1].
    apply Qreals.Qle_Rle in Hc0, Hc1.
    rewrite RMicromega.Q2R_0 in Hc0. rewrite RMicromega.Q2R_1 in Hc1.
    rewrite calculateChallengeSkillScore_blend.
    pose proof (gaussian_range
                  (Rabs (IZR d - Q2R (CalibrationProfile.idealDifficulty c))))
      as Hg.
    pose proof (default_challenge_range (IZR d)) as Hd.
    split; nra.
Qed.

(** X16.  Between two tasks of the same difficulty the score is decided
    by priority and list position alone, under every profile: a level of
    priority is worth 0.06 and a position in the list 0.001.  So of two
    such tasks with the same priority the one earlier in the list scores
    higher, and a higher priority wins unless the task is 60 positions or
    more further down per level of priority. *)
Theorem calculateTaskScore_same_difficulty (a b : Task.t)
    (calibration : option CalibrationProfile.t) :
  Task.difficulty a = Task.difficulty b ->
  calculateTaskScore a calibration - calculateTaskScore b calibration
  = IZR (Task.priority a - Task.priority b) * 0.06
    - IZR (Task.sortOrder a - Task.sortOrder b) * 0.001
  /\ ((Task.sortOrder a - Task.sortOrder b
       < 60 * (Task.priority a - Task.priority b))%Z ->
      calculateTaskScore b calibration < calculateTaskScore a calibration).
Proof.
  intros Hd.
  destruct (calculateTaskScore_split a calibration) as (ch & Hsplit & _).
  rewrite (Hsplit a), (Hsplit b), Hd. unfold score_formula.
  rewrite !minus_IZR.
  split; [lra|].
  intros Hlt. apply IZR_lt in Hlt.
  rewrite mult_IZR, !minus_IZR in Hlt. lra.
Qed.

Lemma calculateTaskScore_same_difficulty_witness :
  calculateTaskScore (a_task "b" 60 7 3 scheduled 1) None
  < calculateTaskScore (a_task "x" 30 7 4 pending 50) None.
Proof.
  apply (calculateTaskScore_same_difficulty
           (a_task "x" 30 7 4 pending 50) (a_task "b" 60 7 3 scheduled 1) None);
    [reflexivity | simpl; lia].
Defined.

(** X17.  For a task with a priority from 1 to 5 and a list position
    from 0 to 100 the score lies between 0.26 and 0.8, without a profile
    and under every profile with a confidence from 0 to 1. *)
Theorem calculateTaskScore_range (task : Task.t)
    (calibration : option CalibrationProfile.t) :
  (forall c, calibration = Some c ->
     (0 <= CalibrationProfile.confidence c <= 1)%Q) ->
  (1 <= Task.priority task <= 5)%Z ->
  (0 <= Task.sortOrder task <= 100)%Z ->
  0.26 <= calculateTaskScore task calibration <= 0.8.
Proof.
  intros Hconf [Hp1 Hp5] [Hs0 Hs100].
  destruct (calculateTaskScore_split task calibration) as (ch & Hsplit & Hch).
  rewrite Hsplit. unfold score_formula.
  specialize (Hch Hconf (Task.difficulty task)).
  apply IZR_le in Hp1, Hp5, Hs0, Hs100.
  lra.
Qed.

Lemma calculateTaskScore_range_witness :
  0.26 <= calculateTaskScore (a_task "a" 60 5 3 pending 0)
            (Some (a_profile 5.2 0.5)) <= 0.8.
Proof.
  apply calculateTaskScore_range.
  - intros c [= <-]. split; discriminate.
  - simpl. lia.
  - simpl. lia.
Defined.

Lemma gaussian_antitone (x y : R) :
  0 <= x <= y -> gaussian y <= gaussian x.
Proof.
  intros [Hx Hxy]. unfold gaussian.
  assert (Hsq : - y ^ 2 / (2 * 2 ^ 2) <= - x ^ 2 / (2 * 2 ^ 2)) by nra.
  destruct Hsq as [Hlt|Heq].
  - left. now apply exp_increasing.
  - right. now rewrite Heq.
Qed.

(** X18.  Under a profile of confidence 1 (33 feedback entries or more)
    the challenge score is the Gaussian alone, so of two difficulties the
    one closer to the ideal difficulty never scores lower, and a task at
    the ideal difficulty scores 1. *)
Theorem calculateChallengeSkillScore_closer_is_better
    (d1 d2 : R) (profile : CalibrationProfile.t) :
  (CalibrationProfile.confidence profile == 1)%Q ->
  let ideal := Q2R (CalibrationProfile.idealDifficulty profile) in
  (Rabs (d1 - ideal) <= Rabs (d2 - ideal) ->
   calculateChallengeSkillScore d2 profile
   <= calculateChallengeSkillScore d1 profile)
  /\ calculateChallengeSkillScore ideal profile = 1.
Proof.
  intros Hconf ideal.
  apply Qreals.Qeq_eqR in Hconf. rewrite RMicromega.Q2R_1 in Hconf.
  rewrite !calculateChallengeSkillScore_blend, Hconf. fold ideal.
  split.
  - intros Hcloser.
    pose proof (gaussian_antitone (Rabs (d1 - ideal)) (Rabs (d2 - ideal))
                  (conj (Rabs_pos _) Hcloser)).
    lra.
  - rewrite Rminus_diag, Rabs_R0. unfold gaussian.
    replace (- 0 ^ 2 / (2 * 2 ^ 2)) with 0 by field.
    rewrite exp_0. lra.
Qed.

Lemma calculateChallengeSkillScore_closer_is_better_witness :
  calculateChallengeSkillScore 9 (a_profile 5.2 1)
  <= calculateChallengeSkillScore 5 (a_profile 5.2 1).
Proof.
  refine (proj1 (calculateChallengeSkillScore_closer_is_better
                   5 9 (a_profile 5.2 1) _) _).
  - reflexivity.
  - cbn [CalibrationProfile.idealDifficulty a_profile].
    assert (E : Q2R 5.2 = 52 / 10) by (unfold Q2R; simpl; lra). rewrite E.
    unfold Rabs. do 2 destruct (Rcase_abs _); lra.
Defined.

Local Close Scope R_scope.

(** * The callers *)

Section CallerFacts.
Context `{Host}.

Lemma resolveBlockDuration_is_preset (mode : string) (customDuration : Z)
    (calibration : option CalibrationProfile.t) (pendingTasks : list Task.t) :
  mode = "60"%string \/ mode = "90"%string \/ mode = "120"%string
  \/ mode = "auto"%string ->
  is_preset (resolveBlockDuration mode customDuration calibration pendingTasks).
Proof.
  unfold is_preset.
  intros [-> | [-> | [-> | ->]]]; unfold resolveBlockDuration; simpl; auto.
  apply autoDecideBlockDuration_preset.
Qed.

Lemma load_calibration_few
    (feedback : list FeedbackWithDifficulty.t)
    (plans : list DailyPlanSummary.t) :
  (length feedback < 3)%nat -> load_calibration (Some (feedback, plans)) = None.
Proof.
  intros Hn. unfold load_calibration, computeCalibrationProfile.
  destruct (Z.ltb_spec (Z.of_nat (length feedback)) 3); [reflexivity | lia].
Qed.

Lemma load_calibration_some
    (feedback : list FeedbackWithDifficulty.t)
    (plans : list DailyPlanSummary.t) :
  (3 <= length feedback)%nat ->
  load_calibration (Some (feedback, plans))
  = Some (computeCalibrationProfile feedback plans).
Proof.
  intros Hn. unfold load_calibration. cbv zeta.
  rewrite computeCalibrationProfile_confidence by assumption.
  pose proof (confidence_above (Z.of_nat (length feedback)) 3
                ltac:(lia) ltac:(lia)) as H3.
  assert (E3 : (round2 (inject_Z 3 / 33) == 9 # 100)%Q)
    by (vm_compute; reflexivity).
  rewrite E3 in H3. unfold Qltb.
  destruct (Qle_bool _ 0) eqn:E; [|reflexivity].
  apply Qle_bool_iff in E. lra.
Qed.

(** X19.  In mode auto the plan tool uses blocks of 120 minutes for a
    user with fewer than three feedback entries, or when the history
    cannot be read, and blocks of 90 minutes for a user with three to nine
    entries, whatever the tasks, the plans and the custom length. *)
Theorem generate_plan_auto (fuel : nat) (pending : list Task.t) (hours : Q)
    (breakDuration : option Z) (customBlockDuration : Z)
    (history : option (list FeedbackWithDifficulty.t
                       * list DailyPlanSummary.t))
    (startTime : string) (plan : GeneratedPlan.t) :
  generate_plan fuel pending hours breakDuration "auto" customBlockDuration
    history startTime = Some (success plan) ->
  match history with
  | None => GeneratedPlan.blockDurationUsed plan = 120
  | Some (feedback, _) =>
      ((length feedback < 3)%nat ->
       GeneratedPlan.blockDurationUsed plan = 120)
      /\ ((3 <= length feedback <= 9)%nat ->
          GeneratedPlan.blockDurationUsed plan = 90)
  end.
Proof.
  unfold generate_plan. destruct (_ =? 0); [discriminate|]. cbv zeta.
  destruct (generateDailySchedule _ _ _); [|discriminate].
  intros [= <-]. cbn [GeneratedPlan.blockDurationUsed].
  destruct history as [[feedback plans]|]; [|reflexivity].
  split.
  - intros Hn. now rewrite load_calibration_few.
  - intros [H3 H9]. rewrite load_calibration_some by assumption.
    unfold resolveBlockDuration, autoDecideBlockDuration. simpl String.eqb.
    cbv iota zeta.
    rewrite computeCalibrationProfile_confidence by assumption.
    pose proof (confidence_above (Z.of_nat (length feedback)) 3
                  ltac:(lia) ltac:(lia)) as Hlo.
    pose proof (confidence_below (Z.of_nat (length feedback)) 9
                  ltac:(lia) ltac:(lia)) as Hhi.
    assert (E3 : (round2 (inject_Z 3 / 33) == 9 # 100)%Q)
      by (vm_compute; reflexivity).
    assert (E9 : (round2 (inject_Z 9 / 33) == 27 # 100)%Q)
      by (vm_compute; reflexivity).
    rewrite E3 in Hlo. rewrite E9 in Hhi.
    destruct (Qeq_bool _ 0) eqn:E0.
    { apply Qeq_bool_iff in E0. lra. }
    unfold Qltb. destruct (Qle_bool 0.3 _) eqn:E; [|reflexivity].
    apply Qle_bool_iff in E. lra.
Qed.

Lemma sum_by_lengths (blocks : list ScheduledBlock.t) :
  sum_by (fun b => Z.of_nat (length (ScheduledBlock.tasks b))) blocks
  = Z.of_nat (length (scheduled_tasks blocks)).
Proof.
  induction blocks as [|b blocks IH]; [reflexivity|].
  rewrite sum_by_cons, scheduled_tasks_cons, length_app, length_map, IH.
  lia.
Qed.

(** X20.  With one of the modes 60, 90, 120 and auto and a break that is
    not negative, the plan tool always comes to a result.  The result is
    the error for no pending tasks exactly when the list of tasks is
    empty; otherwise the block length used is a preset, and the totals
    count the blocks and the scheduled tasks, with at least one task for
    each block and no more tasks than there are active ones. *)
Theorem generate_plan_returns (pending : list Task.t) (hours : Q)
    (breakDuration : option Z) (blockDurationMode : string)
    (customBlockDuration : Z)
    (history : option (list FeedbackWithDifficulty.t
                       * list DailyPlanSummary.t))
    (startTime : string) :
  blockDurationMode = "60"%string \/ blockDurationMode = "90"%string
  \/ blockDurationMode = "120"%string \/ blockDurationMode = "auto"%string ->
  0 <= or_default breakDuration 15 ->
  (exists fuel result,
     generate_plan fuel pending hours breakDuration blockDurationMode
       customBlockDuration history startTime = Some result)
  /\ forall fuel result,
       generate_plan fuel pending hours breakDuration blockDurationMode
         customBlockDuration history startTime = Some result ->
       match result with
       | error _ => pending = []
       | success plan =>
           pending <> []
           /\ is_preset (GeneratedPlan.blockDurationUsed plan)
           /\ GeneratedPlan.totalBlocks plan
              = Z.of_nat (length (GeneratedPlan._plan plan))
           /\ GeneratedPlan.totalTasks plan
              = Z.of_nat (length (scheduled_tasks (GeneratedPlan._plan plan)))
           /\ GeneratedPlan.totalBlocks plan <= GeneratedPlan.totalTasks plan
              <= Z.of_nat (length (active_tasks pending))
       end.
Proof.
  intros Hmode Hbreak.
  pose proof (resolveBlockDuration_is_preset blockDurationMode
                customBlockDuration (load_calibration history) pending Hmode)
    as Hpreset.
  set (bd := resolveBlockDuration _ _ _ _) in Hpreset.
  set (config := ScheduleConfig.mk startTime hours bd
                   (or_default breakDuration 15) (load_calibration history)).
  split.
  - destruct (generateDailySchedule_terminates pending config)
      as (fuel & blocks & E).
    { simpl. unfold is_preset in Hpreset. lia. }
    exists fuel. unfold generate_plan.
    destruct (_ =? 0); [eauto|]. cbv zeta. fold bd. fold config.
    rewrite E. eauto.
  - intros fuel result. unfold generate_plan.
    destruct (Z.eqb_spec (Z.of_nat (length pending)) 0) as [Hlen|Hlen].
    { intros [= <-]. destruct pending; [reflexivity | discriminate]. }
    cbv zeta. fold bd. fold config.
    destruct (generateDailySchedule fuel pending config) as [blocks|] eqn:E;
      [|discriminate].
    intros [= <-]. cbn [GeneratedPlan.blockDurationUsed GeneratedPlan._plan
                        GeneratedPlan.totalBlocks GeneratedPlan.totalTasks].
    rewrite sum_by_lengths.
    split; [intros ->; contradiction|]. split; [exact Hpreset|].
    split; [reflexivity|]. split; [reflexivity|].
    apply generateDailySchedule_emits_run in E as [->|E]; [simpl; lia|].
    pose proof (emits_nonempty _ _ _ _ _ _ _ E) as Hne.
    apply scheduled_tasks_length in Hne.
    apply emits_submseteq, submseteq_length in E.
    rewrite scoredTasks_tasks in E. lia.
Qed.

(** X21.  The review of the day counts the tasks of the plan of the
    session, and it never reports a completed task: the count of the
    remaining tasks is taken from the same plan as the total.  The streak
    it reports is 0 when the history cannot be read or holds fewer than
    three feedback entries. *)
Theorem eod_review_counts (currentPlan : option (list ScheduledBlock.t))
    (history : option (list FeedbackWithDifficulty.t
                       * list DailyPlanSummary.t)) :
  let review := eod_review currentPlan history in
  EodReview.completedTasks review = 0
  /\ EodReview.totalTasks review
     = Z.of_nat (length (scheduled_tasks (default [] currentPlan)))
  /\ match history with
     | None => EodReview.streak review = 0
     | Some (feedback, _) =>
         (length feedback < 3)%nat -> EodReview.streak review = 0
     end.
Proof.
  cbv zeta. unfold eod_review.
  cbn [EodReview.completedTasks EodReview.totalTasks EodReview.streak].
  split; [|split].
  - destruct currentPlan as [plan|]; [|reflexivity]. simpl fst.
    fold (sum_by (fun b => Z.of_nat (length (ScheduledBlock.tasks b))) plan).
    now rewrite Z.ltb_irrefl.
  - destruct currentPlan as [plan|]; [|reflexivity]. simpl snd.
    fold (sum_by (fun b => Z.of_nat (length (ScheduledBlock.tasks b))) plan).
    apply sum_by_lengths.
  - destruct history as [[feedback plans]|]; [|reflexivity].
    intros Hn. unfold computeCalibrationProfile.
    destruct (Z.ltb_spec (Z.of_nat (length feedback)) 3); [reflexivity | lia].
Qed.

End CallerFacts.

(** ** Starting a block *)

Lemma numbered_tasks_lookup (tasks : list ScheduledTask.t) (i : nat) :
  numbered_tasks tasks !! i
  = (fun t =>
       PlanTask.mk (Z.of_nat i + 1) (Task.title (ScheduledTask.task t))
         (Task.estimatedMinutes (ScheduledTask.task t))
         (Task.difficulty (ScheduledTask.task t))
         (Task.id (ScheduledTask.task t))) <$> tasks !! i.
Proof. unfold numbered_tasks. apply list_lookup_imap. Qed.

(** X22.  On a schedule as the generator returns it, [start_block n]
    succeeds exactly for n from 1 to the number of blocks, and then it
    gives the block whose [blockNumber] is n, with its tasks numbered
    1, 2, ... in their order: the task it numbers 1 is there, and no task
    of the block is easier. *)
Theorem start_block_generated (fuel : nat) (pendingTasks : list Task.t)
    (config : ScheduleConfig.t) (blocks : list ScheduledBlock.t) (n : Z) :
  generateDailySchedule fuel pendingTasks config = Some blocks ->
  (1 <= n <= Z.of_nat (length blocks) ->
   exists (started : PlanBlock.t) (first : PlanTask.t),
     start_block (Some blocks) n = success started
     /\ PlanBlock.blockNumber started = n
     /\ PlanBlock.tasks started !! 0%nat = Some first
     /\ List.map PlanTask.number (PlanBlock.tasks started)
        = List.map (fun i => Z.of_nat i + 1)
            (seq 0 (length (PlanBlock.tasks started)))
     /\ Forall (fun t => PlanTask.difficulty first <= PlanTask.difficulty t)
          (PlanBlock.tasks started))
  /\ (~ 1 <= n <= Z.of_nat (length blocks) ->
      exists message, start_block (Some blocks) n = error message).
Proof.
  intros E. split; cycle 1.
  { intros Hn. unfold start_block. cbv zeta.
    destruct (Z.ltb_spec (n - 1) 0); simpl; [eauto|].
    destruct (Z.leb_spec (Z.of_nat (length blocks)) (n - 1)); [eauto | lia]. }
  intros [Hn1 Hn2]. unfold start_block. cbv zeta.
  destruct (Z.ltb_spec (n - 1) 0); [lia|].
  destruct (Z.leb_spec (Z.of_nat (length blocks)) (n - 1)); [lia|]. simpl.
  destruct (lookup_lt_is_Some_2 blocks (Z.to_nat (n - 1)) ltac:(lia))
    as [b Hb].
  rewrite Hb.
  apply generateDailySchedule_emits in E as [Hok Hnum].
  assert (Hbn : ScheduledBlock.blockNumber b = n).
  { apply (f_equal (fun l => l !! Z.to_nat (n - 1))) in Hnum.
    change (List.map ?f ?l) with (f <$> l) in Hnum.
    rewrite list_lookup_fmap, Hb in Hnum. simpl in Hnum. symmetry in Hnum.
    apply numbers_from_lookup in Hnum. lia. }
  rewrite Forall_forall in Hok.
  specialize (Hok b ltac:(eapply list_elem_of_lookup_2; exact Hb)).
  pose proof (emitted_lower_the_hurdle _ _ _ Hok) as [Hord Hdiff].
  destruct Hok as (cands & sel & _ & Hsel & Htasks & _).
  destruct (ScheduledBlock.tasks b) as [|t0 ts] eqn:Hts.
  { exfalso. apply (f_equal length) in Htasks.
    rewrite to_blockTasks_length, array_sort_length in Htasks.
    destruct sel; [contradiction | discriminate]. }
  eexists _, _. split; [reflexivity|].
  cbn [PlanBlock.blockNumber PlanBlock.tasks].
  split; [exact Hbn|]. split; [reflexivity|]. split.
  - apply list_eq. intros i.
    change (List.map ?f ?l) with (f <$> l).
    rewrite !list_lookup_fmap, numbered_tasks_lookup.
    unfold numbered_tasks. rewrite length_imap.
    destruct ((t0 :: ts) !! i) as [t|] eqn:Hi.
    + apply lookup_lt_Some in Hi. now rewrite lookup_seq_lt.
    + apply lookup_ge_None in Hi. now rewrite lookup_seq_ge.
  - apply Forall_forall. intros t Ht.
    apply list_elem_of_lookup in Ht as [i Hi].
    rewrite numbered_tasks_lookup in Hi.
    destruct ((t0 :: ts) !! i) as [st|] eqn:Hst; [|discriminate].
    injection Hi as <-. cbn [PlanTask.difficulty].
    apply Hdiff.
    + now left.
    + apply list_elem_of_In. eapply list_elem_of_lookup_2. exact Hst.
    + assert (H0s : ScheduledTask.sortOrder t0 = 0).
      { simpl in Hord. now injection Hord as -> _. }
      assert (His : ScheduledTask.sortOrder st = Z.of_nat i).
      { apply (f_equal (fun l => l !! i)) in Hord.
        change (List.map ?f ?l) with (f <$> l) in Hord.
        rewrite !list_lookup_fmap, Hst in Hord.
        rewrite lookup_seq_lt in Hord by (now apply lookup_lt_Some in Hst).
        simpl in Hord. now injection Hord as ->. }
      lia.
Qed.

(** ** The hours of the plan route *)

(** X23.  When the request names a wrap-up time, and it and the start
    time are times of day, the hours planned are the time from the start
    forward to the wrap-up time, through midnight if need be, but at least
    one hour; they lie between 1 and 24, the hours of the request are not
    looked at, and a wrap-up time equal to the start time plans 24
    hours. *)
Theorem hoursRequested_of_wrapUpBy (startTime wrapUpBy : string)
    (hours : option Q) (startMinutes endMinutes : Z) :
  wrapUpBy <> ""%string ->
  parseTime startTime = Some startMinutes ->
  parseTime wrapUpBy = Some endMinutes ->
  0 <= startMinutes < 1440 -> 0 <= endMinutes < 1440 ->
  exists hoursRequested : Q,
    hoursRequested_of startTime (Some wrapUpBy) hours = Some hoursRequested
    /\ (1 <= hoursRequested <= 24)%Q
    /\ (hoursRequested
        == Qmax 1 (inject_Z ((endMinutes - startMinutes - 1) mod 1440 + 1)
                   / 60))%Q
    /\ (endMinutes = startMinutes -> (hoursRequested == 24)%Q).
Proof.
  intros Hw Hs He Hsr Her. unfold hoursRequested_of.
  destruct (String.eqb_spec wrapUpBy ""); [contradiction|].
  rewrite Hs, He. cbv zeta.
  set (totalMinutes := if startMinutes <? endMinutes then _ else _).
  assert (Ht : totalMinutes = (endMinutes - startMinutes - 1) mod 1440 + 1).
  { subst totalMinutes.
    destruct (Z.ltb_spec startMinutes endMinutes);
      Z.div_mod_to_equations; lia. }
  assert (Hrange : 1 <= totalMinutes <= 1440).
  { rewrite Ht.
    pose proof (Z.mod_pos_bound (endMinutes - startMinutes - 1) 1440
                  ltac:(lia)). lia. }
  eexists. split; [reflexivity|].
  destruct Hrange as [Hlo Hhi]. rewrite Zle_Qle in Hlo, Hhi.
  change (inject_Z 1) with 1%Q in Hlo.
  change (inject_Z 1440) with 1440%Q in Hhi.
  split; [|split].
  - split; [apply Q.le_max_l|].
    apply Q.max_lub; [discriminate|].
    apply Qle_shift_div_r; [reflexivity | lra].
  - now rewrite Ht.
  - intros ->. subst totalMinutes.
    rewrite Z.ltb_irrefl.
    replace (24 * 60 - startMinutes + startMinutes) with 1440 by lia.
    reflexivity.
Qed.

Lemma hoursRequested_of_wrapUpBy_witness :
  exists hoursRequested : Q,
    hoursRequested_of "22:30" (Some "01:00"%string) (Some 6%Q)
    = Some hoursRequested
    /\ (1 <= hoursRequested <= 24)%Q
    /\ (hoursRequested
        == Qmax 1 (inject_Z ((60 - 1350 - 1) mod 1440 + 1) / 60))%Q
    /\ (60 = 1350 -> (hoursRequested == 24)%Q).
Proof.
  apply (hoursRequested_of_wrapUpBy "22:30" "01:00" (Some 6%Q) 1350 60);
    [discriminate | reflexivity | reflexivity | lia | lia].
Defined.

(** ** Instances on a host of the model *)

Lemma resolveBlockDuration_preset_witness :
  is_preset (resolveBlockDuration (H := day_count_host) "auto" 45
               (Some (a_profile 5.2 0.8)) five_tasks)
  /\ resolveBlockDuration (H := day_count_host) "45" 45 None [] = 45
  /\ resolveBlockDuration (H := day_count_host) "45" 0 None [] = 120.
Proof.
  split; [|split].
  - apply (proj1 (resolveBlockDuration_preset (H := day_count_host) "auto" 45
                    (Some (a_profile 5.2 0.8)) five_tasks)).
    auto.
  - destruct (resolveBlockDuration_preset (H := day_count_host) "45" 45
                None []) as (_ & _ & _ & _ & _ & _ & _ & Hother).
    apply Hother; discriminate.
  - destruct (resolveBlockDuration_preset (H := day_count_host) "45" 0
                None []) as (_ & _ & _ & _ & _ & _ & _ & Hother).
    apply Hother; discriminate || reflexivity.
Defined.

Lemma computeCalibrationProfile_confidence_steps_witness :
  (0.09 <= CalibrationProfile.confidence
             (computeCalibrationProfile (H := day_count_host)
                ten_entries two_plans) <= 1)%Q.
Proof.
  apply (proj1 (proj2 (computeCalibrationProfile_confidence_steps
                         (H := day_count_host) ten_entries two_plans))).
  simpl. lia.
Defined.

Lemma computeCalibrationProfile_streak_witness :
  1 <= CalibrationProfile.currentStreak
         (computeCalibrationProfile (H := day_count_host)
            ten_entries two_plans).
Proof.
  refine (proj1 (proj2 (computeCalibrationProfile_streak
                          (H := day_count_host) ten_entries two_plans _)) _).
  - simpl. lia.
  - discriminate.
Defined.

Lemma computeCalibrationProfile_avgHours_witness :
  (inject_Z 4
   <= CalibrationProfile.avgHoursPerDay
        (computeCalibrationProfile (H := day_count_host)
           ten_entries two_plans)
   <= inject_Z 6)%Q.
Proof.
  refine (proj2 (computeCalibrationProfile_avgHours
                   (H := day_count_host) ten_entries two_plans 4 6 _ _) _).
  - simpl. lia.
  - repeat constructor; simpl; lia.
  - discriminate.
Defined.

Lemma computeCalibrationProfile_energyByDay_witness :
  CalibrationProfile.energyByDay
    (computeCalibrationProfile (H := day_count_host) ten_entries two_plans)
    !! 6
  = Some (mean_energy [a_plan "19700" (Some 6) (Some 4) true]).
Proof.
  refine (computeCalibrationProfile_energyByDay
            (H := day_count_host) ten_entries two_plans 6 _).
  simpl. lia.
Defined.

Lemma five_tasks_plan :
  generate_plan (H := day_count_host) 3 five_tasks 8 None "auto" 45
    (Some (firstn 2 ten_entries, two_plans)) "09:00"
  = Some (success (GeneratedPlan.mk five_tasks_blocks 3 4 120)).
Proof.
  unfold generate_plan. simpl Z.eqb. cbv iota zeta.
  rewrite load_calibration_few by (simpl; lia).
  change (generateDailySchedule 3 five_tasks _)
    with (generateDailySchedule 3 five_tasks (a_config 8 120 15)).
  rewrite five_tasks_schedule. reflexivity.
Qed.

Lemma generate_plan_auto_witness :
  GeneratedPlan.blockDurationUsed
    (GeneratedPlan.mk five_tasks_blocks 3 4 120) = 120.
Proof.
  refine (proj1 (generate_plan_auto (H := day_count_host) 3 five_tasks 8 None
                   45 (Some (firstn 2 ten_entries, two_plans)) "09:00" _
                   five_tasks_plan) _).
  simpl. lia.
Defined.

Lemma generate_plan_returns_witness :
  exists fuel result,
    generate_plan (H := day_count_host) fuel five_tasks 8 (Some 0) "90" 45
      None "09:00" = Some result.
Proof.
  refine (proj1 (generate_plan_returns (H := day_count_host) five_tasks 8
                   (Some 0) "90" 45 None "09:00" _ _)).
  - auto.
  - unfold or_default. simpl. lia.
Defined.

Lemma start_block_generated_witness :
  exists (started : PlanBlock.t) (first : PlanTask.t),
    start_block (Some five_tasks_blocks) 2 = success started
    /\ PlanBlock.blockNumber started = 2
    /\ PlanBlock.tasks started !! 0%nat = Some first
    /\ List.map PlanTask.number (PlanBlock.tasks started)
       = List.map (fun i => Z.of_nat i + 1)
           (seq 0 (length (PlanBlock.tasks started)))
    /\ Forall (fun t => PlanTask.difficulty first <= PlanTask.difficulty t)
         (PlanBlock.tasks started).
Proof.
  refine (proj1 (start_block_generated 3 five_tasks (a_config 8 120 15)
                   five_tasks_blocks 2 five_tasks_schedule) _).
  simpl. lia.
Defined.

Lemma eod_review_counts_witness :
  EodReview.completedTasks
    (eod_review (H := day_count_host) (Some five_tasks_blocks)
       (Some (ten_entries, two_plans))) = 0.
Proof.
  exact (proj1 (eod_review_counts (H := day_count_host)
                  (Some five_tasks_blocks) (Some (ten_entries, two_plans)))).
Defined.

(** ** Labels of times *)

Lemma formatTimeLabel_two_digits (h m : nat) :
  (h < 24)%nat -> (m < 60)%nat ->
  formatTimeLabel (pad2 (Z.of_nat h) ++ ":" ++ pad2 (Z.of_nat m))
  = Some (clock_label (Z.of_nat h) (Z.of_nat m)).
Proof.
  intros Hh Hm.
  assert (Hall :
    forallb (fun h => forallb (fun m =>
      bool_decide
        (formatTimeLabel (pad2 (Z.of_nat h) ++ ":" ++ pad2 (Z.of_nat m))
         = Some (clock_label (Z.of_nat h) (Z.of_nat m))))
      (seq 0 60)) (seq 0 24) = true) by (vm_compute; reflexivity).
  rewrite forallb_forall in Hall.
  specialize (Hall h ltac:(apply in_seq; lia)).
  rewrite forallb_forall in Hall.
  specialize (Hall m ltac:(apply in_seq; lia)).
  now apply bool_decide_eq_true in Hall.
Qed.

(** X24.  The label of a time the engine printed: for a count of
    minutes that is not negative, [formatTimeLabel] of [formatTime] shows
    the hour on the 12-hour clock (12 for midnight and noon), the minutes
    with two digits, and AM before noon, PM from noon on; it does not
    throw. *)
Theorem formatTimeLabel_formatTime (minutes : Z) :
  0 <= minutes ->
  formatTimeLabel (formatTime (Some minutes))
  = Some (clock_label (minutes / 60 mod 24) (minutes mod 60)).
Proof.
  intros Hm. rewrite formatTime_pad2 by assumption.
  assert (0 <= minutes / 60) by (apply Z.div_pos; lia).
  pose proof (Z.mod_pos_bound (minutes / 60) 24 ltac:(lia)).
  pose proof (Z.mod_pos_bound minutes 60 ltac:(lia)).
  rewrite formatTimeLabel_two_digits by lia.
  rewrite !Z2Nat.id by lia. reflexivity.
Qed.

Lemma formatTimeLabel_formatTime_witness :
  formatTimeLabel (formatTime (Some 810)) = Some "1:30 PM"%string.
Proof. apply (formatTimeLabel_formatTime 810). lia. Defined.
